(** * RIFT standard library: HTTP module (src/stdlib/http.py)

    A shallow embedding of the request-dispatch engine, the body decoder,
    the WebSocket frame codec and the auxiliary stores of the RIFT HTTP
    module, together with the properties its specification states, and of
    the frame codec of the WebSocket module (src/stdlib/websocket.py).

    Conventions of the embedding.
    - A Python [str] of the HTTP request head (path, method, header
      values) is a Rocq [string]: [http.server] decodes the request head
      as ISO-8859-1, so every character is one code point below 256. The
      strings of the server configuration (templates, method names,
      origins) and the keys of the stores (session ids, rate-limiter
      keys) are Rocq strings too, read the same way.
    - A Python [str] that carries payload text (a WebSocket message, a
      decoded request body) is a [ustr]: the list of its code points.
    - [bytes] and [bytearray] are lists of integers; every byte the model
      builds lies in [0, 256).
    - [time.time()] readings are exact numbers (ticks of the clock, [Z]);
      every call of [time.time()] is one reading, handed to the operation
      in the order the code takes them.
    - Code that may raise returns a [result]; the exception classes the
      code can meet are the constructors of [exn].
    - A [with self._lock:] block is one atomic state transition. *)

From Stdlib Require Import ZArith List String Ascii Bool Lia Sorted.
From stdpp Require Import base option list gmap strings pretty.

Import ListNotations.
Local Open Scope string_scope.
Local Open Scope list_scope.
Local Open Scope Z_scope.

(** ** Python values, exceptions and results *)

Module Py.

Abbreviation bytes := (list Z).
Abbreviation ustr := (list Z).

Definition is_byte (b : Z) : Prop := 0 <= b < 256.

(** A printable ASCII character. *)
Definition printable (b : Z) : Prop := 32 <= b < 127.

(** ISO-8859-1 decoding of a Rocq string: one code point per character. *)
Definition latin1 (s : string) : ustr :=
  map (fun a => Z.of_N (N_of_ascii a)) (list_ascii_of_string s).

Inductive exn :=
| UnicodeDecodeError
| UnicodeEncodeError
| JSONDecodeError
| RecursionError
| IndexError
| OverflowError
| ValueError
| TypeError
| CookieError.

Inductive result (A : Type) :=
| Ok (a : A)
| Raise (e : exn).
Arguments Ok {A} a.
Arguments Raise {A} e.

Definition bind {A B} (r : result A) (k : A -> result B) : result B :=
  match r with
  | Ok a => k a
  | Raise e => Raise e
  end.

#[global] Instance result_bind : MBind result := fun A B k r => bind r k.
#[global] Instance result_ret : MRet result := @Ok.

#[warnings="-register-all"]
Inductive value :=
| VNone
| VBool (b : bool)
| VInt (z : Z)
| VStr (s : ustr)
| VBytes (b : bytes)
| VList (l : list value)
| VDict (d : list (ustr * value))
| VObj (tag : N).

(** Truth value of an object, as [if x], [x or y] and [not x] test it. *)
Definition truthy (v : value) : bool :=
  match v with
  | VNone => false
  | VBool b => b
  | VInt z => negb (z =? 0)
  | VStr s => negb (Nat.eqb (length s) 0)
  | VBytes b => negb (Nat.eqb (length b) 0)
  | VList l => negb (Nat.eqb (length l) 0)
  | VDict d => negb (Nat.eqb (length d) 0)
  | VObj _ => true
  end.

End Py.
Import Py.

(** ** Session management: [class SessionStore] *)

Module SessionStore.

Record session := Session {
  data : value;
  created_at : Z;
  last_accessed : Z
}.

Record t := Store {
  _sessions : gmap string session;
  _ttl : Z
}.

(** [__init__(ttl=3600)] *)
Definition init (ttl : Z) : t := Store ∅ ttl.

(** [create(data)]; [session_id] is the token [secrets.token_urlsafe(32)]
    returned, [t_created] and [t_accessed] the two clock readings. *)
Definition create (session_id : string) (t_created t_accessed : Z)
    (d : value) (st : t) : string * t :=
  let s := Session (if truthy d then d else VDict []) t_created t_accessed in
  (session_id, Store (<[session_id := s]> (_sessions st)) (_ttl st)).

(** [get(session_id)]: [t_check] is the reading compared with the TTL,
    [t_touch] the reading stored as the new [last_accessed]. The Python
    return value is the stored data, or [None]. *)
Definition get (t_check t_touch : Z) (session_id : string) (st : t)
    : value * t :=
  match _sessions st !! session_id with
  | None => (VNone, st)
  | Some s =>
      if t_check - last_accessed s >? _ttl st then
        (VNone, Store (delete session_id (_sessions st)) (_ttl st))
      else
        (data s,
         Store (<[session_id := Session (data s) (created_at s) t_touch]>
                  (_sessions st)) (_ttl st))
  end.

(** [set(session_id, data)] *)
Definition set (now : Z) (session_id : string) (d : value) (st : t)
    : bool * t :=
  match _sessions st !! session_id with
  | None => (false, st)
  | Some s =>
      (true,
       Store (<[session_id := Session d (created_at s) now]> (_sessions st))
             (_ttl st))
  end.

(** [destroy(session_id)] *)
Definition destroy (session_id : string) (st : t) : bool * t :=
  match _sessions st !! session_id with
  | Some _ => (true, Store (delete session_id (_sessions st)) (_ttl st))
  | None => (false, st)
  end.

(** [cleanup()] *)
Definition cleanup (now : Z) (st : t) : t :=
  Store (filter (fun kv => ¬ (now - last_accessed kv.2 > _ttl st))
                (_sessions st)) (_ttl st).

(** An entry is logically expired at [now] once its idle time exceeds
    the TTL. *)
Definition expired (st : t) (s : session) (now : Z) : Prop :=
  now - last_accessed s > _ttl st.

End SessionStore.

(** ** Rate limiting: [class RateLimiter] *)

Module RateLimiter.

Record t := Limiter {
  _max_requests : Z;
  _window : Z;
  _requests : gmap string (list Z)
}.

Definition init (max_requests window : Z) : t :=
  Limiter max_requests window ∅.

(** [self._requests] is a [defaultdict(list)]: a missing key reads as the
    empty list. *)
Definition requests_of (rl : t) (key : string) : list Z :=
  default [] (_requests rl !! key).

(** The list comprehension [[t for t in self._requests[key] if now - t < window]]. *)
Definition prune (rl : t) (now : Z) (key : string) : list Z :=
  filter (fun t => now - t < _window rl) (requests_of rl key).

(** [is_allowed(key)] with [now = time.time()]. *)
Definition is_allowed (now : Z) (key : string) (rl : t) : bool * t :=
  let kept := prune rl now key in
  if Z.of_nat (length kept) <? _max_requests rl then
    (true,
     Limiter (_max_requests rl) (_window rl)
             (<[key := kept ++ [now]]> (_requests rl)))
  else
    (false,
     Limiter (_max_requests rl) (_window rl)
             (<[key := kept]> (_requests rl))).

(** [remaining(key)] *)
Definition remaining (now : Z) (key : string) (rl : t) : Z * t :=
  let kept := prune rl now key in
  (Z.max 0 (_max_requests rl - Z.of_nat (length kept)),
   Limiter (_max_requests rl) (_window rl) (<[key := kept]> (_requests rl))).

(** The limiter described by its history alone: [admitted] holds every
    timestamp admitted so far, none ever dropped; a call is admitted iff
    fewer than the maximum of them lie in its trailing window. *)
Fixpoint admit_by_history (mx w : Z) (admitted times : list Z) : list bool :=
  match times with
  | [] => []
  | now :: rest =>
      let b := bool_decide
                 (Z.of_nat (length (filter (fun t => now - t < w) admitted)) < mx) in
      b :: admit_by_history mx w (if b then admitted ++ [now] else admitted) rest
  end.

(** A sequence of [is_allowed] calls on one key, one clock reading each. *)
Fixpoint calls (times : list Z) (key : string) (rl : t) : list bool * t :=
  match times with
  | [] => ([], rl)
  | now :: rest =>
      let '(b, rl1) := is_allowed now key rl in
      let '(bs, rl2) := calls rest key rl1 in
      (b :: bs, rl2)
  end.

End RateLimiter.

(** ** CORS: [class CORSHandler] *)

Module CORSHandler.

Record t := Handler {
  origins : list string;
  methods : list string;
  headers : list string;
  credentials : bool;
  max_age : Z
}.

(** The [origins] argument of the constructor: a list, or one origin. *)
Inductive origins_arg :=
| OriginList (l : list string)
| OneOrigin (o : string).

(** [__init__(origins='*', methods=None, headers=None, credentials=False,
    max_age=86400)]; [None] and the empty list both select the default
    of [methods] and [headers]. *)
Definition init (o : origins_arg) (m h : option (list string))
    (c : bool) (age : Z) : t :=
  Handler
    (match o with OriginList l => l | OneOrigin s => [s] end)
    (match m with
     | Some (x :: l) => x :: l
     | _ => ["GET"; "POST"; "PUT"; "DELETE"; "PATCH"; "OPTIONS"]
     end)
    (match h with
     | Some (x :: l) => x :: l
     | _ => ["Content-Type"; "Authorization"]
     end)
    c age.

(** [', '.join(l)] *)
Definition join (l : list string) : string := String.concat ", " l.

(** [request_origin and request_origin in self.origins]: an absent or
    empty request origin is false. *)
Definition origin_listed (request_origin : option string) (c : t) : bool :=
  match request_origin with
  | Some o => negb (String.eqb o EmptyString) && bool_decide (o ∈ origins c)
  | None => false
  end.

(** [add_headers(request_origin=None)] *)
Definition add_headers (request_origin : option string) (c : t)
    : gmap string string :=
  let h0 : gmap string string := ∅ in
  let h1 :=
    if bool_decide ("*" ∈ origins c) then
      <["Access-Control-Allow-Origin" := "*"]> h0
    else if origin_listed request_origin c then
      <["Access-Control-Allow-Origin" := default EmptyString request_origin]> h0
    else
      match origins c with
      | first :: _ => <["Access-Control-Allow-Origin" := first]> h0
      | [] => h0
      end in
  let h2 := <["Access-Control-Allow-Methods" := join (methods c)]> h1 in
  let h3 := <["Access-Control-Allow-Headers" := join (headers c)]> h2 in
  let h4 := <["Access-Control-Max-Age" := pretty (max_age c)]> h3 in
  if credentials c then <["Access-Control-Allow-Credentials" := "true"]> h4
  else h4.

End CORSHandler.


(** ** The UTF-8 codec behind [str.encode] and [bytes.decode] *)

Module Utf8.

(** [str.encode('utf-8')] of one code point: surrogates cannot be
    encoded. *)
Definition encode_cp (c : Z) : option bytes :=
  if c <? 0 then None
  else if c <? 0x80 then Some [c]
  else if c <? 0x800 then Some [0xC0 + c / 64; 0x80 + c mod 64]
  else if c <? 0x10000 then
    if (0xD800 <=? c) && (c <=? 0xDFFF) then None
    else Some [0xE0 + c / 4096; 0x80 + (c / 64) mod 64; 0x80 + c mod 64]
  else if c <? 0x110000 then
    Some [0xF0 + c / 262144; 0x80 + (c / 4096) mod 64;
          0x80 + (c / 64) mod 64; 0x80 + c mod 64]
  else None.

(** [s.encode('utf-8')] *)
Fixpoint encode (s : ustr) : result bytes :=
  match s with
  | [] => Ok []
  | c :: rest =>
      match encode_cp c with
      | None => Raise UnicodeEncodeError
      | Some bs => tl ← encode rest; Ok (bs ++ tl)
      end
  end.

(** The text of a [str] in which every character is below 256. *)
Definition encode_latin1 (s : string) : bytes :=
  concat (map (fun c => default [] (encode_cp c)) (latin1 s)).

(** One step of the decoder at the head of a byte sequence. *)
Inductive step :=
| Char (c : Z) (rest : bytes)
| Invalid (skip : nat)
| Truncated.

Definition cont (b : Z) : bool := (0x80 <=? b) && (b <=? 0xBF).

(** The decoder accepts exactly the well-formed sequences: no overlong
    forms, no surrogates, nothing above U+10FFFF. An ill-formed sequence
    is an error over its maximal well-formed prefix ([Invalid], at least
    one byte); a sequence cut short by the end of the data is an error
    over all that remains ([Truncated]). *)
Definition decode_step (bs : bytes) : step :=
  match bs with
  | [] => Truncated
  | b0 :: r0 =>
    if b0 <? 0x80 then Char b0 r0
    else if b0 <? 0xC2 then Invalid 1
    else if b0 <? 0xE0 then
      match r0 with
      | [] => Truncated
      | b1 :: r1 =>
          if cont b1 then Char ((b0 - 0xC0) * 64 + (b1 - 0x80)) r1
          else Invalid 1
      end
    else if b0 <? 0xF0 then
      match r0 with
      | [] => Truncated
      | b1 :: r1 =>
          if negb (cont b1)
             || (if b1 <? 0xA0 then b0 =? 0xE0 else b0 =? 0xED)
          then Invalid 1
          else
            match r1 with
            | [] => Truncated
            | b2 :: r2 =>
                if cont b2 then
                  Char ((b0 - 0xE0) * 4096 + (b1 - 0x80) * 64 + (b2 - 0x80)) r2
                else Invalid 2
            end
      end
    else if b0 <? 0xF5 then
      match r0 with
      | [] => Truncated
      | b1 :: r1 =>
          if negb (cont b1)
             || (if b1 <? 0x90 then b0 =? 0xF0 else b0 =? 0xF4)
          then Invalid 1
          else
            match r1 with
            | [] => Truncated
            | b2 :: r2 =>
                if negb (cont b2) then Invalid 2
                else
                  match r2 with
                  | [] => Truncated
                  | b3 :: r3 =>
                      if cont b3 then
                        Char ((b0 - 0xF0) * 262144 + (b1 - 0x80) * 4096
                              + (b2 - 0x80) * 64 + (b3 - 0x80)) r3
                      else Invalid 3
                  end
            end
      end
    else Invalid 1
  end.

(** [b.decode('utf-8')]: the first error raises. Every step consumes a
    byte, so [length b] steps are enough. *)
Fixpoint decode_fuel (fuel : nat) (bs : bytes) : result ustr :=
  match bs, fuel with
  | [], _ => Ok []
  | _, O => Ok []
  | _, S fuel' =>
      match decode_step bs with
      | Char c rest => tl ← decode_fuel fuel' rest; Ok (c :: tl)
      | Invalid _ | Truncated => Raise UnicodeDecodeError
      end
  end.

Definition decode (bs : bytes) : result ustr := decode_fuel (length bs) bs.

(** [b.decode('utf-8', errors='replace')]: every error becomes one
    U+FFFD and decoding resumes after it; it cannot raise. *)
Fixpoint decode_replace_fuel (fuel : nat) (bs : bytes) : ustr :=
  match bs, fuel with
  | [], _ => []
  | _, O => []
  | _, S fuel' =>
      match decode_step bs with
      | Char c rest => c :: decode_replace_fuel fuel' rest
      | Invalid n => 0xFFFD :: decode_replace_fuel fuel' (drop n bs)
      | Truncated => [0xFFFD]
      end
  end.

Definition decode_replace (bs : bytes) : ustr :=
  decode_replace_fuel (length bs) bs.

End Utf8.

(** ** WebSocket support: [class WebSocketConnection] *)

Module WebSocketConnection.

(** The connection: the [connected] flag and the two streams of the
    request handler. [rfile] holds the bytes the peer has sent and that
    are still unread; [wfile] the bytes written so far; [wfile_broken]
    tells whether a write raises (the peer is gone). *)
Record t := Conn {
  connected : bool;
  rfile : bytes;
  wfile : bytes;
  wfile_broken : bool
}.

(** [self.handler.rfile.read(n)]: up to [n] bytes, fewer at the end of
    the stream. The buffered reader allocates [n] bytes before it reads:
    a size the process cannot allocate raises ([OverflowError] from 2^63
    on, [MemoryError] below it), which [read] leaves out. Nothing depends
    on it where the bytes asked for are there; a property about a read
    of more bytes than are left bounds the size asked for. *)
Definition read (n : nat) (c : t) : bytes * t :=
  (take n (rfile c),
   Conn (connected c) (drop n (rfile c)) (wfile c) (wfile_broken c)).

Definition set_connected (b : bool) (c : t) : t :=
  Conn b (rfile c) (wfile c) (wfile_broken c).

Definition set_rfile (r : bytes) (c : t) : t :=
  Conn (connected c) r (wfile c) (wfile_broken c).

Definition write (b : bytes) (c : t) : t :=
  Conn (connected c) (rfile c) (wfile c ++ b) (wfile_broken c).

(** The [n] low-order base-256 digits of [z], most significant first. *)
Fixpoint big_endian (n : nat) (z : Z) : bytes :=
  match n with
  | O => []
  | S k => (z / 256 ^ Z.of_nat k) mod 256 :: big_endian k z
  end.

(** [z.to_bytes(n, 'big')] for [z >= 0] *)
Definition to_bytes (z : Z) (n : nat) : result bytes :=
  if z <? 256 ^ Z.of_nat n then Ok (big_endian n z) else Raise OverflowError.

(** [int.from_bytes(b, 'big')] *)
Definition from_bytes (b : bytes) : Z :=
  fold_left (fun acc x => acc * 256 + x) b 0.

(** The frame header [send] builds for a payload of [len] bytes. *)
Definition frame_header (len : Z) : result bytes :=
  if len <=? 125 then Ok [0x81; len]
  else if len <=? 65535 then
    ext ← to_bytes len 2; Ok ([0x81; 126] ++ ext)
  else
    ext ← to_bytes len 8; Ok ([0x81; 127] ++ ext).

(** [send(message)]; the encoding of the message is outside the [try]. *)
Definition send (message : ustr) (c : t) : result (bool * t) :=
  if negb (connected c) then Ok (false, c)
  else
    data ← Utf8.encode message;
    header ← frame_header (Z.of_nat (length data));
    if wfile_broken c then Ok (false, set_connected false c)
    else Ok (true, write (header ++ data) c).

(** The loop [for i in range(length): data[i] ^= mask[i % 4]] on the
    bytearray [data]; an index out of range raises. *)
Fixpoint unmask (indices : list nat) (data mask : bytes) : result bytes :=
  match indices with
  | [] => Ok data
  | i :: rest =>
      match data !! i, mask !! (i mod 4)%nat with
      | Some d, Some m => unmask rest (<[i := Z.lxor d m]> data) mask
      | _, _ => Raise IndexError
      end
  end.

(** [receive()]: the message, or [None]; whatever is raised inside is
    caught, and marks the connection closed. *)
Definition receive (c : t) : option ustr * t :=
  let '(header, c1) := read 2 c in
  match header with
  | [h0; h1] =>
      let opcode := Z.land h0 0x0F in
      let masked := Z.land h1 0x80 in
      let length7 := Z.land h1 0x7F in
      let '(len, c2) :=
        if length7 =? 126 then
          let '(ext, c') := read 2 c1 in (from_bytes ext, c')
        else if length7 =? 127 then
          let '(ext, c') := read 8 c1 in (from_bytes ext, c')
        else (length7, c1) in
      let '(mask, c3) := if masked =? 0 then ([], c2) else read 4 c2 in
      let '(data, c4) := read (Z.to_nat len) c3 in
      let unmasked :=
        if masked =? 0 then Ok data
        else unmask (seq 0 (Z.to_nat len)) data mask in
      match unmasked with
      | Raise _ => (None, set_connected false c4)
      | Ok payload =>
          if opcode =? 0x01 then
            match Utf8.decode payload with
            | Ok text => (Some text, c4)
            | Raise _ => (None, set_connected false c4)
            end
          else if opcode =? 0x08 then (None, set_connected false c4)
          else (None, c4)
      end
  | _ => (None, c1)
  end.

(** Frames on the wire (RFC 6455), as the specification describes them:
    the length field, a server frame (unmasked), and the client frame
    carrying the same payload under a 4-byte masking key. *)
Definition length_field (len : Z) : bytes :=
  if len <=? 125 then [len]
  else if len <=? 65535 then 126 :: big_endian 2 len
  else 127 :: big_endian 8 len.

Definition mask_payload (key data : bytes) : bytes :=
  imap (fun i d => Z.lxor d (default 0 (key !! (i mod 4)%nat))) data.

Definition server_text_frame (data : bytes) : bytes :=
  0x81 :: length_field (Z.of_nat (length data)) ++ data.

Definition client_text_frame (key data : bytes) : bytes :=
  match length_field (Z.of_nat (length data)) with
  | b1 :: ext => 0x81 :: Z.lor 0x80 b1 :: ext ++ key ++ mask_payload key data
  | [] => []
  end.

(** [close()]: the close frame is written if the connection is open; a
    failing write is ignored. *)
Definition close (c : t) : t :=
  if connected c then
    set_connected false (if wfile_broken c then c else write [0x88; 0x00] c)
  else c.

(** A frame on the wire with first byte [h0] and payload [data]: unmasked,
    or masked under a key. *)
Definition frame (h0 : Z) (key : option bytes) (data : bytes) : bytes :=
  match length_field (Z.of_nat (length data)), key with
  | b1 :: ext, Some k => h0 :: Z.lor 0x80 b1 :: ext ++ k ++ mask_payload k data
  | b1 :: ext, None => h0 :: b1 :: ext ++ data
  | [], _ => []
  end.

(** What [receive] makes of a frame once its payload is in hand: the
    text of a text frame, closure on a close frame or on text that is not
    UTF-8, nothing on any other opcode. *)
Definition deliver (opcode : Z) (payload : bytes) (c : t) : option ustr * t :=
  if opcode =? 0x01 then
    match Utf8.decode payload with
    | Ok text => (Some text, c)
    | Raise _ => (None, set_connected false c)
    end
  else if opcode =? 0x08 then (None, set_connected false c)
  else (None, c).

(** [n] calls of [receive] in a row, with what each returned. *)
Fixpoint receive_n (n : nat) (c : t) : list (option ustr) * t :=
  match n with
  | O => ([], c)
  | S k =>
      let '(m, c1) := receive c in
      let '(ms, c2) := receive_n k c1 in
      (m :: ms, c2)
  end.

(** [send] of each message in turn, with what each call returned; an
    exception ends the run. *)
Fixpoint send_all (ms : list ustr) (c : t) : result (list bool * t) :=
  match ms with
  | [] => Ok ([], c)
  | m :: rest =>
      r ← send m c;
      rs ← send_all rest r.2;
      Ok (r.1 :: rs.1, rs.2)
  end.

End WebSocketConnection.

(** ** The part of Python's [re] the route table uses *)

Module Re.

Definition code (a : ascii) : N := N_of_ascii a.

Definition between (lo hi : N) (a : ascii) : bool :=
  ((lo <=? code a) && (code a <=? hi))%N.

Definition is_ascii_letter (a : ascii) : bool :=
  between 65 90 a || between 97 122 a.

Definition is_ascii_digit (a : ascii) : bool := between 48 57 a.

(** The class [\w] of a [str] pattern on characters below 256: the
    characters with [isalnum()], and the underscore. *)
Definition is_word (a : ascii) : bool :=
  is_ascii_letter a || is_ascii_digit a || Ascii.eqb a "_"
  || existsb (N.eqb (code a)) [0xAA; 0xB2; 0xB3; 0xB5; 0xB9; 0xBA; 0xBC; 0xBD; 0xBE]%N
  || between 0xC0 0xD6 a || between 0xD8 0xF6 a || between 0xF8 0xFF a.

(** The longest prefix of word characters, and what follows it. *)
Fixpoint span_word (s : string) : string * string :=
  match s with
  | String c r =>
      if is_word c then let '(w, rest) := span_word r in (String c w, rest)
      else (EmptyString, s)
  | EmptyString => (EmptyString, EmptyString)
  end.

(** [re.sub(r':(\w+)', r'(?P<\1>[^/]+)', s)]: scanning from the left,
    every colon followed by word characters is replaced, with the whole
    run of word characters as the group name; everything else is copied.
    The scan moves forward at every step, so [length s] steps suffice. *)
Fixpoint sub_params_fuel (fuel : nat) (s : string) : string :=
  match fuel, s with
  | S fuel', String c r =>
      if Ascii.eqb c ":" then
        match span_word r with
        | (EmptyString, _) => String c (sub_params_fuel fuel' r)
        | (name, rest) =>
            "(?P<" ++ name ++ ">[^/]+)" ++ sub_params_fuel fuel' rest
        end
      else String c (sub_params_fuel fuel' r)
  | _, _ => EmptyString
  end%string.

Definition sub_params (s : string) : string :=
  sub_params_fuel (String.length s) s.

(** A compiled pattern of the fragment: between [^] and [$], literal
    characters, the dot, named groups [(?P<name>[^/]+)], and such groups
    made optional by a question mark, [(?P<name>[^/]+)?]. A template is
    not escaped, so a dot or a question mark in it is the operator of the
    pattern. *)
Inductive node :=
| Lit (c : ascii)
| Any
| Group (name : string)
| Opt (name : string).

(** The other characters that are operators of a pattern. *)
Definition is_meta (c : ascii) : bool :=
  existsb (Ascii.eqb c)
    ["^"; "$"; "*"; "+"; "?"; "{"; "}"; "["; "]"; "\"; "|"; "("; ")"]%char.

(** A group name of the fragment: an ASCII identifier. *)
Definition is_identifier (s : string) : bool :=
  match s with
  | String c r =>
      (is_ascii_letter c || Ascii.eqb c "_")
      && forallb (fun x => is_ascii_letter x || is_ascii_digit x || Ascii.eqb x "_")
                 (list_ascii_of_string r)
  | EmptyString => false
  end.

Fixpoint span_until (stop : ascii) (s : string) : string * string :=
  match s with
  | String c r =>
      if Ascii.eqb c stop then (EmptyString, s)
      else let '(w, rest) := span_until stop r in (String c w, rest)
  | EmptyString => (EmptyString, EmptyString)
  end.

Fixpoint drop_chars (n : nat) (s : string) : string :=
  match n, s with
  | S k, String _ r => drop_chars k r
  | _, _ => s
  end.

(** The body of a pattern up to its final [$]; [None] when the pattern
    leaves the fragment (another operator, a question mark elsewhere
    than after a group, a group of another form, a repeated or non-ASCII
    group name, no final [$]). *)
Fixpoint parse_nodes (fuel : nat) (seen : list string) (s : string)
    : option (list node) :=
  match fuel, s with
  | S fuel', String c r =>
      if String.eqb s "$" then Some []
      else if String.prefix "(?P<" s then
        let '(name, rest) := span_until ">" (drop_chars 4 s) in
        if is_identifier name && negb (existsb (String.eqb name) seen)
           && String.prefix ">[^/]+)" rest
        then
          let after := drop_chars 7 rest in
          if String.prefix "?" after
          then option_map (cons (Opt name))
                 (parse_nodes fuel' (name :: seen) (drop_chars 1 after))
          else option_map (cons (Group name))
                 (parse_nodes fuel' (name :: seen) after)
        else None
      else if is_meta c then None
      else option_map (cons (if Ascii.eqb c "." then Any else Lit c))
                      (parse_nodes fuel' seen r)
  | _, _ => None
  end.

Definition compile (pattern : string) : option (list node) :=
  match pattern with
  | String "^" body => parse_nodes (String.length body) [] body
  | _ => None
  end.

(** [match.groupdict()]: the group names in the order of the pattern,
    each with the text it captured, or with [None] when the group took no
    part in the match. *)
Abbreviation groupdict := (list (string * option string)).

(** [$] without flags matches at the end of the text and just before a
    newline that ends the text. *)
Definition at_end (s : string) : bool :=
  String.eqb s EmptyString || String.eqb s (String "010" EmptyString).

(** The greedy repetition [[^/]+] followed by the rest of the pattern
    [k]: the longest run first, then shorter ones, never the empty run.
    [taken] is what the group has consumed so far. *)
Fixpoint greedy (k : string -> string -> option groupdict)
    (taken : string) (s : string) : option groupdict :=
  match s with
  | String c r =>
      if Ascii.eqb c "/" then None
      else
        let taken' := (taken ++ String c EmptyString)%string in
        match greedy k taken' r with
        | Some g => Some g
        | None => k taken' r
        end
  | EmptyString => None
  end.

Fixpoint match_nodes (p : list node) (s : string) : option groupdict :=
  match p with
  | [] => if at_end s then Some [] else None
  | Lit c :: p' =>
      match s with
      | String c' r => if Ascii.eqb c c' then match_nodes p' r else None
      | EmptyString => None
      end
  | Any :: p' =>
      match s with
      | String c' r => if Ascii.eqb c' "010" then None else match_nodes p' r
      | EmptyString => None
      end
  | Group name :: p' =>
      greedy (fun v rest =>
                option_map (cons (name, Some v)) (match_nodes p' rest))
             EmptyString s
  | Opt name :: p' =>
      match greedy (fun v rest =>
                      option_map (cons (name, Some v)) (match_nodes p' rest))
                   EmptyString s with
      | Some g => Some g
      | None => option_map (cons (name, None)) (match_nodes p' s)
      end
  end.

(** A text without [/]. *)
Definition no_slash (s : string) : Prop :=
  ¬ In "/"%char (list_ascii_of_string s).

(** [name] is a run of word characters. *)
Definition all_word (name : string) : Prop :=
  Forall (fun c => is_word c = true) (list_ascii_of_string name).

(** [s] does not go on with a word character. *)
Definition ends_word (s : string) : Prop :=
  match s with
  | String c _ => is_word c = false
  | EmptyString => True
  end.

(** What the model says of [re.match(pattern, text)]. *)
Inductive matching :=
| Match (groups : groupdict)
| NoMatch
| Unmodelled.

(** [re.match(pattern, text)], with [match.groupdict()] on success. *)
Definition re_match (pattern text : string) : matching :=
  match compile pattern with
  | None => Unmodelled
  | Some p =>
      match match_nodes p text with
      | Some g => Match g
      | None => NoMatch
      end
  end.

End Re.

(** ** Operations on [bytes] and [str] objects used by the body decoder *)

Module Seq.

Fixpoint starts_with (p l : list Z) : bool :=
  match p, l with
  | [], _ => true
  | x :: p', y :: l' => (x =? y) && starts_with p' l'
  | _ :: _, [] => false
  end.

(** [part.find(sub)]: the first index at which [sub] occurs, or -1. *)
Fixpoint find (sub l : list Z) : Z :=
  if starts_with sub l then 0
  else
    match l with
    | [] => -1
    | _ :: r => let i := find sub r in if i <? 0 then -1 else 1 + i
    end.

(** [body.split(sep)] for a non-empty separator: the pieces between the
    occurrences of [sep], taken from the left without overlap. [piece]
    is the piece being collected. *)
Fixpoint split_fuel (fuel : nat) (sep piece l : list Z) : list (list Z) :=
  match fuel, l with
  | S fuel', x :: r =>
      if starts_with sep l
      then piece :: split_fuel fuel' sep [] (drop (length sep) l)
      else split_fuel fuel' sep (piece ++ [x]) r
  | _, _ => [piece]
  end.

Definition split (sep l : list Z) : list (list Z) :=
  split_fuel (length l) sep [] l.

(** ASCII whitespace, as [bytes.strip()] removes it. *)
Definition is_space (b : Z) : bool :=
  existsb (Z.eqb b) [32; 9; 10; 13; 11; 12].

Fixpoint lstrip (l : list Z) : list Z :=
  match l with
  | x :: r => if is_space x then lstrip r else l
  | [] => []
  end.

Definition strip (l : list Z) : list Z := rev (lstrip (rev (lstrip l))).

(** The slice [l[start:-2]]. *)
Definition slice_to_minus2 {A} (start : nat) (l : list A) : list A :=
  take (length l - 2 - start) (drop start l).

(** The slice [l[1:-1]]. *)
Definition slice_inner {A} (l : list A) : list A :=
  take (length l - 2) (drop 1 l).

Fixpoint take_until (stop : Z -> bool) (l : list Z) : list Z * list Z :=
  match l with
  | x :: r =>
      if stop x then ([], l)
      else let '(run, rest) := take_until stop r in (x :: run, rest)
  | [] => ([], [])
  end.

(** [re.search] for a pattern [prefix([^...]+)closing]: at the leftmost
    position where [prefix] occurs followed by a non-empty run of
    characters outside [stop] and then by [closing], the run (group 1).
    The run is the longest one: [closing] is empty or a character the
    class excludes, so a shorter run cannot match. *)
Fixpoint search_group (prefix : list Z) (stop : Z -> bool) (closing : list Z)
    (text : list Z) : option (list Z) :=
  let here :=
    if starts_with prefix text then
      let '(run, rest) := take_until stop (drop (length prefix) text) in
      match run with
      | [] => None
      | _ :: _ => if starts_with closing rest then Some run else None
      end
    else None in
  match here, text with
  | Some run, _ => Some run
  | None, _ :: r => search_group prefix stop closing r
  | None, [] => None
  end.

(** [needle in text] on [str]. *)
Fixpoint contains (needle text : string) : bool :=
  String.prefix needle text
  || match text with
     | String _ r => contains needle r
     | EmptyString => false
     end.

(** [d[key] = v] on a dict kept in insertion order. *)
Fixpoint dict_set {V} (key : list Z) (v : V) (d : list (list Z * V))
    : list (list Z * V) :=
  match d with
  | [] => [(key, v)]
  | (k, w) :: r =>
      if bool_decide (k = key) then (k, v) :: r else (k, w) :: dict_set key v r
  end.

Fixpoint dict_get {V} (key : list Z) (d : list (list Z * V)) : option V :=
  match d with
  | [] => None
  | (k, w) :: r => if bool_decide (k = key) then Some w else dict_get key r
  end.

End Seq.

(** ** Library functions the server calls *)

Class PyLib := {
  (** [json.loads(text)] *)
  json_loads : ustr -> result value;
  (** [urllib.parse.parse_qs(text)]: the keys in order, each with its
      non-empty list of values *)
  parse_qs : ustr -> list (ustr * list ustr);
  (** [urlparse(target)]: the [path] and [query] components *)
  urlparse : string -> string * string;
  (** [SimpleCookie().load(header)] and the [(key, morsel.value)] items *)
  cookie_items : string -> result (list (string * string));
  (** [int(text)] *)
  int_of_str : string -> result Z
}.

(** ** The HTTP server: [class RiftHTTPServer] *)

Module RiftHTTPServer.

Section server.
Context {Callable : Type} {lib : PyLib}.

Record route_entry := Route {
  pattern : string;
  methods : list string;
  handler : Callable;
  original_path : string
}.

(** The fields of the server that request handling reads. *)
Record t := Server {
  _routes : list route_entry;
  _middleware : list Callable;
  _static_routes : list (string * string)
}.

Definition init : t := Server [] [] [].

(** [_path_to_regex(path)] *)
Definition _path_to_regex (path : string) : string :=
  ("^" ++ Re.sub_params path ++ "$")%string.

(** [m.upper()] on a method name, as far as it can decide a comparison
    with a request method: the ASCII letters. [str.upper] changes
    letters above 127 too (e-acute to its capital, sharp s to SS); a name
    with such a character is equal to none of the six request methods,
    before or after, the model leaving it unchanged. *)
Definition upper_char (a : ascii) : ascii :=
  if Re.between 97 122 a then ascii_of_N (Re.code a - 32) else a.

Fixpoint upper (s : string) : string :=
  match s with
  | String c r => String (upper_char c) (upper r)
  | EmptyString => EmptyString
  end.

(** [route(path, methods, handler)] *)
Definition route (path : string) (ms : list string) (h : Callable) (srv : t)
    : t :=
  Server (_routes srv ++ [Route (_path_to_regex path) (map upper ms) h path])
         (_middleware srv) (_static_routes srv).

Definition get (path : string) (h : Callable) := route path ["GET"] h.
Definition post (path : string) (h : Callable) := route path ["POST"] h.
Definition put (path : string) (h : Callable) := route path ["PUT"] h.
Definition delete (path : string) (h : Callable) := route path ["DELETE"] h.
Definition patch (path : string) (h : Callable) := route path ["PATCH"] h.
Definition options (path : string) (h : Callable) := route path ["OPTIONS"] h.

(** [middleware(handler)] *)
Definition middleware (h : Callable) (srv : t) : t :=
  Server (_routes srv) (_middleware srv ++ [h]) (_static_routes srv).

(** [static(url_path, directory)]: an assignment in a dict. *)
Fixpoint assign (k v : string) (d : list (string * string))
    : list (string * string) :=
  match d with
  | [] => [(k, v)]
  | (k', v') :: r =>
      if String.eqb k' k then (k', v) :: r else (k', v') :: assign k v r
  end.

Definition static (url_path directory : string) (srv : t) : t :=
  Server (_routes srv) (_middleware srv)
         (assign url_path directory (_static_routes srv)).

(** What [_match_route] returns: the handler and the named segments, or
    [None]; [Outside] when a pattern it had to try is not of the modelled
    fragment. *)
Inductive found :=
| Found (h : Callable) (params : Re.groupdict)
| NotFound
| Outside.

(** [_match_route(method, path)] *)
Fixpoint match_routes (routes : list route_entry) (method path : string)
    : found :=
  match routes with
  | [] => NotFound
  | r :: rest =>
      if bool_decide (method ∈ methods r) then
        match Re.re_match (pattern r) path with
        | Re.Match groups => Found (handler r) groups
        | Re.NoMatch => match_routes rest method path
        | Re.Unmodelled => Outside
        end
      else match_routes rest method path
  end.

Definition _match_route (srv : t) (method path : string) : found :=
  match_routes (_routes srv) method path.

(** A route that the scan passes over: the method is not in its set, or
    its pattern does not match the path. *)
Definition skipped (method path : string) (r : route_entry) : Prop :=
  method ∉ methods r \/ Re.re_match (pattern r) path = Re.NoMatch.

(** The dict of one uploaded file. *)
Definition file_entry (name filename : ustr) (content : bytes)
    (file_type : ustr) : value :=
  VDict [(latin1 "fieldname", VStr name);
         (latin1 "filename", VStr filename);
         (latin1 "content", VBytes content);
         (latin1 "content_type", VStr file_type);
         (latin1 "size", VInt (Z.of_nat (length content)))].

Definition quote : Z := 34.

(** The loop of [_parse_multipart] over the parts, with the dict
    [result] and the list [files] it fills. *)
Fixpoint multipart_parts (parts : list bytes)
    (result : list (ustr * value)) (files : list value)
    : Py.result (list (ustr * value) * list value) :=
  match parts with
  | [] => Ok (result, files)
  | part :: rest =>
      if bool_decide (Seq.strip part = []) then
        multipart_parts rest result files
      else
        let header_end := Seq.find [13; 10; 13; 10] part in
        if header_end =? -1 then multipart_parts rest result files
        else
          headers ← Utf8.decode (take (Z.to_nat header_end) part);
          let content := Seq.slice_to_minus2 (Z.to_nat header_end + 4) part in
          match Seq.search_group (latin1 "name=" ++ [quote]) (Z.eqb quote)
                                 [quote] headers with
          | None => multipart_parts rest result files
          | Some name =>
              match Seq.search_group (latin1 "filename=" ++ [quote])
                                     (Z.eqb quote) [quote] headers with
              | Some filename =>
                  let file_type :=
                    default (latin1 "application/octet-stream")
                      (Seq.search_group (latin1 "Content-Type: ")
                         (fun c => (c =? 13) || (c =? 10)) [] headers) in
                  multipart_parts rest result
                    (files ++ [file_entry name filename content file_type])
              | None =>
                  multipart_parts rest
                    (Seq.dict_set name (VStr (Utf8.decode_replace content))
                                  result)
                    files
              end
          end
  end.

(** [_parse_multipart(content_type, body)] *)
Definition _parse_multipart (content_type : string) (body : bytes)
    : Py.result value :=
  match Seq.search_group (latin1 "boundary=") (Z.eqb 59) []
                         (latin1 content_type) with
  | None => Ok (VDict [])
  | Some token =>
      boundary ← Utf8.encode (latin1 "--" ++ token);
      let parts := Seq.slice_inner (Seq.split boundary body) in
      '(result, files) ← multipart_parts parts [] [];
      match files with
      | [] => Ok (VDict result)
      | _ :: _ => Ok (VDict (Seq.dict_set (latin1 "_files") (VList files) result))
      end
  end.

(** The comprehension [{k: v[0] if len(v) == 1 else v for k, v in
    parse_qs(text).items()}]. *)
Definition single_or_list (items : list (ustr * list ustr)) : value :=
  VDict (map (fun kv => (kv.1, match kv.2 with
                               | [v] => VStr v
                               | vs => VList (map VStr vs)
                               end)) items).

(** [_parse_body(content_type, body)] *)
Definition _parse_body (content_type : string) (body : bytes)
    : Py.result value :=
  match body with
  | [] => Ok (VDict [])
  | _ :: _ =>
      if Seq.contains "application/json" content_type then
        text ← Utf8.decode body;
        match json_loads text with
        | Raise JSONDecodeError => Ok (VDict [])
        | r => r
        end
      else if Seq.contains "application/x-www-form-urlencoded" content_type
      then
        text ← Utf8.decode body;
        Ok (single_or_list (parse_qs text))
      else if Seq.contains "multipart/form-data" content_type then
        _parse_multipart content_type body
      else Ok (VStr (Utf8.decode_replace body))
  end.

(** [_parse_cookies(cookie_header)] *)
Definition _parse_cookies (cookie_header : string)
    : Py.result (list (ustr * value)) :=
  match cookie_header with
  | EmptyString => Ok []
  | _ =>
      items ← cookie_items cookie_header;
      Ok (fold_left (fun d kv => Seq.dict_set (latin1 kv.1) (VStr (latin1 kv.2)) d)
                    items [])
  end.

End server.

Arguments route_entry : clear implicits.
Arguments t : clear implicits.
Arguments found : clear implicits.

End RiftHTTPServer.

(** ** [json.dumps] on the values of the model *)

Module Json.

Definition hex_digit (d : Z) : Z := if d <? 10 then 48 + d else 87 + d.

(** The escape [\uXXXX], four lower-case hexadecimal digits. *)
Definition u_escape (c : Z) : ustr :=
  [92; 117; hex_digit (c / 4096); hex_digit ((c / 256) mod 16);
   hex_digit ((c / 16) mod 16); hex_digit (c mod 16)].

(** One character of a string, with [ensure_ascii] set. *)
Definition escape_char (c : Z) : ustr :=
  if c =? 34 then [92; 34]
  else if c =? 92 then [92; 92]
  else if c =? 10 then [92; 110]
  else if c =? 13 then [92; 114]
  else if c =? 9 then [92; 116]
  else if c =? 8 then [92; 98]
  else if c =? 12 then [92; 102]
  else if (32 <=? c) && (c <=? 126) then [c]
  else if c <? 0x10000 then u_escape c
  else u_escape (0xD800 + (c - 0x10000) / 1024)
       ++ u_escape (0xDC00 + (c - 0x10000) mod 1024).

Definition dumps_str (s : ustr) : ustr :=
  [34] ++ concat (map escape_char s) ++ [34].

Fixpoint join (sep : ustr) (l : list ustr) : ustr :=
  match l with
  | [] => []
  | [x] => x
  | x :: r => x ++ sep ++ join sep r
  end.

(** [json.dumps(v)]; bytes and foreign objects are not serializable. *)
Fixpoint dumps (v : value) : result ustr :=
  match v with
  | VNone => Ok (latin1 "null")
  | VBool b => Ok (latin1 (if b then "true" else "false"))
  | VInt z => Ok (latin1 (pretty z))
  | VStr s => Ok (dumps_str s)
  | VBytes _ | VObj _ => Raise TypeError
  | VList l =>
      items ← (fix each (l : list value) : result (list ustr) :=
                 match l with
                 | [] => Ok []
                 | x :: r => a ← dumps x; b ← each r; Ok (a :: b)
                 end) l;
      Ok ([91] ++ join [44; 32] items ++ [93])
  | VDict d =>
      items ← (fix each (d : list (ustr * value)) : result (list ustr) :=
                 match d with
                 | [] => Ok []
                 | (k, x) :: r =>
                     a ← dumps x; b ← each r;
                     Ok ((dumps_str k ++ [58; 32] ++ a) :: b)
                 end) d;
      Ok ([123] ++ join [44; 32] items ++ [125])
  end.

(** The JSON text of the dict [{'error': message}]. *)
Definition error_json (message : ustr) : ustr :=
  [123] ++ (dumps_str (latin1 "error") ++ [58; 32] ++ dumps_str message)
        ++ [125].

End Json.

(** ** The request handler: [class RiftHandler] inside [serve] *)

(** What the handler does to the connection, as calls to the methods of
    [BaseHTTPRequestHandler]. *)
Inductive wire :=
| send_response (code : Z)
| send_header (keyword value : string)
| end_headers
| wfile_write (b : bytes).

(** What [interp._call(f, [request], None)] comes back with: a value, or
    an exception of class [Exception] with the given [str(e)]. *)
Inductive call_outcome :=
| Returned (v : value)
| Raised (message : ustr).

(** The collaborators of request handling that lie outside the module.
    - [_call f request st]: the host runs the callback [f] on the request
      dict in its state [st]; it yields the outcome, the request dict as
      the callback leaves it (the dict is shared with the later
      callbacks), and the new host state.
    - [_send_response v]: the calls [RiftHandler._send_response(v)] makes
      on the connection, and [Some (str e)] when it raises part-way.
    - [_serve_static directory file_path]: the calls
      [RiftHandler._serve_static] makes on the connection. *)
Class Runtime (Callable State : Type) := {
  _call : Callable -> value -> State -> call_outcome * value * State;
  _send_response : value -> list wire * option ustr;
  _serve_static : string -> string -> list wire
}.

Module RiftHandler.

Import RiftHTTPServer.

(** The request as the handler object holds it: the request target
    [self.path], the header lines, and the body bytes waiting in
    [self.rfile]. *)
Record incoming := Incoming {
  target : string;
  header_lines : list (string * string);
  rfile : bytes
}.

Section handler.
Context {Callable State : Type} {lib : PyLib} {rt : Runtime Callable State}.

Inductive event :=
| Call (f : Callable) (request : value)
| Wire (w : wire).

(** How a piece of request handling ends: normally, with an exception
    that nothing catches, or outside what the model covers. *)
Inductive ending (A : Type) :=
| Value (a : A)
| Raises (e : exn)
| Unmodelled.
Arguments Value {A} a.
Arguments Raises {A} e.
Arguments Unmodelled {A}.

(** Handling code: it runs in a host state, leaves one, and leaves the
    trace of the callbacks invoked and the calls made on the connection. *)
Definition M (A : Type) : Type := State -> ending A * State * list event.

Definition ret {A} (a : A) : M A := fun st => (Value a, st, []).

Definition bind {A B} (m : M A) (k : A -> M B) : M B :=
  fun st =>
    match m st with
    | (Value a, st1, tr1) =>
        let '(r, st2, tr2) := k a st1 in (r, st2, tr1 ++ tr2)
    | (Raises e, st1, tr1) => (Raises e, st1, tr1)
    | (Unmodelled, st1, tr1) => (Unmodelled, st1, tr1)
    end.

#[local] Instance M_ret : MRet M := @ret.
#[local] Instance M_bind : MBind M := fun A B k m => bind m k.

Definition emit (w : wire) : M unit := fun st => (Value tt, st, [Wire w]).

Definition emit_all (ws : list wire) : M unit :=
  fun st => (Value tt, st, map Wire ws).

Definition lift {A} (r : result A) : M A :=
  fun st => match r with
            | Ok a => (Value a, st, [])
            | Raise e => (Raises e, st, [])
            end.

Definition call (f : Callable) (request : value) : M (call_outcome * value) :=
  fun st => let '(o, request', st') := _call f request st in
            (Value (o, request'), st', [Call f request]).

(** The dict [{'error': message}]. *)
Definition error_body (message : ustr) : value :=
  VDict [(latin1 "error", VStr message)].

(** [_send_error(status, body)]; the JSON text is ASCII, so its encoding
    is the list of its code points. *)
Definition _send_error (status : Z) (body : value) : M unit :=
  emit (send_response status);;
  emit (send_header "Content-Type" "application/json");;
  emit end_headers;;
  text ← lift (Json.dumps body);
  emit (wfile_write text).

(** The error response: the status, the JSON content type, and the body
    [{'error': message}]. *)
Definition error_response (status : Z) (message : ustr) : list wire :=
  [send_response status;
   send_header "Content-Type" "application/json";
   end_headers;
   wfile_write (Json.error_json message)].

(** What [respond v] puts on the connection. *)
Definition response_of (v : value) : list wire :=
  (_send_response v).1
  ++ match (_send_response v).2 with
     | None => []
     | Some message => error_response 500 message
     end.

(** [self._send_response(v)] inside [try: ... except Exception as e:
    self._send_error(500, {'error': str(e)})]. *)
Definition respond (v : value) : M unit :=
  let '(ws, failure) := _send_response v in
  emit_all ws;;
  match failure with
  | None => ret tt
  | Some message => _send_error 500 (error_body message)
  end.

(** [mw_result is not None], [isinstance(mw_result, dict)] and
    ['status' in mw_result]. *)
Definition is_response (v : value) : bool :=
  match v with
  | VDict d => bool_decide (is_Some (Seq.dict_get (latin1 "status") d))
  | _ => false
  end.

(** The loop over [server_instance._middleware]. [None]: a response has
    been sent and [_handle_request] returns; [Some request]: the handler
    is to be called. *)
Fixpoint run_middleware (mws : list Callable) (request : value)
    : M (option value) :=
  match mws with
  | [] => ret (Some request)
  | mw :: rest =>
      r ← call mw request;
      match r.1 with
      | Raised message => _send_error 500 (error_body message);; ret None
      | Returned v =>
          if is_response v then respond v;; ret None
          else run_middleware rest r.2
      end
  end.

(** The call of the matched handler. *)
Definition run_handler (h : Callable) (request : value) : M unit :=
  r ← call h request;
  match r.1 with
  | Returned response => respond response
  | Raised message => _send_error 500 (error_body message)
  end.

(** Lines 517-534: the middleware, then the handler. *)
Definition run_chain (mws : list Callable) (h : Callable) (request : value)
    : M unit :=
  r ← run_middleware mws request;
  match r with
  | None => ret tt
  | Some request' => run_handler h request'
  end.

Definition lower_char (a : ascii) : ascii :=
  if Re.between 65 90 a then ascii_of_N (Re.code a + 32) else a.

Fixpoint lower (s : string) : string :=
  match s with
  | String c r => String (lower_char c) (lower r)
  | EmptyString => EmptyString
  end.

(** [self.headers.get(name)]: the first header of that name, whatever
    the case of its letters. *)
Fixpoint header_get (name : string) (hs : list (string * string))
    : option string :=
  match hs with
  | [] => None
  | (k, v) :: r =>
      if String.eqb (lower k) (lower name) then Some v else header_get name r
  end.

(** [dict(self.headers)] *)
Definition headers_dict (hs : list (string * string)) : value :=
  VDict (fold_left
           (fun d kv =>
              Seq.dict_set (latin1 kv.1)
                (VStr (latin1 (default EmptyString (header_get kv.1 hs)))) d)
           hs []).

Fixpoint lstrip_slash (s : string) : string :=
  match s with
  | String c r => if Ascii.eqb c "/" then lstrip_slash r else s
  | EmptyString => EmptyString
  end.

(** The first static mount whose URL prefix starts the path. *)
Fixpoint static_mount (mounts : list (string * string)) (path : string)
    : option (string * string) :=
  match mounts with
  | [] => None
  | (url_path, directory) :: r =>
      if String.prefix url_path path then Some (url_path, directory)
      else static_mount r path
  end.

Definition groupdict_value (g : Re.groupdict) : value :=
  VDict (map (fun kv => (latin1 kv.1,
                         match kv.2 with
                         | Some v => VStr (latin1 v)
                         | None => VNone
                         end)) g).

(** The request dict. *)
Definition request_dict (method path : string) (params : Re.groupdict)
    (query headers body cookies : value) : value :=
  VDict [(latin1 "method", VStr (latin1 method));
         (latin1 "path", VStr (latin1 path));
         (latin1 "params", groupdict_value params);
         (latin1 "query", query);
         (latin1 "headers", headers);
         (latin1 "body", body);
         (latin1 "cookies", cookies);
         (latin1 "session", VDict [])].

(** The part of [_handle_request] between the route match and the
    middleware: reading and decoding the body, and building the request
    dict. The body is read as [read] above reads: a [Content-Length] the
    process cannot allocate (2^63 or more in any case) raises at the
    read, which is left out. *)
Definition build_request (method path : string) (params : Re.groupdict)
    (query : value) (inc : incoming) : result value :=
  content_length ←
    match header_get "Content-Length" (header_lines inc) with
    | Some text => int_of_str text
    | None => Ok 0
    end;
  let body :=
    if content_length >? 0 then take (Z.to_nat content_length) (rfile inc)
    else [] in
  let content_type :=
    default EmptyString (header_get "Content-Type" (header_lines inc)) in
  parsed ← _parse_body content_type body;
  cookies ← _parse_cookies
              (default EmptyString (header_get "Cookie" (header_lines inc)));
  Ok (request_dict method path params query
        (headers_dict (header_lines inc)) parsed (VDict cookies)).

(** [_handle_request(method)] *)
Definition _handle_request (srv : RiftHTTPServer.t Callable)
    (method : string) (inc : incoming) : M unit :=
  let '(path, query_string) := urlparse (target inc) in
  let query := single_or_list (parse_qs (latin1 query_string)) in
  match static_mount (_static_routes srv) path with
  | Some (url_path, directory) =>
      emit_all (_serve_static directory
                  (lstrip_slash (Re.drop_chars (String.length url_path) path)))
  | None =>
      match _match_route srv method path with
      | Outside => fun st => (Unmodelled, st, [])
      | NotFound => _send_error 404 (error_body (latin1 "Not found"))
      | Found h params =>
          request ← lift (build_request method path params query inc);
          run_chain (_middleware srv) h request
      end
  end.

(** The callbacks invoked, and the calls made on the connection, in the
    order of the trace. *)
Definition called (tr : list event) : list Callable :=
  omap (fun e => match e with Call f _ => Some f | Wire _ => None end) tr.

Definition written (tr : list event) : list wire :=
  omap (fun e => match e with Wire w => Some w | Call _ _ => None end) tr.

(** The state in which the middleware [mws] leave the request and the
    host when each of them returns without a response-shaped value. *)
Fixpoint pass_through (mws : list Callable) (request : value) (st : State)
    : option (value * State) :=
  match mws with
  | [] => Some (request, st)
  | mw :: rest =>
      match _call mw request st with
      | (Returned v, request', st') =>
          if is_response v then None else pass_through rest request' st'
      | (Raised _, _, _) => None
      end
  end.

End handler.

Arguments Value {A} a.
Arguments Raises {A} e.
Arguments Unmodelled {A}.

End RiftHandler.

(** ** Data of the examples *)

(** ** The WebSocket server of src/stdlib/websocket.py:
       [class WebSocketServer] *)

Module WebSocketServer.

(** A client socket: the bytes still to arrive, in the runs in which
    [recv] hands them over (a run is what is available when a call
    returns; no run is left once the peer has closed); the bytes sent so
    far; and whether [sendall] fails. *)
Record socket := Socket {
  arriving : list bytes;
  sent : bytes;
  broken : bool
}.

Definition push (run : bytes) (runs : list bytes) : list bytes :=
  match run with
  | [] => runs
  | _ :: _ => run :: runs
  end.

(** [sock.recv(n)]: at most [n] bytes of what is available; the empty
    bytes for [n = 0] and when the peer has closed. The buffer of [n]
    bytes is allocated first: a size the process cannot allocate raises
    ([OverflowError] from 2^63 on, [MemoryError] below it), which [recv]
    leaves out. Nothing depends on it where the bytes asked for are
    there; a property about a call that asks for more than has arrived
    bounds the size asked for. *)
Definition recv (n : nat) (s : socket) : bytes * socket :=
  match n, arriving s with
  | O, _ | _, [] => ([], s)
  | _, run :: runs =>
      (take n run, Socket (push (drop n run) runs) (sent s) (broken s))
  end.

(** What [_send_message] can raise: [UnicodeEncodeError], [struct.error]
    and the [OSError] of the socket. *)
Inductive error := EncodeError | StructError | SocketError.

Inductive outcome (A : Type) :=
| Done (a : A)
| Fails (e : error).
Arguments Done {A} a.
Arguments Fails {A} e.

(** [struct.pack('>H', z)] and [struct.pack('>Q', z)] for [z >= 0]: 2 and
    8 bytes. *)
Definition pack (n : nat) (z : Z) : option bytes :=
  if z <? 256 ^ Z.of_nat n
  then Some (WebSocketConnection.big_endian n z) else None.

(** [struct.unpack('>H', b)[0]] and [struct.unpack('>Q', b)[0]]: the
    buffer must have the size of the format. *)
Definition unpack (n : nat) (b : bytes) : option Z :=
  if (length b =? n)%nat then Some (WebSocketConnection.from_bytes b)
  else None.

(** [_send_message(sock, message)] *)
Definition _send_message (message : ustr) (s : socket) : outcome socket :=
  match Utf8.encode message with
  | Raise _ => Fails EncodeError
  | Ok data =>
      let len := Z.of_nat (length data) in
      let header :=
        if len <=? 125 then Some [0x81; len]
        else if len <=? 65535 then
          option_map (app [0x81; 126]) (pack 2 len)
        else option_map (app [0x81; 127]) (pack 8 len) in
      match header with
      | None => Fails StructError
      | Some header =>
          if broken s then Fails SocketError
          else Done (Socket (arriving s) (sent s ++ header ++ data) (broken s))
      end
  end.

(** The end of [_receive_message]: the text of a text frame, nothing for
    any other opcode or when the text is not UTF-8. *)
Definition message_of (opcode : Z) (payload : bytes) : option ustr :=
  if opcode =? 0x01 then
    match Utf8.decode payload with
    | Ok text => Some text
    | Raise _ => None
    end
  else None.

(** [_receive_message(sock)]: whatever is raised inside is caught and
    gives [None]. *)
Definition _receive_message (s : socket) : option ustr * socket :=
  let '(header, s1) := recv 2 s in
  match header with
  | [h0; h1] =>
      let opcode := Z.land h0 0x0F in
      let masked := Z.land h1 0x80 in
      let length7 := Z.land h1 0x7F in
      let '(len, s2) :=
        if length7 =? 126 then
          let '(ext, s') := recv 2 s1 in (unpack 2 ext, s')
        else if length7 =? 127 then
          let '(ext, s') := recv 8 s1 in (unpack 8 ext, s')
        else (Some length7, s1) in
      match len with
      | None => (None, s2)
      | Some len =>
          let '(mask, s3) := if masked =? 0 then ([], s2) else recv 4 s2 in
          let '(data, s4) := recv (Z.to_nat len) s3 in
          let unmasked :=
            match mask with
            | [] => Ok data
            | _ :: _ =>
                WebSocketConnection.unmask (seq 0 (length data)) data mask
            end in
          match unmasked with
          | Raise _ => (None, s4)
          | Ok payload => (message_of opcode payload, s4)
          end
      end
  | _ => (None, s1)
  end.

(** [broadcast(message)]: the table [_clients] afterwards. A client
    whose send raised is deleted from the table. *)
Definition broadcast (message : ustr) (clients : gmap string socket)
    : gmap string socket :=
  omap (fun sock => match _send_message message sock with
                    | Done sock' => Some sock'
                    | Fails _ => None
                    end) clients.

(** [send(client_id, message)]; an unknown client is passed over. *)
Definition send (client_id : string) (message : ustr)
    (clients : gmap string socket) : outcome (gmap string socket) :=
  match clients !! client_id with
  | None => Done clients
  | Some sock =>
      match _send_message message sock with
      | Done sock' => Done (<[client_id := sock']> clients)
      | Fails e => Fails e
      end
  end.

End WebSocketServer.

(** ** Response helpers: [http_json], [http_text], ... *)

Module Helpers.

(** [headers or {}] *)
Definition or_empty (headers : value) : value :=
  if truthy headers then headers else VDict [].

Definition typed (content_type : string) (status body headers : value)
    : value :=
  VDict [(latin1 "status", status);
         (latin1 "contentType", VStr (latin1 content_type));
         (latin1 "body", body);
         (latin1 "headers", or_empty headers)].

Definition http_json := typed "application/json".
Definition http_text := typed "text/plain".
Definition http_html := typed "text/html".
Definition http_css := typed "text/css".
Definition http_js := typed "application/javascript".

(** [http_redirect(url, status=302)] *)
Definition http_redirect (url status : value) : value :=
  VDict [(latin1 "status", status);
         (latin1 "headers", VDict [(latin1 "Location", url)]);
         (latin1 "body", VStr [])].

(** The values the helpers build. *)
Inductive built : value -> Prop :=
| built_json s b h : built (http_json s b h)
| built_text s b h : built (http_text s b h)
| built_html s b h : built (http_html s b h)
| built_css s b h : built (http_css s b h)
| built_js s b h : built (http_js s b h)
| built_redirect u s : built (http_redirect u s).

End Helpers.

Module Demo.

Import RiftHTTPServer.

Definition session_data : value := VDict [(latin1 "user", VInt 7)].

(** A store with TTL 5 holding one session created at second 0. *)
Definition store : SessionStore.t :=
  (SessionStore.create "s1" 0 0 session_data (SessionStore.init 5)).2.

(** Payloads of 10, 200 and 70000 bytes, and a text with characters of
    one to four bytes. *)
Definition text10 : ustr := repeat 97 10.
Definition text200 : ustr := repeat 97 200.
Definition text70000 : ustr := repeat 97 (Z.to_nat 70000).
Definition text_mixed : ustr := [0x48; 0xE9; 0x20AC; 0x1F600].

(** A masking key, and an open connection with empty streams. *)
Definition key : bytes := [0x37; 0xFA; 0x21; 0x3D].
Definition conn : WebSocketConnection.t :=
  WebSocketConnection.Conn true [] [] false.

(** The JSON text of the 404 body: an opening brace, the quoted key
    [error], a colon and a space, the quoted text [Not found], a closing
    brace. *)
Definition not_found_json : bytes :=
  [123; 34; 101; 114; 114; 111; 114; 34; 58; 32;
   34; 78; 111; 116; 32; 102; 111; 117; 110; 100; 34; 125].

(** [int(text)] on a run of ASCII digits. *)
Fixpoint digits (acc : Z) (s : string) : result Z :=
  match s with
  | EmptyString => Ok acc
  | String c r =>
      if Re.is_ascii_digit c
      then digits (10 * acc + Z.of_N (Re.code c) - 48) r
      else Raise ValueError
  end.

(** The library on the requests of the examples: they have no query and
    no cookie, and no body that is well-formed JSON. *)
Definition lib : PyLib := {|
  json_loads := fun _ => Raise JSONDecodeError;
  parse_qs := fun _ => [];
  urlparse := fun target => (target, EmptyString);
  cookie_items := fun _ => Ok [];
  int_of_str := fun text =>
    match text with
    | EmptyString => Raise ValueError
    | _ => digits 0 text
    end
|}.

Definition status_dict (code : Z) : value :=
  VDict [(latin1 "status", VInt code)].

(** A host whose callbacks are known by their names; its state is the
    list of the callbacks it has run. The middleware [log] returns
    nothing, [auth] answers 401, [boom] raises; a handler answers 200. *)
Definition host_call (f : string) (request : value) (st : list string)
    : call_outcome * value * list string :=
  (if String.eqb f "log" then Returned VNone
   else if String.eqb f "auth" then Returned (status_dict 401)
   else if String.eqb f "boom" then Raised (latin1 "boom")
   else Returned (status_dict 200),
   request, st ++ [f]).

(** On the values the callbacks above return, [_send_response] sends the
    status of the dict and no body. *)
Definition runtime : Runtime string (list string) := {|
  _call := host_call;
  _send_response := fun v =>
    match v with
    | VDict [(_, VInt code)] => ([send_response code; end_headers], None)
    | _ => ([send_response 204; end_headers], None)
    end;
  _serve_static := fun _ _ => []
|}.

(** A request without headers or body. *)
Definition plain_get (target : string) : RiftHandler.incoming :=
  RiftHandler.Incoming target [] [].

(** The templates [/a/:id] and [/a/static], registered in the two
    orders. *)
Definition param_first : RiftHTTPServer.t string :=
  get "/a/static" "show_static" (get "/a/:id" "show_item" init).

Definition static_first : RiftHTTPServer.t string :=
  get "/a/:id" "show_item" (get "/a/static" "show_static" init).

(** A server with the middleware [log], [auth], [boom] in this order,
    one with [log], [boom], and one with [log] alone. *)
Definition guarded : RiftHTTPServer.t string :=
  middleware "boom" (middleware "auth" (middleware "log"
    (get "/a/:id" "show_item" init))).

Definition failing : RiftHTTPServer.t string :=
  middleware "boom" (middleware "log" (get "/a/:id" "show_item" init)).

Definition logged : RiftHTTPServer.t string :=
  middleware "log" (get "/a/:id" "show_item" init).

(** The server [guarded] with the directory [./public] mounted at [/a]. *)
Definition mounted : RiftHTTPServer.t string :=
  static "/a" "./public" guarded.

(** The request dict of [GET /a/17] without headers or body. *)
Definition request_17 : value :=
  RiftHandler.request_dict "GET" "/a/17" [("id", Some "17")]
    (VDict []) (VDict []) (VDict []) (VDict []).

Definition crlf : bytes := [13; 10].

(** A multipart body whose only part has an ill-formed byte in its
    header block: the boundary line, the byte 0xFF, the blank line, the
    content [v], the closing boundary line. *)
Definition bad_multipart : bytes :=
  [45; 45; 88] ++ crlf ++ [0xFF] ++ crlf ++ crlf ++ [118] ++ crlf
  ++ [45; 45; 88; 45; 45] ++ crlf.

(** A multipart body with the plain field [a] of content [1] and the
    file field [f] named [x.txt] of content [hi]. *)
Definition two_parts : bytes :=
  Utf8.encode_latin1 "--X" ++ crlf
  ++ Utf8.encode_latin1 "Content-Disposition: form-data; name=" ++ [34]
  ++ Utf8.encode_latin1 "a" ++ [34] ++ crlf ++ crlf
  ++ Utf8.encode_latin1 "1" ++ crlf
  ++ Utf8.encode_latin1 "--X" ++ crlf
  ++ Utf8.encode_latin1 "Content-Disposition: form-data; name=" ++ [34]
  ++ Utf8.encode_latin1 "f" ++ [34] ++ Utf8.encode_latin1 "; filename=" ++ [34]
  ++ Utf8.encode_latin1 "x.txt" ++ [34] ++ crlf
  ++ Utf8.encode_latin1 "Content-Type: text/plain" ++ crlf ++ crlf
  ++ Utf8.encode_latin1 "hi" ++ crlf
  ++ Utf8.encode_latin1 "--X--" ++ crlf.

End Demo.
(** * Properties *)

(** ** SessionStore *)

Section session_store.
Import SessionStore.

Lemma get_unknown t_check t_touch sid st :
  _sessions st !! sid = None -> get t_check t_touch sid st = (VNone, st).
Proof. intros H. unfold get. now rewrite H. Qed.

Lemma get_expired t_check t_touch sid st s :
  _sessions st !! sid = Some s -> expired st s t_check ->
  get t_check t_touch sid st
  = (VNone, Store (delete sid (_sessions st)) (_ttl st)).
Proof.
  intros H E. unfold get, expired in *. rewrite H.
  destruct (Z.gtb_spec (t_check - last_accessed s) (_ttl st)); [done | lia].
Qed.

Lemma get_live t_check t_touch sid st s :
  _sessions st !! sid = Some s -> ¬ expired st s t_check ->
  get t_check t_touch sid st
  = (data s,
     Store (<[sid := Session (data s) (created_at s) t_touch]> (_sessions st))
           (_ttl st)).
Proof.
  intros H E. unfold get, expired in *. rewrite H.
  destruct (Z.gtb_spec (t_check - last_accessed s) (_ttl st)); [lia | done].
Qed.

End session_store.

Section session_store_claims.
Import SessionStore.

(** C6. [get] returns absent for an unknown id; for a known id whose idle
    time exceeds the TTL it returns absent and deletes exactly that
    entry; otherwise it returns the stored data and sets [last_accessed]
    to the current reading, so that expiry is from then on counted from
    that access. *)
Theorem session_get_lazy_expiry (t_check t_touch : Z) (sid : string) (st : t) :
  let r := get t_check t_touch sid st in
  (_sessions st !! sid = None -> r = (VNone, st)) /\
  (forall s, _sessions st !! sid = Some s ->
     t_check - last_accessed s > _ttl st ->
     r.1 = VNone /\ _sessions r.2 !! sid = None /\ _ttl r.2 = _ttl st /\
     (forall k, k ≠ sid -> _sessions r.2 !! k = _sessions st !! k)) /\
  (forall s, _sessions st !! sid = Some s ->
     t_check - last_accessed s <= _ttl st ->
     r.1 = data s /\
     _sessions r.2 !! sid = Some (Session (data s) (created_at s) t_touch) /\
     _ttl r.2 = _ttl st /\
     (forall k, k ≠ sid -> _sessions r.2 !! k = _sessions st !! k) /\
     (forall t2 t3, t2 - t_touch <= _ttl st ->
        (get t2 t3 sid r.2).1 = data s)).
Proof.
  cbv zeta. split; [apply get_unknown |]. split.
  - intros s Hs Hexp. rewrite (get_expired _ _ _ _ s) by (unfold expired; done).
    cbn. split; [done |]. split; [apply lookup_delete_eq |]. split; [done |].
    intros k Hk. by apply lookup_delete_ne.
  - intros s Hs Hlive.
    rewrite (get_live _ _ _ _ s) by (unfold expired; done || lia).
    cbn. split; [done |]. split; [apply lookup_insert_eq |]. split; [done |].
    split; [intros k Hk; by apply lookup_insert_ne |].
    intros t2 t3 Ht2.
    rewrite (get_live _ _ _ _ (Session (data s) (created_at s) t_touch));
      [done | cbn; apply lookup_insert_eq |].
    unfold expired; cbn. lia.
Qed.

Lemma session_get_lazy_expiry_witness :
  (get 4 4 "s1" Demo.store).1 = Demo.session_data /\
  (get 8 8 "s1" (get 4 4 "s1" Demo.store).2).1 = Demo.session_data /\
  (get 8 8 "s1" Demo.store).1 = VNone /\
  (get 8 8 "nobody" Demo.store) = (VNone, Demo.store).
Proof.
  pose proof (session_get_lazy_expiry 4 4 "s1" Demo.store) as (_ & _ & Hlive).
  pose proof (session_get_lazy_expiry 8 8 "s1" Demo.store) as (_ & Hexp & _).
  pose proof (session_get_lazy_expiry 8 8 "nobody" Demo.store) as (Hnone & _).
  specialize (Hlive (Session Demo.session_data 0 0) eq_refl).
  specialize (Hexp (Session Demo.session_data 0 0) eq_refl).
  destruct Hlive as (H1 & _ & _ & _ & H2); [cbn; lia |].
  destruct Hexp as (H3 & _); [cbn; lia |].
  split; [exact H1 |]. split; [apply H2; cbn; lia |]. split; [exact H3 |].
  apply Hnone. reflexivity.
Defined.

(** C9. For an id present in the store, [set] returns true, replaces the
    data and refreshes [last_accessed] whatever the entry's idle time,
    and [destroy] returns true; expiry is checked by [get] alone, so [set]
    on a logically expired entry makes [get] return the new data where it
    would have returned absent. *)
Theorem session_set_ignores_expiry (now : Z) (sid : string) (d : value)
    (st : t) (s : session) :
  _sessions st !! sid = Some s ->
  set now sid d st
  = (true, Store (<[sid := Session d (created_at s) now]> (_sessions st))
                 (_ttl st)) /\
  destroy sid st = (true, Store (delete sid (_sessions st)) (_ttl st)) /\
  (expired st s now ->
     (forall t_touch, (get now t_touch sid st).1 = VNone) /\
     (forall t t_touch, t - now <= _ttl st ->
        (get t t_touch sid (set now sid d st).2).1 = d)).
Proof.
  intros Hs. unfold set, destroy. rewrite Hs. split; [done |]. split; [done |].
  intros Hexp. split.
  - intros t_touch. by rewrite (get_expired _ _ _ _ s).
  - intros t t_touch Ht. cbn.
    rewrite (get_live _ _ _ _ (Session d (created_at s) now));
      [done | cbn; apply lookup_insert_eq |].
    unfold expired; cbn. lia.
Qed.

Lemma session_set_ignores_expiry_witness :
  (set 100 "s1" (VInt 1) Demo.store).1 = true /\
  (destroy "s1" Demo.store).1 = true /\
  (get 100 100 "s1" Demo.store).1 = VNone /\
  (get 103 103 "s1" (set 100 "s1" (VInt 1) Demo.store).2).1 = VInt 1.
Proof.
  destruct (session_set_ignores_expiry 100 "s1" (VInt 1) Demo.store
              (Session Demo.session_data 0 0) eq_refl) as (Hset & Hdel & Hres).
  destruct Hres as (Hgone & Hback); [unfold expired; cbn; lia |].
  split; [by rewrite Hset |]. split; [by rewrite Hdel |].
  split; [apply Hgone |]. apply Hback. cbn. lia.
Defined.

End session_store_claims.

(** ** RateLimiter *)

Section rate_limiter.
Import RateLimiter.

Lemma prune_elem rl now key t :
  t ∈ prune rl now key <-> t ∈ requests_of rl key /\ now - t < _window rl.
Proof. unfold prune. rewrite list_elem_of_filter. tauto. Qed.

Lemma is_allowed_admit now key rl :
  Z.of_nat (length (prune rl now key)) < _max_requests rl ->
  is_allowed now key rl
  = (true, Limiter (_max_requests rl) (_window rl)
                   (<[key := prune rl now key ++ [now]]> (_requests rl))).
Proof.
  intros H. unfold is_allowed.
  destruct (Z.ltb_spec (Z.of_nat (length (prune rl now key))) (_max_requests rl));
    [done | lia].
Qed.

Lemma is_allowed_reject now key rl :
  ¬ Z.of_nat (length (prune rl now key)) < _max_requests rl ->
  is_allowed now key rl
  = (false, Limiter (_max_requests rl) (_window rl)
                    (<[key := prune rl now key]> (_requests rl))).
Proof.
  intros H. unfold is_allowed.
  destruct (Z.ltb_spec (Z.of_nat (length (prune rl now key))) (_max_requests rl));
    [lia | done].
Qed.

Lemma requests_of_insert_eq mx w m key l :
  requests_of (Limiter mx w (<[key := l]> m)) key = l.
Proof. unfold requests_of; cbn. by rewrite lookup_insert_eq. Qed.

Lemma requests_of_insert_ne mx w m key k l :
  k ≠ key ->
  requests_of (Limiter mx w (<[key := l]> m)) k = requests_of (Limiter mx w m) k.
Proof. intros. unfold requests_of; cbn. by rewrite lookup_insert_ne. Qed.

Lemma prune_all_recent rl now key :
  Forall (fun t => now - t < _window rl) (requests_of rl key) ->
  prune rl now key = requests_of rl key.
Proof.
  unfold prune. induction 1 as [| t l Ht _ IH]; [done |].
  rewrite filter_cons_True by done. by rewrite IH.
Qed.

Lemma prune_all_old rl now key :
  Forall (fun t => ¬ now - t < _window rl) (requests_of rl key) ->
  prune rl now key = [].
Proof.
  unfold prune. induction 1 as [| t l Ht _ IH]; [done |].
  by rewrite filter_cons_False.
Qed.

(** The state after the four calls of the burst at instant [t]. *)
Lemma burst_state t key :
  let r := calls [t; t; t; t] key (init 3 60) in
  r.1 = [true; true; true; false] /\
  _max_requests r.2 = 3 /\ _window r.2 = 60 /\ requests_of r.2 key = [t; t; t].
Proof.
  assert (Hstep : forall rl l, _max_requests rl = 3 -> _window rl = 60 ->
            requests_of rl key = l -> Forall (eq t) l ->
            let r := is_allowed t key rl in
            _max_requests r.2 = 3 /\ _window r.2 = 60 /\
            r.1 = bool_decide (length l < 3)%nat /\
            requests_of r.2 key = l ++ (if r.1 then [t] else [])).
  { intros rl l Hm Hw Hl Hall.
    assert (Hp : prune rl t key = l).
    { rewrite prune_all_recent; [done |]. rewrite Hl, Hw.
      eapply Forall_impl; [exact Hall |]. intros ? <-. lia. }
    destruct (decide (length l < 3)%nat) as [Hlt | Hge].
    - cbv zeta. rewrite is_allowed_admit by (rewrite Hp, Hm; lia).
      rewrite Hp, Hm, Hw. cbn. rewrite requests_of_insert_eq.
      by rewrite bool_decide_true.
    - cbv zeta. rewrite is_allowed_reject by (rewrite Hp, Hm; lia).
      rewrite Hp, Hm, Hw. cbn. rewrite requests_of_insert_eq.
      rewrite bool_decide_false by done. by rewrite app_nil_r. }
  cbn [calls].
  destruct (Hstep (init 3 60) [] eq_refl eq_refl eq_refl ltac:(constructor))
    as (M1 & W1 & B1 & R1).
  destruct (is_allowed t key (init 3 60)) as [b1 rl1]; cbn in *. subst b1.
  destruct (Hstep rl1 [t] M1 W1 R1 ltac:(repeat constructor))
    as (M2 & W2 & B2 & R2).
  destruct (is_allowed t key rl1) as [b2 rl2]; cbn in *. subst b2.
  destruct (Hstep rl2 [t; t] M2 W2 R2 ltac:(repeat constructor))
    as (M3 & W3 & B3 & R3).
  destruct (is_allowed t key rl2) as [b3 rl3]; cbn in *. subst b3.
  destruct (Hstep rl3 [t; t; t] M3 W3 R3 ltac:(repeat constructor))
    as (M4 & W4 & B4 & R4).
  destruct (is_allowed t key rl3) as [b4 rl4]; cbn in *. subst b4.
  done.
Qed.

(** C5. [is_allowed] prunes the key's timestamps to those with
    [now - t < window], admits and appends [now] iff the pruned count is
    below the maximum, and otherwise refuses without recording [now]; with
    max 3 and window 60, four calls at one instant give true, true, true,
    false, and a call once the window has elapsed is admitted. *)
Theorem is_allowed_sliding_window (now : Z) (key : string) (rl : t) :
  let kept := prune rl now key in
  let r := is_allowed now key rl in
  (forall t, t ∈ kept <-> t ∈ requests_of rl key /\ now - t < _window rl) /\
  kept `sublist_of` requests_of rl key /\
  (r.1 = true <-> Z.of_nat (length kept) < _max_requests rl) /\
  requests_of r.2 key = (if r.1 then kept ++ [now] else kept) /\
  (forall k, k ≠ key -> requests_of r.2 k = requests_of rl k) /\
  _max_requests r.2 = _max_requests rl /\ _window r.2 = _window rl /\
  (forall t, now - t >= 60 ->
     let burst := calls [t; t; t; t] key (init 3 60) in
     burst.1 = [true; true; true; false] /\
     (is_allowed now key burst.2).1 = true).
Proof.
  cbv zeta.
  assert (Hburst : forall t0, now - t0 >= 60 ->
            (calls [t0; t0; t0; t0] key (init 3 60)).1
            = [true; true; true; false] /\
            (is_allowed now key (calls [t0; t0; t0; t0] key (init 3 60)).2).1
            = true).
  { intros t0 Ht0. destruct (burst_state t0 key) as (B & M & W & R).
    split; [exact B |]. rewrite is_allowed_admit; [done |].
    rewrite prune_all_old; [rewrite M; cbn; lia |].
    rewrite R, W. repeat constructor; lia. }
  split; [apply prune_elem |].
  split; [apply sublist_filter |].
  destruct (decide (Z.of_nat (length (prune rl now key)) < _max_requests rl))
    as [Hlt | Hge].
  - rewrite is_allowed_admit by done. cbn [fst snd].
    rewrite requests_of_insert_eq. destruct rl as [mx w m].
    split_and!; try done.
    intros k Hk. by apply requests_of_insert_ne.
  - rewrite is_allowed_reject by done. cbn [fst snd].
    rewrite requests_of_insert_eq. destruct rl as [mx w m].
    split_and!; try done.
    intros k Hk. by apply requests_of_insert_ne.
Qed.

Lemma is_allowed_sliding_window_witness :
  (calls [1000; 1000; 1000; 1000] "10.0.0.1" (init 3 60)).1
  = [true; true; true; false] /\
  (is_allowed 1060 "10.0.0.1"
     (calls [1000; 1000; 1000; 1000] "10.0.0.1" (init 3 60)).2).1 = true /\
  (is_allowed 1059 "10.0.0.1"
     (calls [1000; 1000; 1000; 1000] "10.0.0.1" (init 3 60)).2).1 = false.
Proof.
  pose proof (is_allowed_sliding_window 1060 "10.0.0.1" (init 3 60))
    as (_ & _ & _ & _ & _ & _ & _ & H).
  destruct (H 1000) as (H1 & H2); [lia |].
  split; [exact H1 |]. split; [exact H2 |]. reflexivity.
Defined.

End rate_limiter.

(** ** CORSHandler *)

Section cors.
Import CORSHandler.

Lemma lookup_tail_headers (h : gmap string string) (c : t) k :
  k = "Access-Control-Allow-Origin" ->
  (if credentials c
   then <["Access-Control-Allow-Credentials" := "true"]>
          (<["Access-Control-Max-Age" := pretty (max_age c)]>
             (<["Access-Control-Allow-Headers" := join (headers c)]>
                (<["Access-Control-Allow-Methods" := join (methods c)]> h)))
   else <["Access-Control-Max-Age" := pretty (max_age c)]>
          (<["Access-Control-Allow-Headers" := join (headers c)]>
             (<["Access-Control-Allow-Methods" := join (methods c)]> h)))
  !! k = h !! k.
Proof.
  intros ->. destruct (credentials c);
    repeat (rewrite lookup_insert_ne by discriminate); done.
Qed.

Lemma origin_listed_spec ro c :
  origin_listed ro c = true <-> exists o, ro = Some o /\ o ≠ EmptyString /\ o ∈ origins c.
Proof.
  unfold origin_listed. destruct ro as [o |].
  - rewrite andb_true_iff, negb_true_iff, bool_decide_eq_true.
    destruct (String.eqb_spec o EmptyString); split.
    + intros [? _]; discriminate.
    + intros (o' & [= <-] & Hne & _). done.
    + intros [_ H]. by exists o.
    + intros (o' & [= <-] & _ & H). done.
  - split; [discriminate | intros (o & ? & _); discriminate].
Qed.

(** C8 as stated fails on an empty allow-set: there is no first
    configured origin, and the code (guard [elif self.origins]) emits no
    [Access-Control-Allow-Origin] header at all. *)
Lemma cors_empty_allow_set_sets_no_origin :
  add_headers (Some "https://b.com")
              (init (OriginList []) None None false 86400)
    !! "Access-Control-Allow-Origin" = None.
Proof. reflexivity. Qed.

(** C8 (amended). [add_headers] sets [Access-Control-Allow-Origin] to the
    wildcard if the allow-set contains it, else to the request origin if
    that is present, non-empty and in the allow-set, else to the first
    configured origin when the allow-set is non-empty, and emits no such
    header when the allow-set is empty; allow-methods, allow-headers and
    max-age are always emitted, allow-credentials iff credentials are
    enabled. With allow-set [https://a.com] and request origin
    [https://b.com] the header is [https://a.com]. *)
Theorem cors_add_headers (request_origin : option string) (c : t) :
  let h := add_headers request_origin c in
  let listed := exists o, request_origin = Some o /\ o ≠ EmptyString /\ o ∈ origins c in
  ("*" ∈ origins c -> h !! "Access-Control-Allow-Origin" = Some "*") /\
  ("*" ∉ origins c -> listed ->
     h !! "Access-Control-Allow-Origin" = request_origin) /\
  ("*" ∉ origins c -> ¬ listed ->
     h !! "Access-Control-Allow-Origin" = head (origins c)) /\
  h !! "Access-Control-Allow-Methods" = Some (join (methods c)) /\
  h !! "Access-Control-Allow-Headers" = Some (join (headers c)) /\
  h !! "Access-Control-Max-Age" = Some (pretty (max_age c)) /\
  (h !! "Access-Control-Allow-Credentials"
   = if credentials c then Some "true" else None) /\
  (forall k, is_Some (h !! k) ->
     k ∈ ["Access-Control-Allow-Origin"; "Access-Control-Allow-Methods";
          "Access-Control-Allow-Headers"; "Access-Control-Max-Age";
          "Access-Control-Allow-Credentials"]) /\
  add_headers (Some "https://b.com")
    (init (OriginList ["https://a.com"]) None None false 86400)
    !! "Access-Control-Allow-Origin" = Some "https://a.com".
Proof.
  cbv zeta. unfold add_headers. split_and!.
  - intros W. rewrite lookup_tail_headers by done.
    rewrite bool_decide_true by done. apply lookup_insert_eq.
  - intros W L. rewrite lookup_tail_headers by done.
    rewrite bool_decide_false by done.
    apply origin_listed_spec in L as L'. rewrite L'.
    destruct L as (o & -> & _). apply lookup_insert_eq.
  - intros W L. rewrite lookup_tail_headers by done.
    rewrite bool_decide_false by done.
    destruct (origin_listed request_origin c) eqn:E;
      [by apply origin_listed_spec in E |].
    destruct (origins c); [done | apply lookup_insert_eq].
  - destruct (credentials c);
      repeat (rewrite lookup_insert_ne by discriminate); apply lookup_insert_eq.
  - destruct (credentials c);
      repeat (rewrite lookup_insert_ne by discriminate); apply lookup_insert_eq.
  - destruct (credentials c);
      repeat (rewrite lookup_insert_ne by discriminate); apply lookup_insert_eq.
  - destruct (credentials c); [apply lookup_insert_eq |].
    repeat (rewrite lookup_insert_ne by discriminate).
    destruct (bool_decide ("*" ∈ origins c));
      [by rewrite lookup_insert_ne by discriminate |].
    destruct (origin_listed request_origin c);
      [by rewrite lookup_insert_ne by discriminate |].
    destruct (origins c); [done | by rewrite lookup_insert_ne by discriminate].
  - intros k Hk. rewrite !elem_of_cons.
    destruct (decide (k = "Access-Control-Allow-Origin")); [tauto |].
    destruct (decide (k = "Access-Control-Allow-Methods")); [tauto |].
    destruct (decide (k = "Access-Control-Allow-Headers")); [tauto |].
    destruct (decide (k = "Access-Control-Max-Age")); [tauto |].
    destruct (decide (k = "Access-Control-Allow-Credentials")); [tauto |].
    exfalso. revert Hk.
    assert (E : forall h0 : gmap string string, h0 !! k = None ->
              ¬ is_Some ((if credentials c
                 then <["Access-Control-Allow-Credentials" := "true"]>
                   (<["Access-Control-Max-Age" := pretty (max_age c)]>
                     (<["Access-Control-Allow-Headers" := join (headers c)]>
                       (<["Access-Control-Allow-Methods" := join (methods c)]> h0)))
                 else <["Access-Control-Max-Age" := pretty (max_age c)]>
                     (<["Access-Control-Allow-Headers" := join (headers c)]>
                       (<["Access-Control-Allow-Methods" := join (methods c)]> h0)))
                !! k)).
    { intros h0 H0. destruct (credentials c);
        repeat (rewrite lookup_insert_ne by done); rewrite H0;
        by intros [? ?]. }
    apply E.
    destruct (bool_decide ("*" ∈ origins c));
      [by rewrite lookup_insert_ne by done |].
    destruct (origin_listed request_origin c);
      [by rewrite lookup_insert_ne by done |].
    destruct (origins c); [done | by rewrite lookup_insert_ne by done].
  - reflexivity.
Qed.

Lemma cors_add_headers_witness :
  add_headers (Some "https://b.com")
    (init (OriginList ["https://a.com"; "https://c.com"]) None None true 600)
    !! "Access-Control-Allow-Origin" = Some "https://a.com" /\
  add_headers (Some "https://c.com")
    (init (OriginList ["https://a.com"; "https://c.com"]) None None true 600)
    !! "Access-Control-Allow-Origin" = Some "https://c.com" /\
  add_headers (Some "https://b.com")
    (init (OneOrigin "*") None None true 600)
    !! "Access-Control-Allow-Origin" = Some "*".
Proof.
  pose proof (cors_add_headers (Some "https://b.com")
                (init (OriginList ["https://a.com"; "https://c.com"])
                      None None true 600)) as (_ & _ & Hfirst & _).
  pose proof (cors_add_headers (Some "https://c.com")
                (init (OriginList ["https://a.com"; "https://c.com"])
                      None None true 600)) as (_ & Hecho & _).
  pose proof (cors_add_headers (Some "https://b.com")
                (init (OneOrigin "*") None None true 600)) as (Hstar & _).
  assert (Hno : "*" ∉ ["https://a.com"; "https://c.com"]).
  { rewrite !elem_of_cons, elem_of_nil. intros [H | [H | []]]; discriminate H. }
  split_and!.
  - apply Hfirst; [exact Hno |].
    intros (o & Ho & _ & H). injection Ho as <-. revert H. cbn.
    rewrite !elem_of_cons, elem_of_nil. intros [H | [H | []]]; discriminate H.
  - apply Hecho; [exact Hno |].
    exists "https://c.com". split; [reflexivity |]. split; [discriminate |].
    cbn. rewrite !elem_of_cons. tauto.
  - apply Hstar. cbn. rewrite elem_of_cons. tauto.
Defined.

End cors.

(** ** UTF-8 *)

Section utf8.
Import Utf8.

Local Ltac arith := Z.div_mod_to_equations; lia.

Local Ltac decide_tests :=
  repeat match goal with
  | |- context [?a <? ?b] => destruct (Z.ltb_spec a b); try (exfalso; arith)
  | |- context [?a <=? ?b] => destruct (Z.leb_spec a b); try (exfalso; arith)
  | |- context [?a =? ?b] => destruct (Z.eqb_spec a b); try (exfalso; arith)
  end.

Lemma decode_step_encode_cp c bs rest :
  encode_cp c = Some bs -> decode_step (bs ++ rest) = Char c rest.
Proof.
  unfold encode_cp.
  destruct (Z.ltb_spec c 0); [discriminate |].
  destruct (Z.ltb_spec c 0x80).
  { intros [= <-]. cbn. decide_tests. done. }
  destruct (Z.ltb_spec c 0x800).
  { intros [= <-]. cbn. unfold cont. decide_tests. cbn. f_equal. arith. }
  destruct (Z.ltb_spec c 0x10000).
  { destruct (Z.leb_spec 0xD800 c), (Z.leb_spec c 0xDFFF); cbn [andb];
      try discriminate; intros [= <-]; cbn; unfold cont; decide_tests; cbn;
      f_equal; arith. }
  destruct (Z.ltb_spec c 0x110000); [| discriminate].
  intros [= <-]. cbn. unfold cont. decide_tests; cbn; f_equal; arith.
Qed.

Lemma encode_cp_length c bs :
  encode_cp c = Some bs -> (1 <= length bs)%nat.
Proof.
  unfold encode_cp. repeat case_match; intros [= <-]; cbn; lia.
Qed.

Lemma encode_cp_bytes c bs :
  encode_cp c = Some bs -> Forall is_byte bs.
Proof.
  unfold encode_cp, is_byte.
  destruct (Z.ltb_spec c 0); [discriminate |].
  destruct (Z.ltb_spec c 0x80).
  { intros [= <-]. repeat constructor; lia. }
  destruct (Z.ltb_spec c 0x800).
  { intros [= <-]. repeat constructor; arith. }
  destruct (Z.ltb_spec c 0x10000).
  { destruct (_ && _); [discriminate |]. intros [= <-].
    repeat constructor; arith. }
  destruct (Z.ltb_spec c 0x110000); [| discriminate].
  intros [= <-]. repeat constructor; arith.
Qed.

Lemma decode_fuel_encode s : forall data fuel,
  encode s = Ok data -> (length data <= fuel)%nat ->
  decode_fuel fuel data = Ok s.
Proof.
  induction s as [| c s IH]; intros data fuel.
  - intros [= <-] _. by destruct fuel.
  - cbn [encode]. destruct (encode_cp c) as [bs |] eqn:Ec; [| discriminate].
    destruct (encode s) as [tl |] eqn:Es; [| discriminate].
    cbn. intros [= <-] Hfuel.
    pose proof (encode_cp_length _ _ Ec) as Hlen.
    rewrite length_app in Hfuel.
    destruct fuel as [| fuel]; [lia |].
    destruct bs as [| b bs]; [cbn in Hlen; lia |].
    change ((b :: bs) ++ tl) with (b :: (bs ++ tl)).
    cbn [decode_fuel].
    change (b :: (bs ++ tl)) with ((b :: bs) ++ tl).
    rewrite (decode_step_encode_cp _ _ _ Ec).
    rewrite (IH tl fuel eq_refl) by (cbn in Hfuel; lia). done.
Qed.

(** Strict decoding inverts encoding. *)
Lemma decode_encode s data : encode s = Ok data -> decode data = Ok s.
Proof. intros H. apply decode_fuel_encode; [done | lia]. Qed.

Lemma encode_bytes s : forall data, encode s = Ok data -> Forall is_byte data.
Proof.
  induction s as [| c s IH]; intros data; cbn [encode].
  - intros [= <-]. constructor.
  - destruct (encode_cp c) as [bs |] eqn:Ec; [| discriminate].
    destruct (encode s) as [tl |]; [| discriminate]. cbn. intros [= <-].
    apply Forall_app. split; [by eapply encode_cp_bytes | by apply IH].
Qed.

End utf8.

Section utf8_fuel.
Import Utf8.

(** A decoded character consumes at least one byte. *)
Lemma decode_step_progress bs c rest :
  decode_step bs = Char c rest -> (length rest < length bs)%nat.
Proof.
  unfold decode_step. intros Hs.
  repeat (case_match; try discriminate; subst); injection Hs as <- <-;
    cbn [length]; lia.
Qed.

Lemma decode_step_skip bs n :
  decode_step bs = Invalid n -> (1 <= n <= length bs)%nat.
Proof.
  unfold decode_step. intros Hs.
  repeat (case_match; try discriminate; subst); injection Hs as <-;
    cbn [length]; lia.
Qed.

(** The fuel [decode] gives itself is enough: more changes nothing. *)
Lemma decode_fuel_enough fuel : forall fuel' bs,
  (length bs <= fuel)%nat -> (length bs <= fuel')%nat ->
  decode_fuel fuel bs = decode_fuel fuel' bs.
Proof.
  induction fuel as [| fuel IH]; intros fuel' bs H1 H2.
  - destruct bs; [by destruct fuel' | cbn in H1; lia].
  - destruct bs as [| b bs]; [by destruct fuel' |].
    destruct fuel' as [| fuel']; [cbn in H2; lia |].
    cbn [decode_fuel].
    destruct (decode_step (b :: bs)) as [c rest | n |] eqn:E; [| done | done].
    apply decode_step_progress in E. cbn [length] in *.
    by rewrite (IH fuel' rest) by lia.
Qed.

Lemma decode_replace_fuel_enough fuel : forall fuel' bs,
  (length bs <= fuel)%nat -> (length bs <= fuel')%nat ->
  decode_replace_fuel fuel bs = decode_replace_fuel fuel' bs.
Proof.
  induction fuel as [| fuel IH]; intros fuel' bs H1 H2.
  - destruct bs; [by destruct fuel' | cbn in H1; lia].
  - destruct bs as [| b bs]; [by destruct fuel' |].
    destruct fuel' as [| fuel']; [cbn in H2; lia |].
    cbn [decode_replace_fuel].
    destruct (decode_step (b :: bs)) as [c rest | n |] eqn:E; [| | done].
    + apply decode_step_progress in E. cbn [length] in *.
      by rewrite (IH fuel' rest) by lia.
    + apply decode_step_skip in E.
      assert (length (drop n (b :: bs)) <= length bs)%nat
        by (rewrite length_drop; cbn [length]; lia).
      cbn [length] in *. by rewrite (IH fuel' (drop n (b :: bs))) by lia.
Qed.

(** The equations of the two decoders. *)
Lemma decode_cons b bs :
  decode (b :: bs)
  = match decode_step (b :: bs) with
    | Char c rest => tl ← decode rest; Ok (c :: tl)
    | Invalid _ | Truncated => Raise UnicodeDecodeError
    end.
Proof.
  unfold decode. cbn [length decode_fuel].
  destruct (decode_step (b :: bs)) as [c rest | n |] eqn:E; [| done | done].
  apply decode_step_progress in E. cbn [length] in E.
  by rewrite (decode_fuel_enough (length bs) (length rest) rest) by lia.
Qed.

Lemma decode_replace_cons b bs :
  decode_replace (b :: bs)
  = match decode_step (b :: bs) with
    | Char c rest => c :: decode_replace rest
    | Invalid n => 0xFFFD :: decode_replace (drop n (b :: bs))
    | Truncated => [0xFFFD]
    end.
Proof.
  unfold decode_replace. cbn [length decode_replace_fuel].
  destruct (decode_step (b :: bs)) as [c rest | n |] eqn:E; [| | done].
  - apply decode_step_progress in E. cbn [length] in E.
    by rewrite (decode_replace_fuel_enough (length bs) (length rest) rest) by lia.
  - apply decode_step_skip in E.
    assert (length (drop n (b :: bs)) <= length bs)%nat
      by (rewrite length_drop; cbn [length]; lia).
    by rewrite (decode_replace_fuel_enough (length bs)
                  (length (drop n (b :: bs))) (drop n (b :: bs)) H).
Qed.

End utf8_fuel.

(** ** WebSocketConnection *)

Section websocket.
Import WebSocketConnection.

Lemma fold_big_endian n : forall z acc,
  fold_left (fun a x => a * 256 + x) (big_endian n z) acc
  = acc * 256 ^ Z.of_nat n + z mod 256 ^ Z.of_nat n.
Proof.
  induction n as [| k IH]; intros z acc.
  - cbn. rewrite Z.mod_1_r. lia.
  - cbn [big_endian fold_left]. rewrite IH.
    rewrite Nat2Z.inj_succ, Z.pow_succ_r by lia.
    rewrite (Z.mul_comm 256 (256 ^ Z.of_nat k)).
    rewrite (Z.rem_mul_r z (256 ^ Z.of_nat k) 256) by lia.
    lia.
Qed.

Lemma from_bytes_big_endian n z :
  0 <= z < 256 ^ Z.of_nat n -> from_bytes (big_endian n z) = z.
Proof.
  intros H. unfold from_bytes. rewrite fold_big_endian.
  rewrite Z.mod_small by done. lia.
Qed.

Lemma length_big_endian n z : length (big_endian n z) = n.
Proof. induction n; cbn; congruence. Qed.

Lemma length7_bits len :
  0 <= len <= 127 ->
  Z.land (Z.lor 0x80 len) 0x7F = len /\ Z.land (Z.lor 0x80 len) 0x80 = 0x80 /\
  Z.land len 0x7F = len /\ Z.land len 0x80 = 0.
Proof.
  intros H.
  assert (E : forallb (fun n => let l := Z.of_nat n in
              (Z.land (Z.lor 0x80 l) 0x7F =? l) && (Z.land (Z.lor 0x80 l) 0x80 =? 0x80)
              && (Z.land l 0x7F =? l) && (Z.land l 0x80 =? 0)) (seq 0 128) = true)
    by (vm_compute; reflexivity).
  rewrite forallb_forall in E. specialize (E (Z.to_nat len)).
  rewrite Z2Nat.id in E by lia. cbv zeta in E.
  rewrite !andb_true_iff, !Z.eqb_eq in E. 
  assert (In (Z.to_nat len) (seq 0 128)) by (apply in_seq; lia).
  tauto.
Qed.

Lemma mask_payload_length key data :
  length (mask_payload key data) = length data.
Proof. unfold mask_payload. apply length_imap. Qed.

Lemma unmask_mask_payload key data :
  length key = 4%nat ->
  unmask (seq 0 (length data)) (mask_payload key data) key = Ok data.
Proof.
  intros Hk.
  set (f := fun (k i : nat) (x : Z) =>
              Z.lxor x (default 0 (key !! ((k + i) mod 4)%nat))).
  assert (G : forall suf pre,
            unmask (seq (length pre) (length suf))
                   (pre ++ imap (f (length pre)) suf) key
            = Ok (pre ++ suf)).
  { induction suf as [| d suf IH]; intros pre; [done |].
    cbn [length seq unmask imap].
    rewrite list_lookup_middle by done.
    destruct (key !! (length pre mod 4)%nat) as [m |] eqn:Em.
    2:{ apply lookup_ge_None in Em.
        pose proof (Nat.mod_upper_bound (length pre) 4). lia. }
    rewrite insert_app_r_alt by lia. rewrite Nat.sub_diag. cbn [insert list_insert].
    unfold f at 1. rewrite Nat.add_0_r, Em. cbn [default].
    rewrite Z.lxor_assoc, Z.lxor_nilpotent, Z.lxor_0_r.
    rewrite (imap_ext _ (f (length (pre ++ [d])))).
    2:{ intros i x _. unfold f, compose. rewrite length_app. cbn.
        by replace (length pre + 1 + i)%nat with (length pre + S i)%nat by lia. }
    rewrite (cons_middle d pre), app_assoc.
    replace (S (length pre)) with (length (pre ++ [d]))
      by (rewrite length_app; cbn; lia).
    rewrite IH. by rewrite <- app_assoc. }
  apply (G data []).
Qed.


Lemma read_app (a rest : bytes) n c :
  n = length a ->
  read n (set_rfile (a ++ rest) c) = (a, set_rfile rest c).
Proof.
  intros ->. unfold read, set_rfile. cbn.
  by rewrite take_app_length, drop_app_length.
Qed.

Lemma receive_masked_text h1 ext key data rest c s :
  Z.land h1 0x80 ≠ 0 ->
  (Z.land h1 0x7F = 126 /\ length ext = 2%nat
     /\ from_bytes ext = Z.of_nat (length data)) \/
  (Z.land h1 0x7F = 127 /\ length ext = 8%nat
     /\ from_bytes ext = Z.of_nat (length data)) \/
  (Z.land h1 0x7F <= 125 /\ ext = []
     /\ Z.land h1 0x7F = Z.of_nat (length data)) ->
  length key = 4%nat ->
  Utf8.decode data = Ok s ->
  receive (set_rfile (0x81 :: h1 :: ext ++ key ++ mask_payload key data ++ rest) c)
  = (Some s, set_rfile rest c).
Proof.
  intros Hm Hcase Hk Hs.
  pose proof (unmask_mask_payload key data Hk) as Hun.
  pose proof (mask_payload_length key data) as Hml.
  unfold receive.
  change (read 2 (set_rfile (0x81 :: h1 :: ext ++ key ++ mask_payload key data ++ rest) c))
    with ([0x81; h1], set_rfile (ext ++ key ++ mask_payload key data ++ rest) c).
  cbv iota beta zeta.
  destruct (Z.eqb_spec (Z.land h1 0x80) 0) as [| _]; [done |].
  assert (Hparse :
    (if Z.land h1 0x7F =? 126
     then let '(e, c') := read 2 (set_rfile (ext ++ key ++ mask_payload key data ++ rest) c)
          in (from_bytes e, c')
     else if Z.land h1 0x7F =? 127
     then let '(e, c') := read 8 (set_rfile (ext ++ key ++ mask_payload key data ++ rest) c)
          in (from_bytes e, c')
     else (Z.land h1 0x7F, set_rfile (ext ++ key ++ mask_payload key data ++ rest) c))
    = (Z.of_nat (length data), set_rfile (key ++ mask_payload key data ++ rest) c)).
  { destruct Hcase as [(E & L & F) | [(E & L & F) | (E & -> & F)]].
    - rewrite E. cbn [Z.eqb Pos.eqb]. rewrite read_app by done. by rewrite F.
    - rewrite E. cbn [Z.eqb Pos.eqb]. rewrite read_app by done. by rewrite F.
    - destruct (Z.eqb_spec (Z.land h1 0x7F) 126); [lia |].
      destruct (Z.eqb_spec (Z.land h1 0x7F) 127); [lia |].
      by rewrite F. }
  rewrite Hparse. rewrite read_app by done.
  rewrite Nat2Z.id. rewrite read_app by done.
  rewrite Hun. change (Z.land 129 15 =? 1) with true. cbv iota.
  by rewrite Hs.
Qed.

Lemma receive_unmasked_text h1 ext data rest c s :
  Z.land h1 0x80 = 0 ->
  (Z.land h1 0x7F = 126 /\ length ext = 2%nat
     /\ from_bytes ext = Z.of_nat (length data)) \/
  (Z.land h1 0x7F = 127 /\ length ext = 8%nat
     /\ from_bytes ext = Z.of_nat (length data)) \/
  (Z.land h1 0x7F <= 125 /\ ext = []
     /\ Z.land h1 0x7F = Z.of_nat (length data)) ->
  Utf8.decode data = Ok s ->
  receive (set_rfile (0x81 :: h1 :: ext ++ data ++ rest) c)
  = (Some s, set_rfile rest c).
Proof.
  intros Hm Hcase Hs.
  unfold receive.
  change (read 2 (set_rfile (0x81 :: h1 :: ext ++ data ++ rest) c))
    with ([0x81; h1], set_rfile (ext ++ data ++ rest) c).
  cbv iota beta zeta. rewrite Hm. cbn [Z.eqb].
  assert (Hparse :
    (if Z.land h1 0x7F =? 126
     then let '(e, c') := read 2 (set_rfile (ext ++ data ++ rest) c)
          in (from_bytes e, c')
     else if Z.land h1 0x7F =? 127
     then let '(e, c') := read 8 (set_rfile (ext ++ data ++ rest) c)
          in (from_bytes e, c')
     else (Z.land h1 0x7F, set_rfile (ext ++ data ++ rest) c))
    = (Z.of_nat (length data), set_rfile (data ++ rest) c)).
  { destruct Hcase as [(E & L & F) | [(E & L & F) | (E & -> & F)]].
    - rewrite E. cbn [Z.eqb Pos.eqb]. rewrite read_app by done. by rewrite F.
    - rewrite E. cbn [Z.eqb Pos.eqb]. rewrite read_app by done. by rewrite F.
    - destruct (Z.eqb_spec (Z.land h1 0x7F) 126); [lia |].
      destruct (Z.eqb_spec (Z.land h1 0x7F) 127); [lia |].
      by rewrite F. }
  rewrite Hparse. rewrite Nat2Z.id. rewrite read_app by done.
  change (Z.land 129 15 =? 1) with true. cbv iota.
  by rewrite Hs.
Qed.

(** The three forms of the length field and what [receive] reads back
    from them. *)
Lemma length_field_cases (n : Z) :
  0 <= n < 2 ^ 64 ->
  exists b1 ext,
    length_field n = b1 :: ext /\ 0 <= b1 <= 127 /\
    ((b1 = 126 /\ length ext = 2%nat /\ from_bytes ext = n) \/
     (b1 = 127 /\ length ext = 8%nat /\ from_bytes ext = n) \/
     (b1 <= 125 /\ ext = [] /\ b1 = n)).
Proof.
  intros Hn. unfold length_field.
  destruct (Z.leb_spec n 125).
  { exists n, []. split; [done |]. split; [lia |]. right; right. done. }
  destruct (Z.leb_spec n 65535).
  { exists 126, (big_endian 2 n). split; [done |]. split; [lia |]. left.
    split; [done |]. split; [apply length_big_endian |].
    apply from_bytes_big_endian. change (256 ^ Z.of_nat 2) with 65536. lia. }
  exists 127, (big_endian 8 n). split; [done |]. split; [lia |]. right; left.
  split; [done |]. split; [apply length_big_endian |].
  apply from_bytes_big_endian. change (256 ^ Z.of_nat 8) with (2 ^ 64). lia.
Qed.

Lemma frame_header_length_field (n : Z) :
  0 <= n < 2 ^ 64 -> frame_header n = Ok (0x81 :: length_field n).
Proof.
  intros Hn. unfold frame_header, length_field, to_bytes.
  destruct (Z.leb_spec n 125); [done |].
  destruct (Z.leb_spec n 65535).
  - change (256 ^ Z.of_nat 2) with 65536.
    destruct (Z.ltb_spec n 65536); [done | lia].
  - change (256 ^ Z.of_nat 8) with (2 ^ 64).
    destruct (Z.ltb_spec n (2 ^ 64)); [done | lia].
Qed.

(** C4. For every text [s] with UTF-8 payload [data], [send] writes the
    unmasked text frame of [data], and [receive] applied to the masked
    client text frame carrying [data], under any 4-byte key, returns [s]
    and consumes exactly that frame; the same holds for the length forms
    of 7, 16 and 64 bits alike. [receive] also reads back the unmasked
    frame. *)
Theorem websocket_text_roundtrip (s : ustr) (data key rest : bytes) (c : t) :
  Utf8.encode s = Ok data ->
  Z.of_nat (length data) < 2 ^ 64 ->
  length key = 4%nat ->
  connected c = true -> wfile_broken c = false ->
  send s c = Ok (true, write (server_text_frame data) c) /\
  receive (set_rfile (client_text_frame key data ++ rest) c)
  = (Some s, set_rfile rest c) /\
  receive (set_rfile (server_text_frame data ++ rest) c)
  = (Some s, set_rfile rest c).
Proof.
  intros Henc Hlen Hk Hconn Hw.
  pose proof (Utf8_decode_encode := decode_encode s data Henc).
  assert (Hn : 0 <= Z.of_nat (length data) < 2 ^ 64) by lia.
  destruct (length_field_cases _ Hn) as (b1 & ext & Hf & Hb & Hcase).
  destruct (length7_bits b1 Hb) as (E1 & E2 & E3 & E4).
  split_and!.
  - unfold send. rewrite Hconn, Henc. cbn [negb mbind result_bind bind].
    rewrite frame_header_length_field by done. cbn [bind]. by rewrite Hw.
  - unfold client_text_frame. rewrite Hf.
    change ((0x81 :: Z.lor 0x80 b1 :: ext ++ key ++ mask_payload key data) ++ rest)
      with (0x81 :: Z.lor 0x80 b1 :: (ext ++ key ++ mask_payload key data) ++ rest).
    rewrite <- !app_assoc.
    apply receive_masked_text; [lia | rewrite E1; intuition lia | done | done].
  - unfold server_text_frame. rewrite Hf.
    change ((0x81 :: (b1 :: ext) ++ data) ++ rest)
      with (0x81 :: b1 :: (ext ++ data) ++ rest).
    rewrite <- !app_assoc.
    apply receive_unmasked_text; [done | rewrite E3; intuition lia | done].
Qed.

Lemma encode_repeat_ascii (n : nat) :
  Utf8.encode (repeat 97 n) = Ok (repeat 97 n).
Proof. induction n as [| n IH]; [done |]. cbn. by rewrite IH. Qed.

Lemma websocket_text_roundtrip_witness :
  (receive (set_rfile (client_text_frame Demo.key Demo.text10) Demo.conn)).1
  = Some Demo.text10 /\
  (receive (set_rfile (client_text_frame Demo.key Demo.text200) Demo.conn)).1
  = Some Demo.text200 /\
  (receive (set_rfile (client_text_frame Demo.key Demo.text70000) Demo.conn)).1
  = Some Demo.text70000 /\
  (receive (set_rfile
     (client_text_frame Demo.key
        [0x48; 0xC3; 0xA9; 0xE2; 0x82; 0xAC; 0xF0; 0x9F; 0x98; 0x80])
     Demo.conn)).1 = Some Demo.text_mixed /\
  take 2 (client_text_frame Demo.key Demo.text10) = [0x81; 0x8A] /\
  take 4 (client_text_frame Demo.key Demo.text200) = [0x81; 0xFE; 0; 200] /\
  take 10 (client_text_frame Demo.key Demo.text70000)
  = [0x81; 0xFF; 0; 0; 0; 0; 0; 1; 0x11; 0x70].
Proof.
  assert (R : forall s data,
            Utf8.encode s = Ok data -> Z.of_nat (length data) < 2 ^ 64 ->
            (receive (set_rfile (client_text_frame Demo.key data) Demo.conn)).1
            = Some s).
  { intros s data He Hl.
    destruct (websocket_text_roundtrip s data Demo.key [] Demo.conn He Hl
                eq_refl eq_refl eq_refl) as (_ & H & _).
    rewrite app_nil_r in H. by rewrite H. }
  split_and!.
  - apply R; [reflexivity | vm_compute; reflexivity].
  - apply R; [vm_compute; reflexivity | vm_compute; reflexivity].
  - apply R; [apply encode_repeat_ascii |].
    unfold Demo.text70000. rewrite repeat_length, Z2Nat.id; lia.
  - apply R; [vm_compute; reflexivity | vm_compute; reflexivity].
  - vm_compute; reflexivity.
  - vm_compute; reflexivity.
  - unfold client_text_frame, Demo.text70000.
    rewrite repeat_length, Z2Nat.id by lia. reflexivity.
Defined.

End websocket.

(** ** Path templates and the route table *)

Section templates.
Import Re.

Lemma append_cons a (s t : string) :
  (String a s ++ t)%string = String a (s ++ t)%string.
Proof. reflexivity. Qed.

Lemma append_nil_l (s : string) : (EmptyString ++ s)%string = s.
Proof. reflexivity. Qed.

Lemma append_nil_r (s : string) : (s ++ EmptyString)%string = s.
Proof. induction s; [reflexivity | rewrite append_cons; congruence]. Qed.

Lemma append_assoc (a b c : string) :
  ((a ++ b) ++ c)%string = (a ++ (b ++ c))%string.
Proof. induction a; [reflexivity | rewrite !append_cons; congruence]. Qed.

(** Whatever [greedy] hands to the rest of the pattern extends what the
    group had taken by at least one character, none of them a slash. *)
Lemma greedy_taken k s : forall taken g,
  greedy k taken s = Some g ->
  exists more rest,
    k (taken ++ more)%string rest = Some g /\ more ≠ EmptyString /\ no_slash more.
Proof.
  induction s as [| c r IH]; intros taken g; cbn; [discriminate |].
  destruct (Ascii.eqb_spec c "/"); [discriminate |].
  destruct (greedy k (taken ++ String c EmptyString) r) as [g' |] eqn:E.
  - intros [= <-]. destruct (IH _ _ E) as (more & rest & Hk & Hne & Hns).
    exists (String c more), rest. rewrite append_assoc in Hk.
    split; [exact Hk |]. split; [done |].
    unfold no_slash in *. cbn. intros [H | H]; [congruence | tauto].
  - intros Hk. exists (String c EmptyString), r. split; [done |].
    split; [done |]. unfold no_slash. cbn. intros [H | []]. congruence.
Qed.

(** Every captured value is a non-empty text without a slash; a group
    has no value only if it is an optional group of the pattern. *)
Lemma match_nodes_groups p : forall s g,
  match_nodes p s = Some g ->
  Forall (fun kv => match kv.2 with
                    | Some v => v ≠ EmptyString /\ no_slash v
                    | None => In (Opt kv.1) p
                    end) g.
Proof.
  induction p as [| n p IH]; intros s g; cbn [match_nodes].
  - destruct (at_end s); [intros [= <-]; constructor | discriminate].
  - assert (Hweak : forall s' g', match_nodes p s' = Some g' ->
              Forall (fun kv => match kv.2 with
                                | Some v => v ≠ EmptyString /\ no_slash v
                                | None => In (Opt kv.1) (n :: p)
                                end) g').
    { intros s' g' Hm. eapply Forall_impl; [by eapply IH |].
      intros [k [v |]]; cbn; [done | by right]. }
    assert (Htaken : forall name g',
              greedy (fun v rest =>
                        option_map (cons (name, Some v)) (match_nodes p rest))
                     EmptyString s = Some g' ->
              Forall (fun kv => match kv.2 with
                                | Some v => v ≠ EmptyString /\ no_slash v
                                | None => In (Opt kv.1) (n :: p)
                                end) g').
    { intros name g' Hg.
      apply greedy_taken in Hg as (more & rest & Hk & Hne & Hns).
      cbn in Hk. destruct (match_nodes p rest) as [g'' |] eqn:E; [| discriminate].
      injection Hk as <-. constructor; [done | by eapply Hweak]. }
    destruct n as [c | | name | name].
    + destruct s as [| c' r]; [discriminate |].
      destruct (Ascii.eqb c c'); [apply Hweak | discriminate].
    + destruct s as [| c' r]; [discriminate |].
      destruct (Ascii.eqb c' "010"); [discriminate | apply Hweak].
    + apply Htaken.
    + destruct (greedy _ EmptyString s) as [g' |] eqn:Eg.
      * intros [= <-]. by eapply Htaken.
      * destruct (match_nodes p s) as [g' |] eqn:E; [| discriminate].
        cbn. intros [= <-]. constructor; [by left | by eapply Hweak].
Qed.

Lemma span_word_spec s : forall w rest,
  span_word s = (w, rest) ->
  s = (w ++ rest)%string /\ all_word w /\ ends_word rest /\
  (String.length rest <= String.length s)%nat.
Proof.
  induction s as [| c r IH]; intros w rest; cbn.
  - intros [= <- <-]. by repeat split; try constructor.
  - destruct (is_word c) eqn:Ec.
    + destruct (span_word r) as [w' rest'] eqn:E. intros [= <- <-].
      destruct (IH _ _ eq_refl) as (-> & Hw & He & Hl).
      split; [done |]. split; [by constructor |]. split; [done |]. cbn [String.length]. lia.
    + intros [= <- <-]. split; [done |]. split; [constructor |].
      split; [exact Ec | cbn [String.length]; lia].
Qed.

Lemma span_word_app w rest :
  all_word w -> ends_word rest -> span_word (w ++ rest) = (w, rest).
Proof.
  induction w as [| c w IH]; intros Hw He.
  - rewrite append_nil_l. destruct rest as [| c r]; [done |].
    cbn in *. by rewrite He.
  - rewrite append_cons. cbn. inversion Hw as [| ? ? Hc Hw']; subst.
    rewrite Hc. by rewrite IH.
Qed.

Lemma sub_params_fuel_irrelevant fuel1 : forall fuel2 s,
  (String.length s <= fuel1)%nat -> (String.length s <= fuel2)%nat ->
  sub_params_fuel fuel1 s = sub_params_fuel fuel2 s.
Proof.
  induction fuel1 as [| fuel1 IH]; intros fuel2 s H1 H2.
  - destruct s; [by destruct fuel2 | cbn in H1; lia].
  - destruct s as [| c r]; [by destruct fuel2 |].
    destruct fuel2 as [| fuel2]; [cbn in H2; lia |].
    cbn in H1, H2. cbn [sub_params_fuel].
    destruct (Ascii.eqb c ":").
    + destruct (span_word r) as [w rest] eqn:E.
      destruct (span_word_spec _ _ _ E) as (_ & _ & _ & Hl).
      destruct w; [f_equal; apply IH; lia |].
      by rewrite (IH fuel2 rest) by lia.
    + f_equal. apply IH; lia.
Qed.

(** The equations of [sub_params]. *)
Lemma sub_params_cons c r :
  sub_params (String c r)
  = if Ascii.eqb c ":" then
      match span_word r with
      | (EmptyString, _) => String c (sub_params r)
      | (name, rest) => ("(?P<" ++ name ++ ">[^/]+)" ++ sub_params rest)%string
      end
    else String c (sub_params r).
Proof.
  unfold sub_params. cbn [String.length sub_params_fuel].
  destruct (Ascii.eqb c ":").
  - destruct (span_word r) as [w rest] eqn:E.
    destruct (span_word_spec _ _ _ E) as (_ & _ & _ & Hl).
    destruct w; [done |].
    by rewrite (sub_params_fuel_irrelevant _ (String.length rest) rest) by lia.
  - done.
Qed.

Lemma span_word_before_colon s tail w rest :
  span_word s = (w, rest) ->
  span_word (s ++ String ":" tail) = (w, (rest ++ String ":" tail)%string).
Proof.
  revert w rest. induction s as [| c r IH]; intros w rest.
  - cbn. intros [= <- <-]. done.
  - rewrite append_cons. cbn. destruct (is_word c).
    + destruct (span_word r) as [w' rest'] eqn:E. intros [= <- <-].
      by rewrite (IH _ _ eq_refl).
    + intros [= <- <-]. done.
Qed.

(** A colon followed by the word [name] becomes the group of that name
    over [[^/]+], wherever it stands in the template. *)
Lemma sub_params_segment name post :
  name ≠ EmptyString -> all_word name -> ends_word post ->
  forall pre,
    sub_params (pre ++ String ":" (name ++ post))
    = (sub_params pre ++ "(?P<" ++ name ++ ">[^/]+)" ++ sub_params post)%string.
Proof.
  intros Hne Hw He pre.
  remember (String.length pre) as n eqn:Hn.
  revert pre Hn. induction n as [n IH] using lt_wf_ind. intros pre Hn.
  destruct pre as [| c r].
  - rewrite append_nil_l, sub_params_cons. cbn [Ascii.eqb Bool.eqb].
    rewrite span_word_app by done. destruct name; [done |]. done.
  - rewrite append_cons, !sub_params_cons.
    destruct (Ascii.eqb c ":").
    + destruct (span_word r) as [w rest] eqn:E.
      rewrite (span_word_before_colon _ _ _ _ E).
      destruct (span_word_spec _ _ _ E) as (_ & _ & _ & Hl).
      destruct w.
      * rewrite append_cons. f_equal. eapply IH; [| reflexivity].
        subst n. cbn. lia.
      * rewrite !append_assoc. do 3 f_equal. 
        rewrite <- !append_assoc. rewrite (IH (String.length rest)); [| subst n; cbn; lia | done].
        by rewrite !append_assoc.
    + rewrite append_cons. f_equal. eapply IH; [| reflexivity].
      subst n. cbn. lia.
Qed.

Lemma re_match_groups pattern path params :
  re_match pattern path = Match params ->
  exists p,
    compile pattern = Some p /\
    Forall (fun kv => match kv.2 with
                      | Some v => v ≠ EmptyString /\ no_slash v
                      | None => In (Opt kv.1) p
                      end) params.
Proof.
  unfold re_match. destruct (compile pattern) as [p |]; [| discriminate].
  destruct (match_nodes p path) as [g |] eqn:E; [| discriminate].
  intros [= <-]. exists p. split; [done |]. by eapply match_nodes_groups.
Qed.

Lemma prefix_app (a b : string) : String.prefix a (a ++ b) = true.
Proof.
  induction a as [| c a IH]; [by destruct b |].
  rewrite append_cons. cbn [String.prefix].
  by destruct (ascii_dec c c).
Qed.

Lemma prefix_question c (x : string) :
  String.prefix "?" (String c x) = bool_decide (c = "?"%char).
Proof.
  cbn [String.prefix]. destruct (ascii_dec "?" c) as [<- | Hne].
  - by destruct x.
  - by rewrite bool_decide_false by congruence.
Qed.

(** The pattern of a template goes on with a question mark exactly when
    the template does. *)
Lemma sub_params_question (s t : string) :
  String.prefix "?" (sub_params s ++ t) = String.prefix "?" (s ++ t).
Proof.
  destruct s as [| c r]; [reflexivity |].
  rewrite sub_params_cons, append_cons, prefix_question.
  destruct (Ascii.eqb_spec c ":") as [-> | Hc].
  - destruct (span_word r) as [[| a w] rest].
    + by rewrite append_cons, prefix_question.
    + reflexivity.
  - by rewrite append_cons, prefix_question.
Qed.

Lemma span_until_word (w t : string) :
  all_word w -> span_until ">" (w ++ String ">" t) = (w, String ">" t).
Proof.
  induction w as [| c w IH]; intros Hw; [reflexivity |].
  inversion Hw as [| ? ? Hc Hw']; subst.
  rewrite append_cons. cbn [span_until].
  destruct (Ascii.eqb_spec c ">") as [-> | _]; [discriminate Hc |].
  by rewrite IH.
Qed.

Lemma no_question_app (a b : string) :
  forallb (fun c => negb (Ascii.eqb c "?")) (list_ascii_of_string (a ++ b))
  = forallb (fun c => negb (Ascii.eqb c "?")) (list_ascii_of_string a)
    && forallb (fun c => negb (Ascii.eqb c "?")) (list_ascii_of_string b).
Proof.
  induction a as [| c a IH]; [reflexivity |].
  rewrite append_cons. cbn [list_ascii_of_string forallb].
  by rewrite IH, andb_assoc.
Qed.

Lemma no_question_prefix (s t : string) :
  forallb (fun c => negb (Ascii.eqb c "?")) (list_ascii_of_string s) = true ->
  String.prefix "?" (s ++ String "$" t) = false.
Proof.
  destruct s as [| c r]; [reflexivity |].
  cbn [list_ascii_of_string forallb]. intros [Hc _]%andb_prop.
  rewrite append_cons, prefix_question.
  apply bool_decide_false. intros ->. discriminate Hc.
Qed.

(** The pattern of a template without a question mark has no optional
    group. *)
Lemma template_has_no_optional_group n : forall tmpl,
  String.length tmpl = n ->
  forallb (fun c => negb (Ascii.eqb c "?")) (list_ascii_of_string tmpl) = true ->
  forall fuel seen p,
    parse_nodes fuel seen (sub_params tmpl ++ "$") = Some p ->
    forall name, ¬ In (Opt name) p.
Proof.
  induction n as [n IH] using lt_wf_ind. intros tmpl Hn Hq fuel seen p Hp name.
  destruct fuel as [| fuel]; [by destruct (sub_params tmpl ++ "$")%string |].
  destruct tmpl as [| c r].
  { cbn in Hp. injection Hp as <-. by intros []. }
  pose proof Hq as Hq0. cbn [list_ascii_of_string forallb] in Hq.
  apply andb_prop in Hq as [Hc Hr].
  assert (Hlit :
    parse_nodes (S fuel) seen (String c (sub_params r ++ "$")) = Some p ->
    ¬ In (Opt name) p).
  { cbn [parse_nodes].
    destruct (String.eqb _ "$"); [intros [= <-]; by intros [] |].
    destruct (String.prefix "(?P<" (String c (sub_params r ++ "$"))) eqn:Epre.
    { exfalso. cbn [String.prefix] in Epre.
      destruct (ascii_dec "(" c); [| discriminate].
      assert (Hx : String.prefix "?" (sub_params r ++ "$") = true).
      { destruct (sub_params r ++ "$")%string as [| x y]; [discriminate |].
        cbn [String.prefix] in Epre |- *.
        destruct (ascii_dec "?" x); [by destruct y | discriminate]. }
      rewrite sub_params_question in Hx.
      by rewrite no_question_prefix in Hx. }
    destruct (is_meta c); [discriminate |].
    destruct (parse_nodes fuel seen (sub_params r ++ "$")) as [p' |] eqn:Ep';
      [| discriminate].
    cbn. intros [= <-] [Hin | Hin].
    - by destruct (Ascii.eqb c ".").
    - revert Hin. eapply (IH (String.length r)); [subst n; cbn; lia | done | done |].
      exact Ep'. }
  rewrite sub_params_cons in Hp.
  destruct (Ascii.eqb_spec c ":") as [-> | Hcolon];
    [| rewrite append_cons in Hp; by apply Hlit].
  destruct (span_word r) as [[| a w] rest] eqn:Es;
    [rewrite append_cons in Hp; by apply Hlit |].
  destruct (span_word_spec _ _ _ Es) as (-> & Hw & He & Hl).
  rewrite no_question_app in Hr. apply andb_prop in Hr as [_ Hrest].
  rewrite !append_assoc in Hp.
  remember (String a w) as nm eqn:Enm.
  change ("(?P<" ++ nm ++ ">[^/]+)" ++ sub_params rest ++ "$")%string
    with (String "(" (String "?" (String "P" (String "<"
            (nm ++ String ">" ("[^/]+)" ++ sub_params rest ++ "$"))))))%string
    in Hp.
  set (tail := (nm ++ String ">" ("[^/]+)" ++ sub_params rest ++ "$"))%string)
    in Hp.
  assert (E1 : String.eqb (String "(" (String "?" (String "P" (String "<" tail))))
                          "$" = false) by reflexivity.
  assert (E2 : String.prefix "(?P<"
                 (String "(" (String "?" (String "P" (String "<" tail)))) = true)
    by apply (prefix_app "(?P<" tail).
  cbn [parse_nodes] in Hp. rewrite E1, E2 in Hp.
  change (drop_chars 4 (String "(" (String "?" (String "P" (String "<" tail)))))
    with tail in Hp.
  subst tail. rewrite span_until_word in Hp by done.
  cbv beta iota zeta in Hp.
  destruct (is_identifier nm && negb (existsb (String.eqb nm) seen)
            && String.prefix ">[^/]+)"
                 (String ">" ("[^/]+)" ++ sub_params rest ++ "$")));
    [| discriminate].
  change (drop_chars 7 (String ">" ("[^/]+)" ++ sub_params rest ++ "$")))
    with (sub_params rest ++ "$")%string in Hp.
  rewrite sub_params_question, no_question_prefix in Hp by done.
  destruct (parse_nodes fuel (nm :: seen) (sub_params rest ++ "$")) as [p' |] eqn:Ep';
    [| discriminate].
  cbn in Hp. injection Hp as <-. intros [Hin | Hin]; [discriminate |].
  revert Hin. eapply (IH (String.length rest)); [| done | done | exact Ep'].
  subst n. cbn [String.length] in *. lia.
Qed.

Lemma compile_template_no_optional_group tmpl p :
  forallb (fun c => negb (is_meta c)) (list_ascii_of_string tmpl) = true ->
  compile (RiftHTTPServer._path_to_regex tmpl) = Some p ->
  forall name, ¬ In (Opt name) p.
Proof.
  intros Hm. unfold RiftHTTPServer._path_to_regex.
  rewrite append_cons, append_nil_l. cbn [compile].
  apply (template_has_no_optional_group (String.length tmpl)); [done |].
  rewrite forallb_forall in *. intros c Hc. specialize (Hm c Hc).
  destruct (Ascii.eqb_spec c "?") as [-> | _]; [discriminate Hm | done].
Qed.

(** A dot in a template stands for any character but the newline. *)
Example dot_in_template :
  re_match (RiftHTTPServer._path_to_regex "/v1.0/:id") "/v1x0/7"
  = Match [("id", Some "7")].
Proof. reflexivity. Qed.

End templates.

Section routes.
Import Re RiftHTTPServer.
Context {Callable : Type}.
Implicit Types (routes : list (route_entry Callable)) (h : Callable).

Lemma match_routes_skip routes method path r :
  skipped method path r ->
  match_routes (r :: routes) method path = match_routes routes method path.
Proof.
  intros [Hm | Hp]; cbn.
  - by rewrite bool_decide_false.
  - destruct (bool_decide (method ∈ methods r)); [by rewrite Hp | done].
Qed.

Lemma match_routes_hit routes method path r params :
  method ∈ methods r -> re_match (pattern r) path = Match params ->
  match_routes (r :: routes) method path = Found (handler r) params.
Proof. intros Hm Hp. cbn. rewrite bool_decide_true by done. by rewrite Hp. Qed.

Lemma match_routes_not_found routes method path :
  match_routes routes method path = NotFound <->
  Forall (skipped method path) routes.
Proof.
  induction routes as [| r routes IH]; [by split |].
  split.
  - cbn. destruct (bool_decide (method ∈ methods r)) eqn:Em.
    + destruct (re_match (pattern r) path) eqn:Ep; try discriminate.
      intros Hn. constructor; [by right | by apply IH].
    + apply bool_decide_eq_false in Em. intros Hn.
      constructor; [by left | by apply IH].
  - intros Hall. inversion Hall as [| ? ? Hr Hrest]; subst.
    rewrite match_routes_skip by done. by apply IH.
Qed.

Lemma match_routes_found routes method path h params :
  match_routes routes method path = Found h params <->
  exists before r after,
    routes = before ++ r :: after /\
    Forall (skipped method path) before /\
    method ∈ methods r /\ re_match (pattern r) path = Match params /\
    handler r = h.
Proof.
  induction routes as [| r routes IH].
  - split; [discriminate |]. intros (b & r & a & E & _). by destruct b.
  - split.
    + cbn. destruct (bool_decide (method ∈ methods r)) eqn:Em.
      * apply bool_decide_eq_true in Em.
        destruct (re_match (pattern r) path) as [g | |] eqn:Ep; try discriminate.
        -- intros [= <- <-]. exists [], r, routes. by repeat split.
        -- intros Hf. apply IH in Hf as (b & r' & a & -> & Hb & Hr').
           exists (r :: b), r', a. split; [done |].
           split; [constructor; [by right | done] | done].
      * apply bool_decide_eq_false in Em.
        intros Hf. apply IH in Hf as (b & r' & a & -> & Hb & Hr').
        exists (r :: b), r', a. split; [done |].
        split; [constructor; [by left | done] | done].
    + intros (b & r' & a & E & Hb & Hm & Hp & <-).
      destruct b as [| r0 b]; cbn in E; injection E as -> ->.
      * by apply match_routes_hit.
      * inversion Hb as [| ? ? Hr0 Hb']; subst.
        rewrite match_routes_skip by done. apply IH.
        exists b, r', a. by repeat split.
Qed.

(** C3. The scan returns the handler and the named segments of the first
    route, in registration order, whose method set holds the method and
    whose pattern matches the path: every route registered before it was
    passed over. *)
Theorem first_registered_match_wins (srv : RiftHTTPServer.t Callable)
    (method path : string) h (params : groupdict) :
  _match_route srv method path = Found h params <->
  exists before r after,
    _routes srv = before ++ r :: after /\
    Forall (skipped method path) before /\
    method ∈ methods r /\ re_match (pattern r) path = Match params /\
    handler r = h.
Proof. apply match_routes_found. Qed.

End routes.

Lemma first_registered_match_wins_witness :
  RiftHTTPServer._match_route Demo.param_first "GET" "/a/static"
  = RiftHTTPServer.Found "show_item" [("id", Some "static")] /\
  RiftHTTPServer._match_route Demo.static_first "GET" "/a/static"
  = RiftHTTPServer.Found "show_static" [] /\
  RiftHTTPServer._match_route Demo.static_first "GET" "/a/17"
  = RiftHTTPServer.Found "show_item" [("id", Some "17")] /\
  RiftHandler.called
    (RiftHandler._handle_request (lib:=Demo.lib) (rt:=Demo.runtime)
       Demo.param_first "GET" (Demo.plain_get "/a/static") []).2
  = ["show_item"].
Proof.
  split_and!; [| | | reflexivity].
  - apply first_registered_match_wins.
    exists [], (RiftHTTPServer.Route "^/a/(?P<id>[^/]+)$" ["GET"] "show_item" "/a/:id"),
      [RiftHTTPServer.Route "^/a/static$" ["GET"] "show_static" "/a/static"].
    split; [reflexivity |]. split; [constructor |].
    split; [cbn; constructor |]. split; reflexivity.
  - apply first_registered_match_wins.
    exists [], (RiftHTTPServer.Route "^/a/static$" ["GET"] "show_static" "/a/static"),
      [RiftHTTPServer.Route "^/a/(?P<id>[^/]+)$" ["GET"] "show_item" "/a/:id"].
    split; [reflexivity |]. split; [constructor |].
    split; [cbn; constructor |]. split; reflexivity.
  - apply first_registered_match_wins.
    exists [RiftHTTPServer.Route "^/a/static$" ["GET"] "show_static" "/a/static"],
      (RiftHTTPServer.Route "^/a/(?P<id>[^/]+)$" ["GET"] "show_item" "/a/:id"), [].
    split; [reflexivity |].
    split; [constructor; [right; reflexivity | constructor] |].
    split; [cbn; constructor |]. split; reflexivity.
Defined.

Section named_segments.
Import Re RiftHTTPServer.
Context {Callable : Type}.

(** C10 (amended). A colon followed by a word, anywhere in a template,
    compiles to the group of that name over [[^/]+] between the anchors,
    and the pattern goes on with a question mark after the group exactly
    when the template does after the segment. On the patterns of literal
    characters, dots, named groups and named groups followed by a
    question mark: whenever a request is matched, each named parameter
    is a non-empty text without a slash, or it has no value, and then
    its group is one followed by a question mark in the pattern of the
    route that matched. When every route comes from a template without
    regular-expression operators, every named parameter of a matched
    request is a non-empty text without a slash. The template [/a/:id]
    matches neither [/a/] nor [/a/b/c]. *)
Theorem named_segment_is_one_path_segment (srv : RiftHTTPServer.t Callable)
    (method path : string) (h : Callable) (params : groupdict) :
  (forall pre name post,
     name ≠ EmptyString -> all_word name -> ends_word post ->
     _path_to_regex (pre ++ String ":" (name ++ post))
     = ("^" ++ sub_params pre ++ "(?P<" ++ name ++ ">[^/]+)"
            ++ sub_params post ++ "$")%string /\
     String.prefix "?" (sub_params post ++ "$")
     = String.prefix "?" (post ++ "$")) /\
  (_match_route srv method path = Found h params ->
   exists r p,
     r ∈ _routes srv /\ handler r = h /\ compile (pattern r) = Some p /\
     Forall (fun kv => match kv.2 with
                       | Some v => v ≠ EmptyString /\ no_slash v
                       | None => In (Opt kv.1) p
                       end) params) /\
  (Forall (fun r => exists tmpl,
             pattern r = _path_to_regex tmpl /\
             forallb (fun c => negb (is_meta c)) (list_ascii_of_string tmpl)
             = true) (_routes srv) ->
   _match_route srv method path = Found h params ->
   Forall (fun kv => exists v,
             kv.2 = Some v /\ v ≠ EmptyString /\ no_slash v) params) /\
  _path_to_regex "/a/:id" = "^/a/(?P<id>[^/]+)$" /\
  re_match (_path_to_regex "/a/:id") "/a/" = NoMatch /\
  re_match (_path_to_regex "/a/:id") "/a/b/c" = NoMatch.
Proof.
  assert (Hfound :
    _match_route srv method path = Found h params ->
    exists r p,
      r ∈ _routes srv /\ handler r = h /\ compile (pattern r) = Some p /\
      Forall (fun kv => match kv.2 with
                        | Some v => v ≠ EmptyString /\ no_slash v
                        | None => In (Opt kv.1) p
                        end) params).
  { intros Hf.
    apply match_routes_found in Hf as (b & r & a & Er & _ & _ & Hp & Hh).
    apply re_match_groups in Hp as (p & Hc & Hg).
    exists r, p. split; [| done].
    rewrite Er. apply elem_of_app. right. by left. }
  split_and!; try reflexivity; [| done |].
  - intros pre name post Hne Hw He. split.
    + unfold _path_to_regex.
      rewrite sub_params_segment by done. by rewrite !append_assoc.
    + apply sub_params_question.
  - intros Hplain Hf. destruct (Hfound Hf) as (r & p & Hr & _ & Hc & Hg).
    rewrite Forall_forall in Hplain.
    destruct (Hplain r) as (tmpl & Hpat & Hm);
      [first [exact Hr | by apply list_elem_of_In] |].
    rewrite Hpat in Hc.
    pose proof (compile_template_no_optional_group tmpl p Hm Hc) as Hno.
    eapply Forall_impl; [exact Hg |].
    intros [k [v |]]; cbn; [intros [? ?]; by exists v | intros Hin].
    by destruct (Hno k).
Qed.

End named_segments.

Lemma named_segment_is_one_path_segment_witness :
  RiftHTTPServer._path_to_regex "/users/:uid/posts/:pid"
  = "^/users/(?P<uid>[^/]+)/posts/(?P<pid>[^/]+)$" /\
  RiftHTTPServer._match_route
    (RiftHTTPServer.get "/users/:uid/posts/:pid" "show_post" RiftHTTPServer.init)
    "GET" "/users/42/posts/7"
  = RiftHTTPServer.Found "show_post" [("uid", Some "42"); ("pid", Some "7")] /\
  Forall (fun kv : string * option string =>
            exists v, kv.2 = Some v /\ v ≠ EmptyString /\ Re.no_slash v)
         [("uid", Some "42"); ("pid", Some "7")].
Proof.
  pose proof (named_segment_is_one_path_segment
                (RiftHTTPServer.get "/users/:uid/posts/:pid" "show_post"
                                    RiftHTTPServer.init)
                "GET" "/users/42/posts/7" "show_post"
                [("uid", Some "42"); ("pid", Some "7")])
    as (Hseg & _ & Hplain & _).
  split_and!.
  - refine (proj1 (Hseg "/users/" "uid" "/posts/:pid" _ _ _));
      [discriminate | repeat constructor | reflexivity].
  - reflexivity.
  - apply Hplain; [| reflexivity].
    constructor; [| constructor].
    exists "/users/:uid/posts/:pid". split; reflexivity.
Defined.

(** C10 as stated fails on a segment followed by a question mark: the
    template [/a/:id?] compiles to a pattern whose group is optional, the
    request [GET /a/] is matched, and its parameter [id] has no value
    ([None] in the params dict), so it is not a non-empty string. *)
Lemma optional_segment_extracts_none :
  RiftHTTPServer._path_to_regex "/a/:id?" = "^/a/(?P<id>[^/]+)?$" /\
  RiftHTTPServer._match_route
    (RiftHTTPServer.get "/a/:id?" "show_item" RiftHTTPServer.init) "GET" "/a/"
  = RiftHTTPServer.Found "show_item" [("id", None)] /\
  RiftHandler.groupdict_value [("id", None)] = VDict [(latin1 "id", VNone)] /\
  RiftHTTPServer._match_route
    (RiftHTTPServer.get "/a/:id?" "show_item" RiftHTTPServer.init) "GET" "/a/7"
  = RiftHTTPServer.Found "show_item" [("id", Some "7")].
Proof. split_and!; reflexivity. Qed.


(** ** The request handler *)

Section handler.
Import Re RiftHTTPServer RiftHandler.
Context {Callable State : Type} {lib : PyLib} {rt : Runtime Callable State}.
Implicit Types (st : State) (request : value) (mws : list Callable).

Local Ltac step_M :=
  unfold mbind, M_bind, RiftHandler.bind, mret, M_ret, ret, emit, emit_all,
    lift, call; cbn.

Lemma dumps_error_body message :
  Json.dumps (error_body message) = Ok (Json.error_json message).
Proof. reflexivity. Qed.

Lemma send_error_trace status message st :
  _send_error (Callable:=Callable) status (error_body message) st
  = (Value tt, st, map Wire (error_response status message)).
Proof. reflexivity. Qed.

Lemma respond_trace v st :
  respond (Callable:=Callable) v st = (Value tt, st, map Wire (response_of v)).
Proof.
  unfold respond, response_of. destruct (_send_response v) as [ws [m |]]; cbn.
  - step_M. by rewrite map_app.
  - step_M. by rewrite !app_nil_r.
Qed.

Lemma run_middleware_nil request st :
  run_middleware (Callable:=Callable) [] request st = (Value (Some request), st, []).
Proof. reflexivity. Qed.

Lemma run_middleware_pass mw mws request st v request' st' :
  _call mw request st = (Returned v, request', st') ->
  is_response v = false ->
  run_middleware (mw :: mws) request st
  = let '(r, st2, tr) := run_middleware mws request' st' in
    (r, st2, Call mw request :: tr).
Proof.
  intros Hc Hv. cbn [run_middleware]. step_M. rewrite Hc. cbn. rewrite Hv.
  by destruct (run_middleware mws request' st') as [[r st2] tr].
Qed.

Lemma run_middleware_answer mw mws request st v request' st' :
  _call mw request st = (Returned v, request', st') ->
  is_response v = true ->
  run_middleware (mw :: mws) request st
  = (Value None, st', Call mw request :: map Wire (response_of v)).
Proof.
  intros Hc Hv. cbn [run_middleware]. step_M. rewrite Hc. cbn. rewrite Hv.
  rewrite respond_trace. cbn. by rewrite app_nil_r.
Qed.

Lemma run_middleware_raise mw mws request st message request' st' :
  _call mw request st = (Raised message, request', st') ->
  run_middleware (mw :: mws) request st
  = (Value None, st', Call mw request :: map Wire (error_response 500 message)).
Proof.
  intros Hc. cbn [run_middleware]. step_M. by rewrite Hc.
Qed.

Lemma run_handler_return h request st v request' st' :
  _call h request st = (Returned v, request', st') ->
  run_handler h request st
  = (Value tt, st', Call h request :: map Wire (response_of v)).
Proof.
  intros Hc. unfold run_handler. step_M. rewrite Hc. cbn.
  by rewrite respond_trace.
Qed.

Lemma run_handler_raise h request st message request' st' :
  _call h request st = (Raised message, request', st') ->
  run_handler h request st
  = (Value tt, st', Call h request :: map Wire (error_response 500 message)).
Proof. intros Hc. unfold run_handler. step_M. by rewrite Hc. Qed.

Lemma called_wire (ws : list wire) : called (Callable:=Callable) (map Wire ws) = [].
Proof. by induction ws. Qed.

Lemma written_wire (ws : list wire) : written (Callable:=Callable) (map Wire ws) = ws.
Proof. induction ws; [done |]. cbn. by f_equal. Qed.

(** The middleware before the one that ends the chain all pass. *)
Lemma run_middleware_through before : forall mws request st request1 st1,
  pass_through before request st = Some (request1, st1) ->
  exists tr,
    called tr = before /\ written tr = [] /\
    run_middleware (before ++ mws) request st
    = let '(r, st2, tr2) := run_middleware mws request1 st1 in
      (r, st2, tr ++ tr2).
Proof.
  induction before as [| mw before IH]; intros mws request st request1 st1.
  - intros [= <- <-]. exists []. split; [done |]. split; [done |].
    cbn [app]. by destruct (run_middleware mws request st) as [[r st2] tr2].
  - cbn [pass_through].
    destruct (_call mw request st) as [[[v | m] request'] st'] eqn:Hc;
      [| discriminate].
    destruct (is_response v) eqn:Hv; [discriminate |]. intros Hp.
    destruct (IH mws _ _ _ _ Hp) as (tr & Hcalled & Hwritten & Hrun).
    exists (Call mw request :: tr). split; [cbn; by f_equal |].
    split; [done |].
    change ((mw :: before) ++ mws) with (mw :: (before ++ mws)).
    rewrite (run_middleware_pass _ _ _ _ _ _ _ Hc Hv), Hrun.
    by destruct (run_middleware mws request1 st1) as [[r st2] tr2].
Qed.



Lemma run_chain_eq mws h request st :
  run_chain mws h request st
  = match run_middleware mws request st with
    | (Value None, st1, tr) => (Value tt, st1, tr)
    | (Value (Some request'), st1, tr) =>
        let '(e, st2, tr2) := run_handler h request' st1 in (e, st2, tr ++ tr2)
    | (Raises e, st1, tr) => (Raises e, st1, tr)
    | (Unmodelled, st1, tr) => (Unmodelled, st1, tr)
    end.
Proof.
  unfold run_chain. unfold mbind at 1, M_bind, RiftHandler.bind.
  destruct (run_middleware mws request st) as [[[[r |] | e |] st1] tr]; cbn.
  - by destruct (run_handler h r st1) as [[e st2] tr2].
  - unfold mret, M_ret, ret. by rewrite app_nil_r.
  - done.
  - done.
Qed.

Lemma called_app (a b : list (event (Callable:=Callable))) :
  called (a ++ b) = called a ++ called b.
Proof. unfold called. apply omap_app. Qed.

Lemma written_app (a b : list (event (Callable:=Callable))) :
  written (a ++ b) = written a ++ written b.
Proof. unfold written. apply omap_app. Qed.

Lemma called_cons_call f request (tr : list (event (Callable:=Callable))) :
  called (Call f request :: tr) = f :: called tr.
Proof. reflexivity. Qed.

Lemma written_cons_call f request (tr : list (event (Callable:=Callable))) :
  written (Call f request :: tr) = written tr.
Proof. reflexivity. Qed.

Lemma run_handler_called h request st :
  called (run_handler h request st).2 = [h].
Proof.
  destruct (_call h request st) as [[[v | m] request'] st'] eqn:Hc.
  - rewrite (run_handler_return _ _ _ _ _ _ Hc). cbn [snd].
    by rewrite called_cons_call, called_wire.
  - rewrite (run_handler_raise _ _ _ _ _ _ Hc). cbn [snd].
    by rewrite called_cons_call, called_wire.
Qed.

(** The callbacks invoked are an initial segment of the middleware, in
    the order of the list, followed by the handler. *)
Lemma run_chain_called_prefix mws h : forall request st,
  exists k, called (run_chain mws h request st).2 = take k (mws ++ [h]).
Proof.
  induction mws as [| mw mws IH]; intros request st.
  - exists 1%nat. rewrite run_chain_eq, run_middleware_nil.
    pose proof (run_handler_called h request st) as Hh.
    destruct (run_handler h request st) as [[e st2] tr2]. exact Hh.
  - destruct (_call mw request st) as [[[v | m] request'] st'] eqn:Hc.
    + destruct (is_response v) eqn:Hv.
      * exists 1%nat. rewrite run_chain_eq.
        rewrite (run_middleware_answer _ _ _ _ _ _ _ Hc Hv). cbn [snd].
        by rewrite called_cons_call, called_wire.
      * destruct (IH request' st') as (k & Hk). exists (S k).
        rewrite run_chain_eq in Hk |- *.
        rewrite (run_middleware_pass _ _ _ _ _ _ _ Hc Hv).
        destruct (run_middleware mws request' st') as [[[[r |] | e |] st1] tr];
          cbn [snd] in *; rewrite ?called_cons_call; try (by rewrite Hk).
        destruct (run_handler h r st1) as [[e st2] tr2]. cbn [snd app] in *.
        rewrite called_cons_call. by rewrite Hk.
    + exists 1%nat. rewrite run_chain_eq.
      rewrite (run_middleware_raise _ _ _ _ _ _ _ Hc). cbn [snd].
      by rewrite called_cons_call, called_wire.
Qed.

Lemma handle_request_routed srv method inc st path query_string h params request :
  urlparse (target inc) = (path, query_string) ->
  static_mount (_static_routes srv) path = None ->
  _match_route srv method path = Found h params ->
  build_request method path params
    (single_or_list (parse_qs (latin1 query_string))) inc = Ok request ->
  _handle_request srv method inc st = run_chain (_middleware srv) h request st.
Proof.
  intros Hu Hs Hm Hb. unfold _handle_request. rewrite Hu, Hs, Hm.
  unfold mbind at 1, M_bind, RiftHandler.bind, lift. rewrite Hb.
  by destruct (run_chain (_middleware srv) h request st) as [[e st2] tr2].
Qed.

Lemma handle_request_not_found srv method inc st :
  static_mount (_static_routes srv) (urlparse (target inc)).1 = None ->
  Forall (skipped method (urlparse (target inc)).1) (_routes srv) ->
  _handle_request srv method inc st
  = (Value tt, st, map Wire (error_response 404 (latin1 "Not found"))).
Proof.
  intros Hs Hr. unfold _handle_request.
  destruct (urlparse (target inc)) as [path query_string]. cbn in Hs, Hr.
  rewrite Hs. apply match_routes_not_found in Hr. unfold _match_route.
  rewrite Hr. apply send_error_trace.
Qed.

(** C2. When every route is passed over for the request (its method set
    lacks the method, or its pattern does not match the path), the
    dispatcher does exactly what it does for a server without any route:
    a route whose pattern matches under another method changes nothing.
    The path being under no static mount, the answer is the 404 error
    response, and no 405 is sent. *)
Theorem method_mismatch_is_not_found (srv : RiftHTTPServer.t Callable)
    (method : string) (inc : incoming) st :
  Forall (skipped method (urlparse (target inc)).1) (_routes srv) ->
  _match_route srv method (urlparse (target inc)).1 = NotFound /\
  _handle_request srv method inc st
  = _handle_request (Server [] (_middleware srv) (_static_routes srv))
                    method inc st /\
  (static_mount (_static_routes srv) (urlparse (target inc)).1 = None ->
   _handle_request srv method inc st
   = (Value tt, st,
      [Wire (send_response 404);
       Wire (send_header "Content-Type" "application/json");
       Wire end_headers;
       Wire (wfile_write (Json.error_json (latin1 "Not found")))]) /\
   Wire (send_response 405) ∉ (_handle_request srv method inc st).2).
Proof.
  intros Hr.
  pose proof (proj2 (match_routes_not_found _ _ _) Hr) as Hn.
  split; [exact Hn |]. split.
  - unfold _handle_request, _match_route in *.
    destruct (urlparse (target inc)) as [path query_string]. cbn in Hn.
    cbn [_static_routes _routes _middleware]. by rewrite Hn.
  - intros Hs. rewrite handle_request_not_found by done. split; [done |].
    cbn. rewrite !elem_of_cons, elem_of_nil.
    intros [E | [E | [E | [E | []]]]]; discriminate E.
Qed.

(** C7. Once a request is routed and its request dict built, the
    callbacks run are an initial segment of the middleware in
    registration order followed by the handler. If the middleware before
    [mw] all return without a response-shaped value and [mw] returns one,
    exactly they and [mw] are called and the value goes to
    [_send_response]; if [mw] raises, exactly they and [mw] are called
    and the 500 error response with the body [{'error': message}] is
    sent; neither the later middleware nor the handler runs. If all
    middleware pass, the handler is called, and its raising gives the
    same 500 error response. *)
Theorem middleware_chain (srv : RiftHTTPServer.t Callable)
    (method : string) (inc : incoming) st
    (path query_string : string) (h : Callable) (params : groupdict)
    (request : value) :
  urlparse (target inc) = (path, query_string) ->
  static_mount (_static_routes srv) path = None ->
  _match_route srv method path = Found h params ->
  build_request method path params
    (single_or_list (parse_qs (latin1 query_string))) inc = Ok request ->
  let run := _handle_request srv method inc st in
  (forall m, _middleware (middleware m srv) = _middleware srv ++ [m]) /\
  (exists k, called run.2 = take k (_middleware srv ++ [h])) /\
  (forall before mw after request1 st1,
     _middleware srv = before ++ mw :: after ->
     pass_through before request st = Some (request1, st1) ->
     (forall v request2 st2,
        _call mw request1 st1 = (Returned v, request2, st2) ->
        is_response v = true ->
        called run.2 = before ++ [mw] /\ written run.2 = response_of v /\
        run.1 = (Value tt, st2)) /\
     (forall message request2 st2,
        _call mw request1 st1 = (Raised message, request2, st2) ->
        called run.2 = before ++ [mw] /\
        written run.2 = error_response 500 message /\
        run.1 = (Value tt, st2))) /\
  (forall request1 st1,
     pass_through (_middleware srv) request st = Some (request1, st1) ->
     (forall v request2 st2,
        _call h request1 st1 = (Returned v, request2, st2) ->
        called run.2 = _middleware srv ++ [h] /\
        written run.2 = response_of v) /\
     (forall message request2 st2,
        _call h request1 st1 = (Raised message, request2, st2) ->
        called run.2 = _middleware srv ++ [h] /\
        written run.2 = error_response 500 message)) /\
  (forall message,
     error_response 500 message
     = [send_response 500; send_header "Content-Type" "application/json";
        end_headers; wfile_write (Json.error_json message)] /\
     Json.dumps (error_body message) = Ok (Json.error_json message)).
Proof.
  intros Hu Hs Hm Hb. cbv zeta.
  rewrite (handle_request_routed _ _ _ _ _ _ _ _ _ Hu Hs Hm Hb).
  split; [done |]. split; [apply run_chain_called_prefix |].
  split; [| split; [| done]].
  - intros before mw after request1 st1 Emw Hpass.
    rewrite Emw, run_chain_eq.
    destruct (run_middleware_through before (mw :: after) _ _ _ _ Hpass)
      as (tr & Hcalled & Hwritten & ->).
    split.
    + intros v request2 st2 Hc Hv.
      rewrite (run_middleware_answer _ _ _ _ _ _ _ Hc Hv). cbn [fst snd].
      rewrite called_app, written_app, called_cons_call, written_cons_call.
      rewrite called_wire, written_wire, Hcalled, Hwritten. done.
    + intros message request2 st2 Hc.
      rewrite (run_middleware_raise _ _ _ _ _ _ _ Hc). cbn [fst snd].
      rewrite called_app, written_app, called_cons_call, written_cons_call.
      rewrite called_wire, written_wire, Hcalled, Hwritten. done.
  - intros request1 st1 Hpass. rewrite run_chain_eq.
    destruct (run_middleware_through _ [] _ _ _ _ Hpass)
      as (tr & Hcalled & Hwritten & Hrun).
    rewrite app_nil_r in Hrun. rewrite Hrun, run_middleware_nil.
    split.
    + intros v request2 st2 Hc.
      rewrite (run_handler_return _ _ _ _ _ _ Hc). cbn [fst snd].
      rewrite app_nil_r, called_app, written_app.
      rewrite called_cons_call, written_cons_call.
      rewrite called_wire, written_wire, Hcalled, Hwritten. done.
    + intros message request2 st2 Hc.
      rewrite (run_handler_raise _ _ _ _ _ _ Hc). cbn [fst snd].
      rewrite app_nil_r, called_app, written_app.
      rewrite called_cons_call, written_cons_call.
      rewrite called_wire, written_wire, Hcalled, Hwritten. done.
Qed.

End handler.

Lemma method_mismatch_is_not_found_witness :
  Re.re_match "^/a/(?P<id>[^/]+)$" "/a/17" = Re.Match [("id", Some "17")] /\
  RiftHandler._handle_request (lib:=Demo.lib) (rt:=Demo.runtime)
    Demo.param_first "POST" (Demo.plain_get "/a/17") []
  = (RiftHandler.Value tt, [],
     [RiftHandler.Wire (send_response 404);
      RiftHandler.Wire (send_header "Content-Type" "application/json");
      RiftHandler.Wire end_headers;
      RiftHandler.Wire (wfile_write Demo.not_found_json)]) /\
  RiftHandler._handle_request (lib:=Demo.lib) (rt:=Demo.runtime)
    Demo.param_first "POST" (Demo.plain_get "/a/17") []
  = RiftHandler._handle_request (lib:=Demo.lib) (rt:=Demo.runtime)
      Demo.param_first "GET" (Demo.plain_get "/nowhere") [].
Proof.
  assert (Hpost : Forall (RiftHTTPServer.skipped "POST" "/a/17")
                         (RiftHTTPServer._routes Demo.param_first)).
  { assert (Hno : "POST" ∉ ["GET"]).
    { rewrite elem_of_cons, elem_of_nil. intros [E | []]; discriminate E. }
    constructor; [left; exact Hno |]. constructor; [left; exact Hno |].
    constructor. }
  assert (Hget : Forall (RiftHTTPServer.skipped "GET" "/nowhere")
                        (RiftHTTPServer._routes Demo.param_first)).
  { constructor; [right; reflexivity |]. constructor; [right; reflexivity |].
    constructor. }
  destruct (method_mismatch_is_not_found (lib:=Demo.lib) (rt:=Demo.runtime)
              Demo.param_first "POST" (Demo.plain_get "/a/17") [] Hpost)
    as (_ & _ & H1).
  destruct (method_mismatch_is_not_found (lib:=Demo.lib) (rt:=Demo.runtime)
              Demo.param_first "GET" (Demo.plain_get "/nowhere") [] Hget)
    as (_ & _ & H2).
  destruct (H1 eq_refl) as (H1' & _). destruct (H2 eq_refl) as (H2' & _).
  split; [reflexivity |]. split; [exact H1' |]. rewrite H1', H2'. reflexivity.
Defined.

Lemma middleware_chain_witness :
  let run srv :=
    RiftHandler._handle_request (lib:=Demo.lib) (rt:=Demo.runtime)
      srv "GET" (Demo.plain_get "/a/17") [] in
  (RiftHandler.called (run Demo.guarded).2 = ["log"; "auth"] /\
   RiftHandler.written (run Demo.guarded).2
   = [send_response 401; end_headers]) /\
  (RiftHandler.called (run Demo.failing).2 = ["log"; "boom"] /\
   RiftHandler.written (run Demo.failing).2
   = RiftHandler.error_response 500 (latin1 "boom")) /\
  (RiftHandler.called (run Demo.logged).2 = ["log"; "show_item"] /\
   RiftHandler.written (run Demo.logged).2
   = [send_response 200; end_headers]).
Proof.
  cbv zeta.
  pose proof (middleware_chain (lib:=Demo.lib) (rt:=Demo.runtime)
                Demo.guarded "GET" (Demo.plain_get "/a/17") []
                "/a/17" EmptyString "show_item" [("id", Some "17")]
                Demo.request_17 eq_refl eq_refl eq_refl eq_refl)
    as (_ & _ & Hmw & _).
  pose proof (middleware_chain (lib:=Demo.lib) (rt:=Demo.runtime)
                Demo.failing "GET" (Demo.plain_get "/a/17") []
                "/a/17" EmptyString "show_item" [("id", Some "17")]
                Demo.request_17 eq_refl eq_refl eq_refl eq_refl)
    as (_ & _ & Hmw' & _).
  pose proof (middleware_chain (lib:=Demo.lib) (rt:=Demo.runtime)
                Demo.logged "GET" (Demo.plain_get "/a/17") []
                "/a/17" EmptyString "show_item" [("id", Some "17")]
                Demo.request_17 eq_refl eq_refl eq_refl eq_refl)
    as (_ & _ & _ & Hh & _).
  cbv zeta in Hmw, Hmw', Hh.
  destruct (Hmw ["log"] "auth" ["boom"] Demo.request_17 ["log"]
              eq_refl eq_refl) as (Hanswer & _).
  destruct (Hanswer (Demo.status_dict 401) Demo.request_17 ["log"; "auth"]
              eq_refl eq_refl) as (C1 & W1 & _).
  destruct (Hmw' ["log"] "boom" [] Demo.request_17 ["log"]
              eq_refl eq_refl) as (_ & Hraise).
  destruct (Hraise (latin1 "boom") Demo.request_17 ["log"; "boom"] eq_refl)
    as (C2 & W2 & _).
  destruct (Hh Demo.request_17 ["log"] eq_refl) as (Hret & _).
  destruct (Hret (Demo.status_dict 200) Demo.request_17 ["log"; "show_item"]
              eq_refl) as (C3 & W3).
  split; [split; [exact C1 | exact W1] |].
  split; [split; [exact C2 | exact W2] |].
  split; [exact C3 | exact W3].
Defined.

(** ** The body decoder *)

Section body_decoder.
Import RiftHTTPServer.
Context {lib : PyLib}.

(** An empty body decodes to the empty mapping, whatever the type. *)
Lemma parse_body_empty content_type : _parse_body content_type [] = Ok (VDict []).
Proof. reflexivity. Qed.

(** Malformed JSON in well-formed UTF-8 gives the empty mapping. *)
Lemma parse_body_malformed_json content_type b body text :
  Seq.contains "application/json" content_type = true ->
  Utf8.decode (b :: body) = Ok text ->
  json_loads text = Raise JSONDecodeError ->
  _parse_body content_type (b :: body) = Ok (VDict []).
Proof. intros Hc Hd Hj. unfold _parse_body. rewrite Hc, Hd. cbn. by rewrite Hj. Qed.

(** A JSON or url-encoded body that is not well-formed UTF-8 raises. *)
Lemma parse_body_strict_decode content_type b body e :
  Seq.contains "application/json" content_type = true \/
  Seq.contains "application/x-www-form-urlencoded" content_type = true ->
  Utf8.decode (b :: body) = Raise e ->
  _parse_body content_type (b :: body) = Raise e.
Proof.
  intros Hc Hd. unfold _parse_body.
  destruct (Seq.contains "application/json" content_type);
    [by rewrite Hd |].
  destruct Hc as [Hc | Hc]; [discriminate |]. by rewrite Hc, Hd.
Qed.

(** A body of no known type decodes as text and cannot raise. *)
Lemma parse_body_text content_type b body :
  Seq.contains "application/json" content_type = false ->
  Seq.contains "application/x-www-form-urlencoded" content_type = false ->
  Seq.contains "multipart/form-data" content_type = false ->
  _parse_body content_type (b :: body)
  = Ok (VStr (Utf8.decode_replace (b :: body))).
Proof. intros H1 H2 H3. unfold _parse_body. by rewrite H1, H2, H3. Qed.

(** C1 fails on the code: a body that is not well-formed UTF-8 makes the
    JSON branch, the url-encoded branch and the multipart branch (in a
    part's header block) raise [UnicodeDecodeError]; only
    [JSONDecodeError] is caught, and only the text fallback and the
    content of a multipart field decode with replacement. *)
Theorem parse_body_raises_on_invalid_utf8 :
  _parse_body "application/json" [0xFF] = Raise UnicodeDecodeError /\
  _parse_body "application/x-www-form-urlencoded" [0xFF]
  = Raise UnicodeDecodeError /\
  _parse_body "multipart/form-data; boundary=X" Demo.bad_multipart
  = Raise UnicodeDecodeError /\
  _parse_body "text/plain" [0xFF] = Ok (VStr [0xFFFD]).
Proof. split_and!; reflexivity. Qed.

(** The multipart example of the specification: a plain field and a file. *)
Example parse_multipart_two_parts :
  _parse_body "multipart/form-data; boundary=X" Demo.two_parts
  = Ok (VDict [(latin1 "a", VStr (latin1 "1"));
               (latin1 "_files",
                VList [file_entry (latin1 "f") (latin1 "x.txt")
                         (Utf8.encode_latin1 "hi") (latin1 "text/plain")])]).
Proof. vm_compute. reflexivity. Qed.

End body_decoder.

(** With such a body the exception leaves [_handle_request]: nothing
    catches it, no callback runs and no response is written. *)
Example handle_request_invalid_json_body :
  RiftHandler._handle_request (lib:=Demo.lib) (rt:=Demo.runtime)
    Demo.logged "GET"
    (RiftHandler.Incoming "/a/17"
       [("Content-Type", "application/json"); ("Content-Length", "1")]
       [0xFF])
    []
  = (RiftHandler.Raises UnicodeDecodeError, [], []).
Proof. reflexivity. Qed.

(** * Further properties *)

(** ** SessionStore: create, destroy, cleanup *)

Section session_store_more.
Import SessionStore.

(** X1. A session just created is returned by [get] as long as its idle
    time does not exceed the TTL; data that is empty or absent is stored
    as the empty mapping. The other sessions are untouched. *)
Theorem session_create_then_get (sid : string) (t_created t_accessed : Z)
    (d : value) (st : t) (t_check t_touch : Z) :
  t_check - t_accessed <= _ttl st ->
  let st1 := (create sid t_created t_accessed d st).2 in
  (create sid t_created t_accessed d st).1 = sid /\
  (get t_check t_touch sid st1).1 = (if truthy d then d else VDict []) /\
  (forall k, k ≠ sid -> _sessions st1 !! k = _sessions st !! k) /\
  _ttl st1 = _ttl st.
Proof.
  intros Hlive. cbv zeta. unfold create. cbn [fst snd].
  split; [done |]. split.
  - rewrite (get_live _ _ _ _
               (Session (if truthy d then d else VDict []) t_created t_accessed));
      [done | cbn; apply lookup_insert_eq |].
    unfold expired; cbn. lia.
  - split; [| done]. intros k Hk. cbn. by apply lookup_insert_ne.
Qed.

Lemma session_create_then_get_witness :
  (get 3 3 "tok" (create "tok" 0 0 (VInt 5) (init 5)).2).1 = VInt 5 /\
  (get 3 3 "tok" (create "tok" 0 0 VNone (init 5)).2).1 = VDict [].
Proof.
  split.
  - apply (session_create_then_get "tok" 0 0 (VInt 5) (init 5) 3 3). cbn. lia.
  - apply (session_create_then_get "tok" 0 0 VNone (init 5) 3 3). cbn. lia.
Defined.

(** X2. [destroy] returns true iff the id was present; afterwards [get]
    returns absent, [set] and a second [destroy] return false and change
    nothing, and the other sessions are untouched. *)
Theorem session_destroy_is_final (sid : string) (st : t) :
  let r := destroy sid st in
  (r.1 = true <-> is_Some (_sessions st !! sid)) /\
  (forall t_check t_touch, get t_check t_touch sid r.2 = (VNone, r.2)) /\
  (forall now d, set now sid d r.2 = (false, r.2)) /\
  destroy sid r.2 = (false, r.2) /\
  (forall k, k ≠ sid -> _sessions r.2 !! k = _sessions st !! k) /\
  _ttl r.2 = _ttl st.
Proof.
  cbv zeta. destruct (_sessions st !! sid) as [s |] eqn:E.
  - assert (Hd : destroy sid st
                 = (true, Store (delete sid (_sessions st)) (_ttl st)))
      by (unfold destroy; by rewrite E).
    rewrite Hd. cbn [fst snd].
    assert (Hgone : _sessions (Store (delete sid (_sessions st)) (_ttl st)) !! sid
                    = None) by apply lookup_delete_eq.
    split; [split; [intros _; exists s; reflexivity | done] |].
    split; [intros; by apply get_unknown |].
    split; [intros; unfold set; by rewrite Hgone |].
    split; [unfold destroy; by rewrite Hgone |].
    split; [| done]. intros k Hk. cbn. by apply lookup_delete_ne.
  - assert (Hd : destroy sid st = (false, st))
      by (unfold destroy; by rewrite E).
    rewrite Hd. cbn [fst snd].
    split; [split; [discriminate | intros [x Hx]; discriminate Hx] |].
    split; [intros; by apply get_unknown |].
    split; [intros; unfold set; by rewrite E |].
    split; [exact Hd |]. done.
Qed.

(** X3. Once [get] has found a session expired the entry is gone for
    good: [set] and [destroy] on that id return false (whereas [set]
    before that [get] would have revived it). *)
Theorem session_expiry_found_is_final (t_check t_touch : Z) (sid : string)
    (st : t) (s : session) :
  _sessions st !! sid = Some s ->
  t_check - last_accessed s > _ttl st ->
  let st1 := (get t_check t_touch sid st).2 in
  (forall now d, set now sid d st1 = (false, st1)) /\
  destroy sid st1 = (false, st1) /\
  (forall t t', get t t' sid st1 = (VNone, st1)).
Proof.
  intros Hs Hexp. cbv zeta. rewrite (get_expired _ _ _ _ s) by done.
  cbn [snd].
  assert (Hgone : _sessions (Store (delete sid (_sessions st)) (_ttl st)) !! sid
                  = None) by apply lookup_delete_eq.
  split; [intros; unfold set; by rewrite Hgone |].
  split; [unfold destroy; by rewrite Hgone |].
  intros; by apply get_unknown.
Qed.

Lemma session_expiry_found_is_final_witness :
  (set 9 "s1" (VInt 1) (get 8 8 "s1" Demo.store).2).1 = false /\
  (set 9 "s1" (VInt 1) Demo.store).1 = true.
Proof.
  destruct (session_expiry_found_is_final 8 8 "s1" Demo.store
              (Session Demo.session_data 0 0) eq_refl) as (Hset & _).
  { cbn. lia. }
  split; [by rewrite Hset | reflexivity].
Defined.

Lemma cleanup_lookup now st sid s :
  _sessions (cleanup now st) !! sid = Some s <->
  _sessions st !! sid = Some s /\ ¬ expired st s now.
Proof. unfold cleanup, expired. cbn. by rewrite map_lookup_filter_Some. Qed.

(** X4. [cleanup] keeps exactly the sessions whose idle time does not
    exceed the TTL; it never changes what [get] returns at that instant,
    and running it again at that instant changes nothing. *)
Theorem session_cleanup_removes_expired (now : Z) (st : t) :
  (forall sid s,
     _sessions (cleanup now st) !! sid = Some s <->
     _sessions st !! sid = Some s /\ ¬ now - last_accessed s > _ttl st) /\
  (forall sid t_touch,
     (get now t_touch sid (cleanup now st)).1 = (get now t_touch sid st).1) /\
  cleanup now (cleanup now st) = cleanup now st /\
  _ttl (cleanup now st) = _ttl st.
Proof.
  split; [intros; apply cleanup_lookup |]. split; [| split; [| done]].
  - intros sid t_touch.
    destruct (_sessions st !! sid) as [s |] eqn:E.
    + destruct (decide (now - last_accessed s > _ttl st)) as [Hexp | Hlive].
      * rewrite (get_expired _ _ _ _ s E Hexp). cbn.
        rewrite get_unknown; [done |].
        destruct (_sessions (cleanup now st) !! sid) as [s' |] eqn:E';
          [| done].
        apply cleanup_lookup in E' as [E' Hl]. congruence.
      * rewrite (get_live _ _ _ _ s E Hlive). cbn.
        assert (E' : _sessions (cleanup now st) !! sid = Some s)
          by by apply cleanup_lookup.
        by rewrite (get_live _ _ _ _ s E' Hlive).
    + rewrite (get_unknown _ _ _ st E). rewrite get_unknown; [done |].
      destruct (_sessions (cleanup now st) !! sid) as [s' |] eqn:E'; [| done].
      apply cleanup_lookup in E' as [E' _]. congruence.
  - unfold cleanup at 1 3. cbn [_ttl _sessions]. f_equal.
    apply map_eq. intros sid. apply option_eq. intros s.
    rewrite map_lookup_filter_Some. cbn.
    split; [tauto |]. intros Hs. split; [done |].
    unfold cleanup in Hs. cbn in Hs.
    apply map_lookup_filter_Some in Hs as [_ Hs]. exact Hs.
Qed.

End session_store_more.

(** ** RateLimiter: remaining, bounds, history *)

Section rate_limiter_more.
Import RateLimiter.

Lemma filter_window_idem (now w : Z) (l : list Z) :
  filter (fun t => now - t < w) (filter (fun t => now - t < w) l)
  = filter (fun t => now - t < w) l.
Proof.
  induction l as [| x l IH]; [done |].
  destruct (decide (now - x < w)) as [Hx | Hx].
  - rewrite !(filter_cons_True (fun t => now - t < w)) by done.
    by rewrite IH.
  - by rewrite !(filter_cons_False (fun t => now - t < w)) by done.
Qed.

Lemma filter_window_later (now later w : Z) (l : list Z) :
  now <= later ->
  filter (fun t => later - t < w) (filter (fun t => now - t < w) l)
  = filter (fun t => later - t < w) l.
Proof.
  intros Hle. induction l as [| x l IH]; [done |].
  destruct (decide (now - x < w)) as [Hx | Hx].
  - rewrite (filter_cons_True (fun t => now - t < w)) by done.
    destruct (decide (later - x < w)) as [Hy | Hy].
    + rewrite !(filter_cons_True (fun t => later - t < w)) by done.
      by rewrite IH.
    + rewrite !(filter_cons_False (fun t => later - t < w)) by done. exact IH.
  - rewrite (filter_cons_False (fun t => now - t < w)) by done.
    rewrite (filter_cons_False (fun t => later - t < w)) by lia. exact IH.
Qed.

Lemma is_allowed_fst now key rl :
  (is_allowed now key rl).1
  = bool_decide (Z.of_nat (length (prune rl now key)) < _max_requests rl).
Proof.
  destruct (decide (Z.of_nat (length (prune rl now key)) < _max_requests rl)).
  - rewrite is_allowed_admit by done. by rewrite bool_decide_true.
  - rewrite is_allowed_reject by done. by rewrite bool_decide_false.
Qed.

Lemma is_allowed_snd now key rl :
  _max_requests (is_allowed now key rl).2 = _max_requests rl /\
  _window (is_allowed now key rl).2 = _window rl /\
  requests_of (is_allowed now key rl).2 key
  = prune rl now key ++ (if (is_allowed now key rl).1 then [now] else []).
Proof.
  destruct (decide (Z.of_nat (length (prune rl now key)) < _max_requests rl)).
  - rewrite is_allowed_admit by done. cbn [fst snd].
    by rewrite requests_of_insert_eq.
  - rewrite is_allowed_reject by done. cbn [fst snd].
    by rewrite requests_of_insert_eq, app_nil_r.
Qed.

(** X5. [remaining] is never negative, is positive exactly when
    [is_allowed] at the same instant admits, and asking it first does not
    change that decision; after an admitted call (window positive) it is
    one less. *)
Theorem remaining_agrees_with_is_allowed (now : Z) (key : string) (rl : t) :
  let r := remaining now key rl in
  0 <= r.1 /\
  (0 < r.1 <-> (is_allowed now key rl).1 = true) /\
  (is_allowed now key r.2).1 = (is_allowed now key rl).1 /\
  requests_of r.2 key = prune rl now key /\
  ((is_allowed now key rl).1 = true -> 0 < _window rl ->
   (remaining now key (is_allowed now key rl).2).1 = r.1 - 1).
Proof.
  cbv zeta. unfold remaining at 1 2 3 4 5. cbn [fst snd].
  set (rl1 := Limiter (_max_requests rl) (_window rl)
                      (<[key := prune rl now key]> (_requests rl))).
  assert (H1 : requests_of rl1 key = prune rl now key)
    by apply requests_of_insert_eq.
  split; [lia |]. split; [| split; [| split; [done |]]].
  - rewrite is_allowed_fst, bool_decide_eq_true. lia.
  - assert (Hp : prune rl1 now key = prune rl now key).
    { unfold prune at 1. rewrite H1. unfold prune. apply filter_window_idem. }
    by rewrite !is_allowed_fst, Hp.
  - intros Hadm Hw. destruct (is_allowed_snd now key rl) as (Hm & Hwin & Hreq).
    rewrite Hadm in Hreq. unfold remaining. cbn [fst].
    unfold prune at 1. rewrite Hm, Hwin, Hreq.
    rewrite filter_app. unfold prune at 1. rewrite filter_window_idem.
    rewrite (filter_cons_True (fun t => now - t < _window rl)) by lia.
    rewrite filter_nil, length_app. cbn [length].
    rewrite is_allowed_fst, bool_decide_eq_true in Hadm.
    unfold prune in Hadm |- *. lia.
Qed.

Lemma remaining_agrees_with_is_allowed_witness :
  (remaining 5 "k" (init 2 60)).1 = 2 /\
  (remaining 5 "k" (is_allowed 5 "k" (init 2 60)).2).1 = 1.
Proof.
  destruct (remaining_agrees_with_is_allowed 5 "k" (init 2 60))
    as (_ & _ & _ & _ & H).
  split; [reflexivity |]. rewrite H; [reflexivity | reflexivity | cbn; lia].
Defined.

Lemma calls_cons now ts key rl :
  calls (now :: ts) key rl
  = ((is_allowed now key rl).1 :: (calls ts key (is_allowed now key rl).2).1,
     (calls ts key (is_allowed now key rl).2).2).
Proof.
  cbn [calls]. destruct (is_allowed now key rl) as [b rl1]. cbn [fst snd].
  by destruct (calls ts key rl1) as [bs rl2].
Qed.

Lemma calls_refine_history mx w key ts : forall rl admitted,
  _max_requests rl = mx -> _window rl = w ->
  StronglySorted Z.le ts ->
  (forall t, t ∈ ts ->
     filter (fun u => t - u < w) (requests_of rl key)
     = filter (fun u => t - u < w) admitted) ->
  (calls ts key rl).1 = admit_by_history mx w admitted ts.
Proof.
  induction ts as [| now ts IH]; intros rl admitted Hm Hw Hs Hinv; [done |].
  rewrite calls_cons. cbn [fst admit_by_history].
  apply StronglySorted_inv in Hs as [Hs Hle].
  destruct (is_allowed_snd now key rl) as (Hm' & Hw' & Hreq).
  assert (Hb : (is_allowed now key rl).1
               = bool_decide (Z.of_nat (length (filter (fun t => now - t < w)
                                                       admitted)) < mx)).
  { rewrite is_allowed_fst. unfold prune. rewrite Hm, Hw.
    by rewrite (Hinv now) by (apply elem_of_cons; by left). }
  rewrite Hb. f_equal. rewrite <- Hb.
  apply IH; [congruence | congruence | done |].
  intros t Ht. rewrite Hreq. unfold prune. rewrite Hw.
  assert (Hnt : now <= t).
  { rewrite Forall_forall in Hle. apply Hle.
    first [exact Ht | by apply list_elem_of_In]. }
  rewrite filter_app, filter_window_later by done.
  rewrite (Hinv t) by (apply elem_of_cons; by right).
  destruct ((is_allowed now key rl).1); [by rewrite filter_app |].
  by rewrite filter_nil, app_nil_r.
Qed.

(** X6. For clock readings that never go back, the limiter with its
    pruned per-key list decides exactly like the limiter that remembers
    every admitted timestamp: a call is admitted iff fewer than the
    maximum of all earlier admitted calls lie in its trailing window. *)
Theorem is_allowed_refines_history (mx w : Z) (key : string) (ts : list Z) :
  StronglySorted Z.le ts ->
  (calls ts key (init mx w)).1 = admit_by_history mx w [] ts.
Proof.
  intros Hs. apply calls_refine_history; [done | done | done |].
  intros t _. unfold requests_of, init. cbn. by rewrite lookup_empty.
Qed.

Lemma is_allowed_refines_history_witness :
  (calls [0; 1; 30; 61; 62] "k" (init 2 60)).1
  = admit_by_history 2 60 [] [0; 1; 30; 61; 62] /\
  admit_by_history 2 60 [] [0; 1; 30; 61; 62]
  = [true; true; false; true; true] /\
  (calls [0; 20; 5] "k" (init 2 10)).1 ≠ admit_by_history 2 10 [] [0; 20; 5].
Proof.
  split; [| split; [reflexivity | discriminate]].
  apply is_allowed_refines_history.
  repeat (constructor; [| repeat constructor; lia]). constructor.
Defined.

(** X7. The list kept for a key never grows beyond the maximum, whatever
    the clock does, and holds nothing but timestamps of that key's calls
    (or what was there before). *)
Theorem requests_stay_bounded (ts : list Z) (key : string) (rl : t) :
  Z.of_nat (length (requests_of rl key)) <= _max_requests rl ->
  let rl' := (calls ts key rl).2 in
  Z.of_nat (length (requests_of rl' key)) <= _max_requests rl /\
  (forall t, t ∈ requests_of rl' key -> t ∈ requests_of rl key \/ t ∈ ts) /\
  (forall k, k ≠ key -> requests_of rl' k = requests_of rl k).
Proof.
  revert rl. induction ts as [| now ts IH]; intros rl Hb; cbv zeta.
  - cbn. split; [done |]. split; [by left | done].
  - rewrite calls_cons. cbn [snd].
    destruct (is_allowed_snd now key rl) as (Hm & Hw & Hreq).
    assert (Hk : Z.of_nat (length (prune rl now key))
                 <= Z.of_nat (length (requests_of rl key))).
    { unfold prune. pose proof (length_filter (fun t => now - t < _window rl)
                                  (requests_of rl key)). lia. }
    assert (Hb' : Z.of_nat (length (requests_of (is_allowed now key rl).2 key))
                  <= _max_requests (is_allowed now key rl).2).
    { rewrite Hm, Hreq, length_app.
      destruct ((is_allowed now key rl).1) eqn:Hadm; cbn [length]; [| lia].
      rewrite is_allowed_fst, bool_decide_eq_true in Hadm. lia. }
    destruct (IH _ Hb') as (H1 & H2 & H3). cbv zeta in H1, H2, H3.
    split; [by rewrite <- Hm |]. split.
    + intros t Ht. destruct (H2 t Ht) as [Hin | Hin].
      * rewrite Hreq in Hin. apply elem_of_app in Hin as [Hin | Hin].
        -- left. by apply prune_elem in Hin as [Hin _].
        -- right. destruct ((is_allowed now key rl).1).
           ++ apply list_elem_of_singleton in Hin as ->. by left.
           ++ by apply elem_of_nil in Hin.
      * right. by right.
    + intros k Hk'. rewrite (H3 k Hk').
      destruct (decide (Z.of_nat (length (prune rl now key)) < _max_requests rl)).
      * rewrite is_allowed_admit by done. destruct rl.
        by apply requests_of_insert_ne.
      * rewrite is_allowed_reject by done. destruct rl.
        by apply requests_of_insert_ne.
Qed.

Lemma requests_stay_bounded_witness :
  Z.of_nat (length (requests_of
     (calls [5; 3; 9; 1; 7; 7; 7] "k" (init 3 4)).2 "k")) <= 3.
Proof.
  apply (requests_stay_bounded [5; 3; 9; 1; 7; 7; 7] "k" (init 3 4)).
  vm_compute. intros H; discriminate H.
Defined.

(** X8. Calls on different keys do not interfere: in either order they
    give the same answers and leave the same limiter. *)
Theorem is_allowed_keys_independent (t1 t2 : Z) (k1 k2 : string) (rl : t) :
  k1 ≠ k2 ->
  (is_allowed t2 k2 (is_allowed t1 k1 rl).2).1 = (is_allowed t2 k2 rl).1 /\
  (is_allowed t1 k1 (is_allowed t2 k2 rl).2).1 = (is_allowed t1 k1 rl).1 /\
  (is_allowed t2 k2 (is_allowed t1 k1 rl).2).2
  = (is_allowed t1 k1 (is_allowed t2 k2 rl).2).2.
Proof.
  intros Hne.
  assert (Hp : forall ta ka tb kb, ka ≠ kb ->
            prune (is_allowed ta ka rl).2 tb kb = prune rl tb kb).
  { intros ta ka tb kb Hk. unfold prune.
    destruct (is_allowed_snd ta ka rl) as (_ & -> & _). f_equal.
    destruct (decide (Z.of_nat (length (prune rl ta ka)) < _max_requests rl)).
    - rewrite is_allowed_admit by done. destruct rl.
      by apply requests_of_insert_ne.
    - rewrite is_allowed_reject by done. destruct rl.
      by apply requests_of_insert_ne. }
  split; [| split].
  - rewrite !is_allowed_fst, Hp by done.
    by destruct (is_allowed_snd t1 k1 rl) as (-> & _).
  - rewrite !is_allowed_fst, Hp by done.
    by destruct (is_allowed_snd t2 k2 rl) as (-> & _).
  - unfold is_allowed at 1 3.
    rewrite !Hp by done.
    destruct (is_allowed_snd t1 k1 rl) as (-> & -> & _).
    destruct (is_allowed_snd t2 k2 rl) as (-> & -> & _).
    unfold is_allowed.
    destruct (Z.of_nat (length (prune rl t1 k1)) <? _max_requests rl),
             (Z.of_nat (length (prune rl t2 k2)) <? _max_requests rl);
      cbn [snd _requests]; f_equal; by apply insert_insert_ne.
Qed.

Lemma is_allowed_keys_independent_witness :
  (is_allowed 2 "b" (is_allowed 1 "a" (init 1 60)).2).1 = true /\
  (is_allowed 2 "a" (is_allowed 1 "a" (init 1 60)).2).1 = false.
Proof.
  destruct (is_allowed_keys_independent 1 2 "a" "b" (init 1 60)) as (H & _).
  { discriminate. }
  split; [rewrite H; reflexivity | reflexivity].
Defined.

End rate_limiter_more.

(** ** CORSHandler *)

Section cors_more.
Import CORSHandler.

(** X9. Whatever the request origin, the [Access-Control-Allow-Origin]
    header, when present, names a configured origin: an origin that is
    not in the allow-set is never echoed, and the wildcard is sent only
    if it is configured. *)
Theorem cors_origin_is_configured (request_origin : option string) (c : t)
    (v : string) :
  add_headers request_origin c !! "Access-Control-Allow-Origin" = Some v ->
  v ∈ origins c /\
  (v = "*" <-> "*" ∈ origins c).
Proof.
  unfold add_headers. rewrite lookup_tail_headers by done.
  destruct (decide ("*" ∈ origins c)) as [Hw | Hw].
  - rewrite bool_decide_true by done. rewrite lookup_insert_eq.
    intros [= <-]. by split.
  - rewrite bool_decide_false by done.
    destruct (origin_listed request_origin c) eqn:El.
    + apply origin_listed_spec in El as (o & -> & _ & Ho).
      rewrite lookup_insert_eq. cbn. intros [= <-].
      split; [done |]. split; [intros ->; done | done].
    + destruct (origins c) as [| o l] eqn:E; [by rewrite lookup_empty |].
      rewrite lookup_insert_eq. intros [= <-]. rewrite <- E in *.
      assert (Ho : o ∈ origins c) by (rewrite E; by left).
      split; [done |]. split; [intros ->; done | done].
Qed.

Lemma cors_origin_is_configured_witness :
  add_headers (Some "https://evil.example")
    (init (OriginList ["https://a.com"; "https://c.com"]) None None false 60)
    !! "Access-Control-Allow-Origin" = Some "https://a.com" /\
  "https://a.com"
    ∈ origins (init (OriginList ["https://a.com"; "https://c.com"])
                    None None false 60).
Proof.
  split; [reflexivity |].
  apply (cors_origin_is_configured (Some "https://evil.example")
           (init (OriginList ["https://a.com"; "https://c.com"])
                 None None false 60) "https://a.com").
  reflexivity.
Defined.

End cors_more.

(** ** WebSocketConnection: every frame, short reads, streams, close *)

Section websocket_more.
Import WebSocketConnection.

(** [receive] once the two header bytes and the extended length are
    read. *)
Lemma receive_after_header h0 h1 ext tail n c :
  (Z.land h1 0x7F = 126 /\ length ext = 2%nat /\ from_bytes ext = n) \/
  (Z.land h1 0x7F = 127 /\ length ext = 8%nat /\ from_bytes ext = n) \/
  (Z.land h1 0x7F <= 125 /\ ext = [] /\ Z.land h1 0x7F = n) ->
  receive (set_rfile (h0 :: h1 :: ext ++ tail) c)
  = let '(mask, c3) :=
      if Z.land h1 0x80 =? 0 then ([], set_rfile tail c)
      else read 4 (set_rfile tail c) in
    let '(data, c4) := read (Z.to_nat n) c3 in
    match (if Z.land h1 0x80 =? 0 then Ok data
           else unmask (seq 0 (Z.to_nat n)) data mask) with
    | Raise _ => (None, set_connected false c4)
    | Ok payload => deliver (Z.land h0 0x0F) payload c4
    end.
Proof.
  intros Hcase. unfold receive.
  change (read 2 (set_rfile (h0 :: h1 :: ext ++ tail) c))
    with ([h0; h1], set_rfile (ext ++ tail) c).
  cbv iota beta zeta.
  assert (Hparse :
    (if Z.land h1 0x7F =? 126
     then let '(e, c') := read 2 (set_rfile (ext ++ tail) c)
          in (from_bytes e, c')
     else if Z.land h1 0x7F =? 127
     then let '(e, c') := read 8 (set_rfile (ext ++ tail) c)
          in (from_bytes e, c')
     else (Z.land h1 0x7F, set_rfile (ext ++ tail) c))
    = (n, set_rfile tail c)).
  { destruct Hcase as [(E & L & F) | [(E & L & F) | (E & -> & F)]].
    - rewrite E. cbn [Z.eqb Pos.eqb]. rewrite read_app by done. by rewrite F.
    - rewrite E. cbn [Z.eqb Pos.eqb]. rewrite read_app by done. by rewrite F.
    - destruct (Z.eqb_spec (Z.land h1 0x7F) 126); [lia |].
      destruct (Z.eqb_spec (Z.land h1 0x7F) 127); [lia |].
      by rewrite F. }
  rewrite Hparse. reflexivity.
Qed.

Lemma read_all (stream : bytes) n c :
  (length stream <= n)%nat ->
  read n (set_rfile stream c) = (stream, set_rfile [] c).
Proof.
  intros H. unfold read, set_rfile. cbn.
  by rewrite take_ge, drop_ge by done.
Qed.

Lemma frame_cases h0 key data :
  Z.of_nat (length data) < 2 ^ 64 ->
  exists b1 ext,
    0 <= b1 <= 127 /\
    frame h0 key data
    = match key with
      | Some k => h0 :: Z.lor 0x80 b1 :: ext ++ k ++ mask_payload k data
      | None => h0 :: b1 :: ext ++ data
      end /\
    ((b1 = 126 /\ length ext = 2%nat /\ from_bytes ext = Z.of_nat (length data)) \/
     (b1 = 127 /\ length ext = 8%nat /\ from_bytes ext = Z.of_nat (length data)) \/
     (b1 <= 125 /\ ext = [] /\ b1 = Z.of_nat (length data))).
Proof.
  intros Hlen.
  destruct (length_field_cases (Z.of_nat (length data))) as (b1 & ext & Hf & Hb & Hc);
    [lia |].
  exists b1, ext. split; [done |]. split; [| done].
  unfold frame. rewrite Hf. by destruct key.
Qed.

Lemma receive_complete_frame h0 key data rest c :
  Z.of_nat (length data) < 2 ^ 64 ->
  (forall k, key = Some k -> length k = 4%nat) ->
  receive (set_rfile (frame h0 key data ++ rest) c)
  = deliver (Z.land h0 0x0F) data (set_rfile rest c).
Proof.
  intros Hlen Hkey.
  destruct (frame_cases h0 key data Hlen) as (b1 & ext & Hb & -> & Hcase).
  destruct (length7_bits b1 Hb) as (E1 & E2 & E3 & E4).
  destruct key as [k |].
  - change ((h0 :: Z.lor 0x80 b1 :: ext ++ k ++ mask_payload k data) ++ rest)
      with (h0 :: Z.lor 0x80 b1 :: (ext ++ k ++ mask_payload k data) ++ rest).
    rewrite <- !app_assoc.
    rewrite (receive_after_header _ _ _ _ (Z.of_nat (length data)))
      by (rewrite E1; intuition lia).
    rewrite E2. cbn [Z.eqb]. rewrite read_app by (by rewrite Hkey).
    rewrite Nat2Z.id.
    rewrite read_app by (by rewrite mask_payload_length).
    by rewrite unmask_mask_payload by (by apply Hkey).
  - change ((h0 :: b1 :: ext ++ data) ++ rest)
      with (h0 :: b1 :: (ext ++ data) ++ rest).
    rewrite <- !app_assoc.
    rewrite (receive_after_header _ _ _ _ (Z.of_nat (length data)))
      by (rewrite E3; intuition lia).
    rewrite E4. cbn [Z.eqb]. rewrite Nat2Z.id. by rewrite read_app.
Qed.

(** X10. [receive] on a complete frame, masked under any 4-byte key or
    unmasked, consumes exactly that frame; a text frame whose payload is
    not UTF-8 and a close frame mark the connection closed and return
    nothing; every other opcode (ping, pong, binary, continuation)
    returns nothing and leaves the connection as it is. *)
Theorem receive_complete_frame_cases (h0 : Z) (key : option bytes)
    (data rest : bytes) (c : t) :
  Z.of_nat (length data) < 2 ^ 64 ->
  (forall k, key = Some k -> length k = 4%nat) ->
  let r := receive (set_rfile (frame h0 key data ++ rest) c) in
  r = deliver (Z.land h0 0x0F) data (set_rfile rest c) /\
  (Z.land h0 0x0F = 0x08 -> r = (None, set_connected false (set_rfile rest c))) /\
  (Z.land h0 0x0F ≠ 0x01 -> Z.land h0 0x0F ≠ 0x08 ->
   r = (None, set_rfile rest c)) /\
  (Z.land h0 0x0F = 0x01 -> forall e, Utf8.decode data = Raise e ->
   r = (None, set_connected false (set_rfile rest c))) /\
  (Z.land h0 0x0F = 0x01 -> forall text, Utf8.decode data = Ok text ->
   r = (Some text, set_rfile rest c)).
Proof.
  intros Hlen Hkey. cbv zeta. rewrite receive_complete_frame by done.
  unfold deliver. split; [done |]. split_and!.
  - intros ->. reflexivity.
  - intros H1 H8.
    destruct (Z.eqb_spec (Z.land h0 15) 1); [done |].
    by destruct (Z.eqb_spec (Z.land h0 15) 8).
  - intros -> e ->. reflexivity.
  - intros -> text ->. reflexivity.
Qed.

Lemma receive_complete_frame_cases_witness :
  receive (set_rfile [0x88; 0x00] Demo.conn)
  = (None, set_connected false (set_rfile [] Demo.conn)) /\
  receive (set_rfile (frame 0x89 (Some Demo.key) [1; 2; 3] ++ [0x81; 0]) Demo.conn)
  = (None, set_rfile [0x81; 0] Demo.conn) /\
  receive (set_rfile (frame 0x81 (Some Demo.key) [0xC0; 0x80]) Demo.conn)
  = (None, set_connected false (set_rfile [] Demo.conn)).
Proof.
  split_and!.
  - destruct (receive_complete_frame_cases 0x88 None [] [] Demo.conn)
      as (_ & H & _); [reflexivity | discriminate |].
    apply H. reflexivity.
  - destruct (receive_complete_frame_cases 0x89 (Some Demo.key) [1; 2; 3]
                [0x81; 0] Demo.conn) as (_ & _ & H & _);
      [reflexivity | by intros k [= <-] |].
    apply H; discriminate.
  - destruct (receive_complete_frame_cases 0x81 (Some Demo.key) [0xC0; 0x80]
                [] Demo.conn) as (_ & _ & _ & H & _);
      [reflexivity | by intros k [= <-] |].
    rewrite app_nil_r in H. by apply (H eq_refl UnicodeDecodeError).
Defined.

(** X11. At the end of the stream (fewer than two bytes left) [receive]
    returns nothing and does not mark the connection closed, however often
    it is called. *)
Theorem receive_at_end_of_stream (n : nat) (c : t) :
  (length (rfile c) < 2)%nat ->
  (receive_n n c).1 = repeat None n /\
  connected (receive_n n c).2 = connected c /\
  wfile (receive_n n c).2 = wfile c.
Proof.
  revert c. induction n as [| n IH]; intros c Hlen; [done |].
  cbn [receive_n].
  assert (Hr : receive c = (None, set_rfile [] c)).
  { destruct c as [b r w br]. cbn in Hlen.
    destruct r as [| x [| y r]]; [done | done | cbn in Hlen; lia]. }
  rewrite Hr.
  destruct (IH (set_rfile [] c)) as (H1 & H2 & H3); [cbn; lia |].
  destruct (receive_n n (set_rfile [] c)) as [ms c2].
  cbn in *. by rewrite H1.
Qed.

Lemma receive_at_end_of_stream_witness :
  (receive_n 3 (set_rfile [0x81] Demo.conn)).1 = [None; None; None] /\
  connected (receive_n 3 (set_rfile [0x81] Demo.conn)).2 = true.
Proof.
  destruct (receive_at_end_of_stream 3 (set_rfile [0x81] Demo.conn))
    as (H1 & H2 & _); [cbn; lia |].
  split; [exact H1 | exact H2].
Defined.

Lemma unmask_length indices : forall data mask out,
  unmask indices data mask = Ok out -> length out = length data.
Proof.
  induction indices as [| i rest IH]; intros data mask out; cbn [unmask].
  - by intros [= <-].
  - destruct (data !! i); [| done]. destruct (mask !! (i mod 4)%nat); [| done].
    intros H. apply IH in H. by rewrite length_insert in H.
Qed.

Lemma unmask_short k : forall i data mask,
  (length data < i + k)%nat -> (0 < k)%nat ->
  exists e, unmask (seq i k) data mask = Raise e.
Proof.
  induction k as [| k IH]; intros i data mask Hlen Hk; [lia |].
  cbn [seq unmask].
  destruct (data !! i) as [d |] eqn:Ed; [| by eexists].
  destruct (mask !! (i mod 4)%nat); [| by eexists].
  apply lookup_lt_Some in Ed.
  apply IH; [rewrite length_insert; lia | lia].
Qed.

Lemma length_field_length n :
  exists b1 ext, length_field n = b1 :: ext.
Proof.
  unfold length_field.
  destruct (n <=? 125); [by eexists _, _ |].
  destruct (n <=? 65535); by eexists _, _.
Qed.

(** X12. A masked frame with a payload that is cut off anywhere after its
    length field (the stream ends inside the masking key or the payload)
    makes [receive] return nothing and mark the connection closed. *)
Theorem receive_truncated_masked_frame (h0 : Z) (k data : bytes) (j : nat)
    (c : t) :
  Z.of_nat (length data) < 2 ^ 64 ->
  length k = 4%nat ->
  data ≠ [] ->
  (1 + length (length_field (Z.of_nat (length data))) <= j
   < length (frame h0 (Some k) data))%nat ->
  receive (set_rfile (take j (frame h0 (Some k) data)) c)
  = (None, set_connected false (set_rfile [] c)).
Proof.
  intros Hlen Hk Hd Hj.
  destruct (length_field_cases (Z.of_nat (length data)))
    as (b1 & ext & Hf & Hb & Hcase); [lia |].
  unfold frame in *. rewrite Hf in *.
  destruct (length7_bits b1 Hb) as (E1 & E2 & E3 & E4).
  cbn [length] in Hj. rewrite !length_app, mask_payload_length, Hk in Hj.
  destruct j as [| [| j]]; [lia | lia |]. cbn [take].
  rewrite take_app_ge by lia.
  remember (take (j - length ext) (k ++ mask_payload k data)) as tail eqn:Et.
  assert (Ht : (length tail < 4 + length data)%nat).
  { rewrite Et, length_take, length_app, mask_payload_length. lia. }
  rewrite (receive_after_header _ _ _ _ (Z.of_nat (length data)))
    by (rewrite E1; intuition lia).
  rewrite E2. cbn [Z.eqb]. rewrite Nat2Z.id.
  unfold read at 2. cbn [rfile set_rfile connected wfile wfile_broken].
  unfold read. cbn [rfile set_rfile connected wfile wfile_broken].
  destruct (unmask_short (length data) 0 (take (length data) (drop 4 tail))
              (take 4 tail)) as [e He].
  { rewrite length_take, length_drop.
    assert (0 < length data)%nat by (destruct data; [done | cbn; lia]).
    clear - Ht H. lia. }
  { destruct data; [done | cbn; lia]. }
  rewrite He. unfold set_connected, set_rfile. cbn.
  f_equal. f_equal. rewrite drop_drop. apply drop_ge. lia.
Qed.

Lemma receive_truncated_masked_frame_witness :
  receive (set_rfile [0x81; 0x83; 1; 2; 3; 4; 0x60] Demo.conn)
  = (None, set_connected false (set_rfile [] Demo.conn)).
Proof.
  apply (receive_truncated_masked_frame 0x81 [1; 2; 3; 4] [0x61; 0x62; 0x63] 7
           Demo.conn); [reflexivity | reflexivity | discriminate | vm_compute; lia].
Defined.

Lemma short_length (n : Z) : 0 <= n <= 65535 -> 0 <= n < 2 ^ 64.
Proof.
  intros [H0 H]. split; [done |].
  apply Z.le_lt_trans with 65535; [done | reflexivity].
Qed.

(** X13. An unmasked frame that declares at most 65535 bytes (the 7-bit
    and the 16-bit length form, sizes a read can always allocate) and is
    cut off after its length field is not an error: [receive] treats the
    bytes that did arrive as the whole payload. *)
Theorem receive_truncated_unmasked_frame (h0 : Z) (data : bytes) (j : nat)
    (c : t) :
  Z.of_nat (length data) <= 65535 ->
  (1 + length (length_field (Z.of_nat (length data))) <= j)%nat ->
  receive (set_rfile (take j (frame h0 None data)) c)
  = deliver (Z.land h0 0x0F)
      (take (j - (1 + length (length_field (Z.of_nat (length data))))) data)
      (set_rfile [] c).
Proof.
  intros Hlen Hj.
  destruct (length_field_cases (Z.of_nat (length data)))
    as (b1 & ext & Hf & Hb & Hcase); [apply short_length; lia |].
  unfold frame. rewrite Hf in *.
  destruct (length7_bits b1 Hb) as (E1 & E2 & E3 & E4).
  cbn [length] in Hj.
  destruct j as [| [| j]]; [lia | lia |]. cbn [take].
  rewrite take_app_ge by lia.
  replace (S (S j) - (1 + S (length ext)))%nat with (j - length ext)%nat by lia.
  rewrite <- (app_nil_r (take (j - length ext) data)) at 1.
  rewrite (receive_after_header _ _ _ _ (Z.of_nat (length data)))
    by (rewrite E3; intuition lia).
  rewrite E4. cbn [Z.eqb]. rewrite Nat2Z.id.
  rewrite app_nil_r. rewrite read_all by (rewrite length_take; lia).
  reflexivity.
Qed.

Lemma receive_truncated_unmasked_frame_witness :
  receive (set_rfile [0x81; 0x03; 0x61] Demo.conn)
  = (Some [0x61], set_rfile [] Demo.conn).
Proof.
  apply (receive_truncated_unmasked_frame 0x81 [0x61; 0x62; 0x63] 3 Demo.conn);
    [cbn; lia | vm_compute; lia].
Defined.

Lemma frame_header_inv n h :
  0 <= n -> frame_header n = Ok h ->
  n < 2 ^ 64 /\ h = 0x81 :: length_field n.
Proof.
  intros Hn. unfold frame_header, length_field, to_bytes.
  destruct (Z.leb_spec n 125); [intros [= <-]; split; [lia | done] |].
  destruct (Z.leb_spec n 65535).
  { change (256 ^ Z.of_nat 2) with 65536.
    destruct (Z.ltb_spec n 65536); [| lia]. intros [= <-]. split; [lia | done]. }
  change (256 ^ Z.of_nat 8) with (2 ^ 64).
  destruct (Z.ltb_spec n (2 ^ 64)); [| done]. intros [= <-]. by split.
Qed.

Lemma send_true m c b c1 :
  connected c = true -> wfile_broken c = false ->
  send m c = Ok (b, c1) ->
  exists data,
    Utf8.encode m = Ok data /\ Z.of_nat (length data) < 2 ^ 64 /\
    b = true /\ c1 = write (server_text_frame data) c.
Proof.
  intros Hc Hw. unfold send. rewrite Hc. cbn [negb].
  destruct (Utf8.encode m) as [data | e] eqn:Em; [| done].
  cbn [mbind result_bind bind].
  destruct (frame_header (Z.of_nat (length data))) as [h | e] eqn:Eh; [| done].
  cbn [bind]. rewrite Hw. intros [= <- <-].
  apply frame_header_inv in Eh as [Hn ->]; [| lia].
  by exists data.
Qed.

Lemma frame_unmasked h0 data :
  frame h0 None data = h0 :: length_field (Z.of_nat (length data)) ++ data.
Proof.
  unfold frame.
  by destruct (length_field_length (Z.of_nat (length data))) as (b1 & ext & ->).
Qed.

(** X14. What [send] wrote for a list of messages, [receive] reads back
    on the other side: the same messages, in order, consuming exactly
    what was written. *)
Theorem sent_messages_are_received_in_order (ms : list ustr) (c c' : t)
    (flags : list bool) :
  connected c = true -> wfile_broken c = false ->
  send_all ms c = Ok (flags, c') ->
  exists out,
    wfile c' = wfile c ++ out /\
    flags = repeat true (length ms) /\
    forall (peer : t) (rest : bytes),
      receive_n (length ms) (set_rfile (out ++ rest) peer)
      = (map Some ms, set_rfile rest peer).
Proof.
  revert c c' flags. induction ms as [| m ms IH]; intros c c' flags Hc Hw.
  - cbn. intros [= <- <-]. exists []. by rewrite app_nil_r.
  - cbn [send_all]. destruct (send m c) as [[b c1] | e] eqn:Es; [| done].
    cbn [mbind result_bind bind fst snd].
    destruct (send_all ms c1) as [[bs c2] | e] eqn:Ea; [| done].
    cbn [bind fst snd]. intros [= <- <-].
    destruct (send_true _ _ _ _ Hc Hw Es) as (data & Em & Hn & -> & ->).
    destruct (IH (write (server_text_frame data) c) c2 bs Hc Hw Ea)
      as (out & Ho & -> & Hrecv).
    exists (server_text_frame data ++ out).
    split; [by rewrite Ho, app_assoc |]. split; [done |].
    intros peer rest. cbn [length receive_n map].
    unfold server_text_frame. rewrite <- (frame_unmasked 0x81 data).
    rewrite <- app_assoc. rewrite receive_complete_frame by done.
    unfold deliver. change (Z.land 129 15 =? 1) with true. cbv iota.
    rewrite (decode_encode _ _ Em). by rewrite Hrecv.
Qed.

Lemma sent_messages_are_received_in_order_witness :
  receive_n 2
    (set_rfile [0x81; 2; 0x68; 0x69; 0x81; 3; 0xE2; 0x82; 0xAC] Demo.conn)
  = ([Some [0x68; 0x69]; Some [0x20AC]], set_rfile [] Demo.conn).
Proof.
  destruct (sent_messages_are_received_in_order
              [[0x68; 0x69]; [0x20AC]] Demo.conn
              (write [0x81; 2; 0x68; 0x69; 0x81; 3; 0xE2; 0x82; 0xAC] Demo.conn)
              [true; true])
    as (out & Ho & _ & Hr); [reflexivity | reflexivity | reflexivity |].
  cbn in Ho. subst out. apply (Hr Demo.conn []).
Defined.

(** X15. [close] is final and idempotent: afterwards the connection is
    not connected, [send] returns [False] for every message without
    writing, a second [close] changes nothing; and on a working stream
    the two bytes it wrote are a close frame, on which the peer's
    [receive] marks its own side closed. *)
Theorem close_is_final (c : t) :
  connected (close c) = false /\
  close (close c) = close c /\
  (forall m, send m (close c) = Ok (false, close c)) /\
  (connected c = true -> wfile_broken c = false ->
   exists out,
     wfile (close c) = wfile c ++ out /\
     forall (peer : t) (rest : bytes),
       receive (set_rfile (out ++ rest) peer)
       = (None, set_connected false (set_rfile rest peer))).
Proof.
  assert (Hc : connected (close c) = false).
  { unfold close. destruct (connected c) eqn:E; [done | exact E]. }
  split_and!; [done | | |].
  - unfold close at 1. by rewrite Hc.
  - intros m. unfold send. by rewrite Hc.
  - intros H1 H2. exists [0x88; 0x00]. split.
    + unfold close. by rewrite H1, H2.
    + intros peer rest. reflexivity.
Qed.

Lemma close_is_final_witness :
  wfile (close Demo.conn) = wfile Demo.conn ++ [0x88; 0x00] /\
  send [0x68] (close Demo.conn) = Ok (false, close Demo.conn).
Proof.
  destruct (close_is_final Demo.conn) as (_ & _ & Hs & Hw).
  split; [| apply Hs].
  destruct Hw as (out & Ho & _); [reflexivity | reflexivity |]. reflexivity.
Defined.

Lemma big_endian_bytes n z : Forall is_byte (big_endian n z).
Proof.
  induction n as [| n IH]; cbn [big_endian]; constructor; [| done].
  unfold is_byte.
  pose proof (Z.mod_pos_bound (z / 256 ^ Z.of_nat n) 256). lia.
Qed.

(** X16. Whenever [send] returns [True] it has written one frame that
    consists of bytes only: the byte 0x81, the length field, and the
    UTF-8 encoding of the message, 2, 4 or 10 bytes more than the
    payload. *)
Theorem send_writes_one_frame_of_bytes (m : ustr) (c c' : t) :
  send m c = Ok (true, c') ->
  exists data,
    Utf8.encode m = Ok data /\
    c' = write (server_text_frame data) c /\
    Forall is_byte (server_text_frame data) /\
    Z.of_nat (length (server_text_frame data))
    = Z.of_nat (length data)
      + (if bool_decide (Z.of_nat (length data) <= 125) then 2
         else if bool_decide (Z.of_nat (length data) <= 65535) then 4 else 10).
Proof.
  unfold send. destruct (connected c) eqn:Hc; [| done]. cbn [negb].
  destruct (Utf8.encode m) as [data | e] eqn:Em; [| done].
  cbn [mbind result_bind bind].
  destruct (frame_header (Z.of_nat (length data))) as [h | e] eqn:Eh; [| done].
  cbn [bind]. destruct (wfile_broken c); [done |]. intros [= <-].
  apply frame_header_inv in Eh as [Hn ->]; [| lia].
  exists data. split; [done |]. split; [done |].
  unfold server_text_frame, length_field.
  split.
  - constructor; [done |]. apply Forall_app. split; [| by eapply encode_bytes].
    destruct (Z.leb_spec (Z.of_nat (length data)) 125).
    { constructor; [unfold is_byte; lia | done]. }
    destruct (Z.leb_spec (Z.of_nat (length data)) 65535);
      (constructor; [done | apply big_endian_bytes]).
  - clear Hn. cbn [length]. rewrite length_app.
    destruct (Z.leb_spec (Z.of_nat (length data)) 125).
    { rewrite bool_decide_true by lia. cbn [length]. lia. }
    rewrite bool_decide_false by lia.
    destruct (Z.leb_spec (Z.of_nat (length data)) 65535).
    { rewrite bool_decide_true by lia. cbn [length]. rewrite length_big_endian. lia. }
    rewrite bool_decide_false by lia. cbn [length]. rewrite length_big_endian. lia.
Qed.

Lemma send_writes_one_frame_of_bytes_witness :
  exists data,
    Utf8.encode [0x20AC] = Ok data /\
    write [0x81; 3; 0xE2; 0x82; 0xAC] Demo.conn
    = write (server_text_frame data) Demo.conn /\
    Forall is_byte (server_text_frame data) /\
    Z.of_nat (length (server_text_frame data))
    = Z.of_nat (length data)
      + (if bool_decide (Z.of_nat (length data) <= 125) then 2
         else if bool_decide (Z.of_nat (length data) <= 65535) then 4 else 10).
Proof.
  apply (send_writes_one_frame_of_bytes [0x20AC] Demo.conn
           (write [0x81; 3; 0xE2; 0x82; 0xAC] Demo.conn)).
  reflexivity.
Defined.

End websocket_more.

(** ** Routes and static mounts: registration order *)

Section routes_more.
Import Re RiftHTTPServer.
Context {Callable : Type}.
Implicit Types (srv : RiftHTTPServer.t Callable) (h : Callable).

Lemma match_routes_app (a b : list (route_entry Callable)) method path :
  match_routes (a ++ b) method path
  = match match_routes a method path with
    | NotFound => match_routes b method path
    | r => r
    end.
Proof.
  induction a as [| r a IH]; [done |]. cbn.
  destruct (bool_decide (method ∈ methods r)); [| done].
  by destruct (re_match (pattern r) path).
Qed.

(** X17. Registration only appends: a route registered later is
    consulted only when no earlier route answers the request, and then
    it answers as it would alone; registering a middleware or a static
    mount does not change the route that is found. *)
Theorem route_registration_keeps_earlier_matches srv (tmpl : string)
    (ms : list string) h (method path : string) :
  _match_route (route tmpl ms h srv) method path
  = match _match_route srv method path with
    | NotFound => _match_route (route tmpl ms h init) method path
    | r => r
    end /\
  (forall f, _match_route (middleware f srv) method path
             = _match_route srv method path) /\
  (forall u d, _match_route (static u d srv) method path
               = _match_route srv method path).
Proof.
  split; [| by split].
  unfold _match_route, route. cbn [_routes init app].
  apply match_routes_app.
Qed.

Lemma sub_params_plain (s : string) :
  forallb (fun c => negb (Ascii.eqb c ":")) (list_ascii_of_string s) = true ->
  sub_params s = s.
Proof.
  induction s as [| c r IH]; [done |]. cbn [list_ascii_of_string forallb].
  intros [Hc Hr]%andb_prop. rewrite sub_params_cons.
  destruct (Ascii.eqb c ":"); [done |]. by rewrite IH.
Qed.

(** The characters of a template that stand for themselves in the
    pattern. *)
Lemma parse_nodes_literal (s : string) : forall fuel seen,
  forallb (fun c => negb (is_meta c || Ascii.eqb c ".")) (list_ascii_of_string s)
  = true ->
  (String.length s < fuel)%nat ->
  parse_nodes fuel seen (s ++ "$") = Some (map Lit (list_ascii_of_string s)).
Proof.
  induction s as [| c r IH]; intros fuel seen Hs Hf.
  - destruct fuel as [| fuel]; [cbn in Hf; lia |]. reflexivity.
  - destruct fuel as [| fuel]; [cbn in Hf; lia |].
    cbn [list_ascii_of_string forallb] in Hs.
    apply andb_prop in Hs as [Hc Hr].
    apply negb_true_iff, orb_false_iff in Hc as [Hm Hd].
    rewrite append_cons. cbn [parse_nodes].
    assert (E1 : String.eqb (String c (r ++ "$")) "$" = false).
    { cbn. destruct (Ascii.eqb_spec c "$"); [subst c; discriminate Hm | done]. }
    assert (E2 : String.prefix "(?P<" (String c (r ++ "$")) = false).
    { cbn [String.prefix].
      destruct (ascii_dec "(" c) as [<- |]; [discriminate Hm | done]. }
    rewrite E1, E2, Hm, Hd. cbn [list_ascii_of_string map].
    rewrite IH; [done | done | cbn in Hf; lia].
Qed.

Lemma match_nodes_literal (s : string) : forall text,
  match_nodes (map Lit (list_ascii_of_string s)) text
  = if bool_decide (text = s \/ text = (s ++ String "010" EmptyString)%string)
    then Some [] else None.
Proof.
  induction s as [| c r IH]; intros text.
  - cbn [list_ascii_of_string map match_nodes]. rewrite append_nil_l.
    unfold at_end.
    destruct (String.eqb_spec text EmptyString) as [-> | H1]; [done |].
    destruct (String.eqb_spec text (String "010" EmptyString)) as [-> | H2];
      [done |].
    rewrite bool_decide_false; [done | intros [? | ?]; done].
  - cbn [list_ascii_of_string map match_nodes]. rewrite append_cons.
    destruct text as [| c' r'].
    { rewrite bool_decide_false; [done | intros [? | ?]; done]. }
    destruct (Ascii.eqb_spec c c') as [<- | Hne].
    + rewrite IH.
      assert (E : r' = r \/ r' = (r ++ String "010" EmptyString)%string <->
                  String c r' = String c r \/
                  String c r' = String c (r ++ String "010" EmptyString)).
      { split; (intros [H | H]; [left | right]); congruence. }
      by rewrite (bool_decide_ext _ _ E).
    + rewrite bool_decide_false; [done |].
      intros [H | H]; injection H as H1 H2; congruence.
Qed.

(** X18. A template without a colon and without pattern operators
    matches its own text and nothing else, except that the text may be
    followed by one final newline. *)
Theorem literal_template_matches_itself (tmpl text : string) :
  forallb (fun c => negb (is_meta c || Ascii.eqb c "." || Ascii.eqb c ":"))
          (list_ascii_of_string tmpl) = true ->
  re_match (_path_to_regex tmpl) text
  = if bool_decide (text = tmpl \/ text = (tmpl ++ String "010" EmptyString)%string)
    then Match [] else NoMatch.
Proof.
  intros Hp.
  assert (H1 : forallb (fun c => negb (Ascii.eqb c ":"))
                       (list_ascii_of_string tmpl) = true).
  { rewrite forallb_forall in *. intros c Hc. specialize (Hp c Hc).
    apply negb_true_iff in Hp. apply orb_false_iff in Hp as [_ Hp].
    by rewrite Hp. }
  assert (H2 : forallb (fun c => negb (is_meta c || Ascii.eqb c "."))
                       (list_ascii_of_string tmpl) = true).
  { rewrite forallb_forall in *. intros c Hc. specialize (Hp c Hc).
    apply negb_true_iff in Hp. apply orb_false_iff in Hp as [Hp _].
    by rewrite Hp. }
  unfold re_match, _path_to_regex. rewrite sub_params_plain by done.
  rewrite append_cons, append_nil_l. cbn [compile].
  rewrite parse_nodes_literal; [| done |].
  2:{ clear. induction tmpl as [| c r IH]; [rewrite append_nil_l; cbn; lia |].
      rewrite append_cons. cbn [String.length]. lia. }
  rewrite match_nodes_literal. by destruct (bool_decide _).
Qed.

Lemma literal_template_matches_itself_witness :
  re_match (_path_to_regex "/health") (String "/" (String "h" (String "e"
    (String "a" (String "l" (String "t" (String "h" (String "010"
    EmptyString))))))))
  = Match [] /\
  re_match (_path_to_regex "/health") "/health/" = NoMatch.
Proof.
  split.
  - rewrite (literal_template_matches_itself "/health") by reflexivity.
    reflexivity.
  - rewrite (literal_template_matches_itself "/health") by reflexivity.
    reflexivity.
Defined.

End routes_more.

Section static_more.
Import Re RiftHTTPServer RiftHandler.
Context {Callable State : Type} {lib : PyLib} {rt : Runtime Callable State}.
Implicit Types (srv : RiftHTTPServer.t Callable) (st : State).

(** X19. Registering a static mount keeps the mounts registered before
    it in front: an earlier mount whose prefix starts the path still
    serves it, from the new directory if it is the same prefix that was
    registered again; the new mount is used only where none did. *)
Theorem static_registration_keeps_earlier_mounts srv (u d path : string) :
  static_mount (_static_routes (static u d srv)) path
  = match static_mount (_static_routes srv) path with
    | Some (u0, d0) => Some (u0, if String.eqb u0 u then d else d0)
    | None => if String.prefix u path then Some (u, d) else None
    end.
Proof.
  unfold static. cbn [_static_routes].
  induction (_static_routes srv) as [| [k v] r IH]; [done |].
  cbn [assign]. destruct (String.eqb_spec k u) as [-> | Hne].
  - cbn [static_mount]. destruct (String.prefix u path) eqn:Ep.
    + by rewrite String.eqb_refl.
    + clear IH. induction r as [| [k' v'] r IH]; cbn [static_mount].
      * done.
      * destruct (String.prefix k' path) eqn:Ep'; [| exact IH].
        destruct (String.eqb_spec k' u) as [-> | ?]; [congruence | done].
  - cbn [static_mount]. destruct (String.prefix k path); [| exact IH].
    by destruct (String.eqb_spec k u).
Qed.

(** X20. A path under a static mount is served from the mount without
    looking at the routes: whatever the method, the routes and the
    middleware, no callback is invoked, the host state is unchanged, and
    the connection receives what [_serve_static] writes for the rest of
    the path. *)
Theorem static_mount_bypasses_routes srv (method : string) (inc : incoming) st
    (u d : string) :
  static_mount (_static_routes srv) (urlparse (target inc)).1 = Some (u, d) ->
  let r := _handle_request srv method inc st in
  r = (Value tt, st,
       map Wire (_serve_static d
                   (lstrip_slash
                      (drop_chars (String.length u) (urlparse (target inc)).1)))) /\
  called r.2 = [] /\
  String.prefix u (urlparse (target inc)).1 = true.
Proof.
  intros Hs. cbv zeta. unfold _handle_request.
  destruct (urlparse (target inc)) as [path query_string]. cbn [fst] in *.
  rewrite Hs. split; [done |]. split.
  - unfold emit_all. cbn [snd]. apply called_wire.
  - clear -Hs. induction (_static_routes srv) as [| [k v] r IH]; [done |].
    cbn [static_mount] in Hs. destruct (String.prefix k path) eqn:Ep.
    + by injection Hs as -> ->.
    + by apply IH.
Qed.

Lemma handle_request_build_raises srv method inc st h params e :
  static_mount (_static_routes srv) (urlparse (target inc)).1 = None ->
  _match_route srv method (urlparse (target inc)).1 = Found h params ->
  build_request method (urlparse (target inc)).1 params
    (single_or_list (parse_qs (latin1 (urlparse (target inc)).2))) inc
  = Raise e ->
  _handle_request srv method inc st = (Raises e, st, []).
Proof.
  intros Hs Hm Hb. unfold _handle_request.
  destruct (urlparse (target inc)) as [path query_string]. cbn [fst snd] in *.
  rewrite Hs, Hm. unfold mbind at 1, M_bind, RiftHandler.bind, lift.
  by rewrite Hb.
Qed.

(** X21. A routed request whose [Content-Length] header is not a number,
    or whose JSON or url-encoded body is not well-formed UTF-8, ends with
    that exception: no middleware and no handler is called, and nothing,
    not even an error response, is written. *)
Theorem undecodable_request_is_aborted srv (method : string)
    (inc : incoming) st h (params : groupdict) (e : exn) :
  static_mount (_static_routes srv) (urlparse (target inc)).1 = None ->
  _match_route srv method (urlparse (target inc)).1 = Found h params ->
  (exists text,
     header_get "Content-Length" (header_lines inc) = Some text /\
     int_of_str text = Raise e) \/
  (exists text n content_type,
     header_get "Content-Length" (header_lines inc) = Some text /\
     int_of_str text = Ok n /\ 0 < n /\
     header_get "Content-Type" (header_lines inc) = Some content_type /\
     (Seq.contains "application/json" content_type = true \/
      Seq.contains "application/x-www-form-urlencoded" content_type = true) /\
     Utf8.decode (take (Z.to_nat n) (rfile inc)) = Raise e) ->
  _handle_request srv method inc st = (Raises e, st, []).
Proof.
  intros Hs Hm Hbad. eapply handle_request_build_raises; [done | done |].
  unfold build_request.
  destruct Hbad as [(text & Hh & Hi) | (text & n & ct & Hh & Hi & Hn & Hc & Hct & Hd)].
  - by rewrite Hh, Hi.
  - rewrite Hh, Hi, Hc. cbn [mbind result_bind Py.bind default].
    destruct (Z.gtb_spec n 0); [| lia].
    destruct (take (Z.to_nat n) (rfile inc)) as [| b body] eqn:Eb;
      [discriminate Hd |].
    by rewrite (parse_body_strict_decode _ _ _ e Hct Hd).
Qed.

(** X22. Without a [Content-Length] header, or with one that is not
    positive, the body of the request dict is the empty mapping: the
    input stream is not read and the content type plays no part. *)
Theorem request_without_content_length_has_empty_body (method path : string)
    (params : groupdict) (query : value) (inc : incoming) :
  header_get "Content-Length" (header_lines inc) = None \/
  (exists text n, header_get "Content-Length" (header_lines inc) = Some text /\
                  int_of_str text = Ok n /\ n <= 0) ->
  build_request method path params query inc
  = (cookies ← _parse_cookies
                 (default EmptyString (header_get "Cookie" (header_lines inc)));
     Ok (request_dict method path params query
           (headers_dict (header_lines inc)) (VDict []) (VDict cookies))).
Proof.
  intros [Hh | (text & n & Hh & Hi & Hn)]; unfold build_request; rewrite Hh.
  - reflexivity.
  - rewrite Hi. cbn [mbind result_bind Py.bind].
    destruct (Z.gtb_spec n 0); [lia |]. reflexivity.
Qed.

End static_more.

Lemma static_mount_bypasses_routes_witness :
  RiftHandler._handle_request (lib:=Demo.lib) (rt:=Demo.runtime)
    Demo.mounted "GET" (Demo.plain_get "/a/17") []
  = (RiftHandler.Value tt, [], []) /\
  RiftHandler.called
    (RiftHandler._handle_request (lib:=Demo.lib) (rt:=Demo.runtime)
       Demo.guarded "GET" (Demo.plain_get "/a/17") []).2
  = ["log"; "auth"].
Proof.
  split; [| reflexivity].
  destruct (static_mount_bypasses_routes (lib:=Demo.lib) (rt:=Demo.runtime)
              Demo.mounted "GET" (Demo.plain_get "/a/17") [] "/a" "./public")
    as (H & _); [reflexivity |].
  exact H.
Defined.

Lemma undecodable_request_is_aborted_witness :
  RiftHandler._handle_request (lib:=Demo.lib) (rt:=Demo.runtime)
    Demo.logged "GET"
    (RiftHandler.Incoming "/a/17" [("content-length", "1x")] [0x7B; 0x7D]) []
  = (RiftHandler.Raises ValueError, [], []) /\
  RiftHandler._handle_request (lib:=Demo.lib) (rt:=Demo.runtime)
    Demo.logged "GET"
    (RiftHandler.Incoming "/a/17"
       [("Content-Type", "application/x-www-form-urlencoded");
        ("Content-Length", "2")]
       [0x61; 0xFF; 0x62]) []
  = (RiftHandler.Raises UnicodeDecodeError, [], []).
Proof.
  split.
  - apply (undecodable_request_is_aborted (lib:=Demo.lib) (rt:=Demo.runtime)
             Demo.logged "GET"
             (RiftHandler.Incoming "/a/17" [("content-length", "1x")]
                [0x7B; 0x7D])
             [] "show_item" [("id", Some "17")] ValueError);
      [reflexivity | reflexivity |].
    left. exists "1x". split; reflexivity.
  - apply (undecodable_request_is_aborted (lib:=Demo.lib) (rt:=Demo.runtime)
             Demo.logged "GET"
             (RiftHandler.Incoming "/a/17"
                [("Content-Type", "application/x-www-form-urlencoded");
                 ("Content-Length", "2")]
                [0x61; 0xFF; 0x62])
             [] "show_item" [("id", Some "17")] UnicodeDecodeError);
      [reflexivity | reflexivity |].
    right. exists "2", 2, "application/x-www-form-urlencoded".
    split_and!; try reflexivity. right. reflexivity.
Defined.

Lemma request_without_content_length_has_empty_body_witness :
  RiftHandler.build_request (lib:=Demo.lib) "POST" "/a/17" [("id", Some "17")]
    (VDict [])
    (RiftHandler.Incoming "/a/17" [("Content-Type", "application/json")]
       [0x5B; 0x5D])
  = Ok (RiftHandler.request_dict "POST" "/a/17" [("id", Some "17")] (VDict [])
          (VDict [(latin1 "Content-Type", VStr (latin1 "application/json"))])
          (VDict []) (VDict [])).
Proof.
  rewrite (request_without_content_length_has_empty_body (lib:=Demo.lib)
             "POST" "/a/17" [("id", Some "17")] (VDict [])
             (RiftHandler.Incoming "/a/17"
                [("Content-Type", "application/json")] [0x5B; 0x5D]))
    by (left; reflexivity).
  reflexivity.
Defined.

(** ** Error responses, text bodies, multipart bodies, response helpers *)

Section bodies_more.
Import RiftHTTPServer RiftHandler.
Context {Callable State : Type} {lib : PyLib} {rt : Runtime Callable State}.

Lemma encode_ascii (l : ustr) :
  Forall (fun b => 0 <= b < 128) l -> Utf8.encode l = Ok l.
Proof.
  induction 1 as [| b l Hb _ IH]; [done |]. cbn [Utf8.encode].
  unfold Utf8.encode_cp.
  destruct (Z.ltb_spec b 0); [lia |]. destruct (Z.ltb_spec b 128); [| lia].
  by rewrite IH.
Qed.

Lemma hex_digit_printable d : 0 <= d < 16 -> printable (Json.hex_digit d).
Proof.
  intros H. unfold Json.hex_digit, printable. destruct (Z.ltb_spec d 10); lia.
Qed.

Lemma u_escape_printable c :
  0 <= c < 65536 -> Forall printable (Json.u_escape c).
Proof.
  intros H. unfold Json.u_escape.
  repeat constructor; try (unfold printable; lia);
    apply hex_digit_printable; Z.div_mod_to_equations; lia.
Qed.

Lemma escape_char_printable c :
  0 <= c < 0x110000 -> Forall printable (Json.escape_char c).
Proof.
  intros H. unfold Json.escape_char.
  repeat (case_match; [repeat constructor; unfold printable; lia |]).
  destruct (Z.leb_spec 32 c), (Z.leb_spec c 126); cbn [andb];
    try (repeat constructor; unfold printable; lia);
    (destruct (Z.ltb_spec c 0x10000);
     [apply u_escape_printable; lia |
      apply Forall_app; split; apply u_escape_printable;
        Z.div_mod_to_equations; lia]).
Qed.

Lemma dumps_str_printable s :
  Forall (fun c => 0 <= c < 0x110000) s -> Forall printable (Json.dumps_str s).
Proof.
  intros H. unfold Json.dumps_str.
  apply Forall_app. split; [repeat constructor; unfold printable; lia |].
  apply Forall_app. split; [| repeat constructor; unfold printable; lia].
  induction H as [| c s Hc _ IH]; [constructor |]. cbn [map concat].
  apply Forall_app. split; [by apply escape_char_printable | done].
Qed.

(** X23. Whatever the message of the exception, the error response is
    sent in full and its body is printable ASCII: the JSON text escapes
    every other character, so encoding it cannot fail and changes
    nothing. *)
Theorem error_response_body_is_ascii (status : Z) (message : ustr)
    (st : State) :
  Forall (fun c => 0 <= c < 0x110000) message ->
  exists text,
    _send_error (Callable:=Callable) status (error_body message) st
    = (Value tt, st,
       map Wire [send_response status;
                 send_header "Content-Type" "application/json";
                 end_headers; wfile_write text]) /\
    Forall printable text /\
    Utf8.encode text = Ok text.
Proof.
  intros Hm. exists (Json.error_json message). split; [reflexivity |].
  assert (Hp : Forall printable (Json.error_json message)).
  { unfold Json.error_json.
    apply Forall_app. split; [repeat constructor; unfold printable; lia |].
    apply Forall_app. split; [| repeat constructor; unfold printable; lia].
    apply Forall_app. split.
    { apply dumps_str_printable.
      let x := eval vm_compute in (latin1 "error") in
      change (latin1 "error") with x.
      repeat constructor; lia. }
    apply Forall_app. split; [repeat constructor; unfold printable; lia |].
    by apply dumps_str_printable. }
  split; [done |]. apply encode_ascii.
  eapply Forall_impl; [exact Hp |]. unfold printable. intros b Hb. cbn beta in *. lia.
Qed.

Lemma decode_replace_encode s : forall data,
  Utf8.encode s = Ok data -> Utf8.decode_replace data = s.
Proof.
  induction s as [| c s IH]; intros data; cbn [Utf8.encode].
  - by intros [= <-].
  - destruct (Utf8.encode_cp c) as [bs |] eqn:Ec; [| discriminate].
    destruct (Utf8.encode s) as [tl |] eqn:Es; [| discriminate].
    cbn. intros [= <-].
    pose proof (encode_cp_length _ _ Ec) as Hlen.
    destruct bs as [| b bs]; [cbn in Hlen; lia |].
    change ((b :: bs) ++ tl) with (b :: (bs ++ tl)).
    rewrite decode_replace_cons.
    change (b :: (bs ++ tl)) with ((b :: bs) ++ tl).
    rewrite (decode_step_encode_cp _ _ _ Ec). by rewrite (IH tl).
Qed.

(** X24. A body of none of the three known content types that is the
    UTF-8 encoding of a non-empty text decodes to that text. *)
Theorem text_body_round_trip (content_type : string) (s : ustr)
    (data : bytes) :
  Seq.contains "application/json" content_type = false ->
  Seq.contains "application/x-www-form-urlencoded" content_type = false ->
  Seq.contains "multipart/form-data" content_type = false ->
  s ≠ [] ->
  Utf8.encode s = Ok data ->
  _parse_body content_type data = Ok (VStr s).
Proof.
  intros H1 H2 H3 Hs He.
  destruct data as [| b body].
  - destruct s as [| c s]; [done |]. cbn [Utf8.encode] in He.
    destruct (Utf8.encode_cp c) as [bs |] eqn:Ec; [| discriminate].
    destruct (Utf8.encode s) as [tl |]; [| discriminate].
    cbn in He. injection He as He.
    apply encode_cp_length in Ec. destruct bs; [cbn in Ec; lia | discriminate].
  - rewrite parse_body_text by done. by rewrite (decode_replace_encode s).
Qed.

Lemma find_range sub l : Seq.find sub l = -1 \/ 0 <= Seq.find sub l.
Proof.
  induction l as [| x r IH]; cbn [Seq.find].
  - destruct (Seq.starts_with sub []); [right; lia | by left].
  - destruct (Seq.starts_with sub (x :: r)); [right; lia |].
    destruct (Z.ltb_spec (Seq.find sub r) 0); [by left | right; lia].
Qed.

Lemma split_fuel_absent sep : forall l fuel piece,
  Seq.find sep l = -1 -> (length l <= fuel)%nat ->
  Seq.split_fuel fuel sep piece l = [piece ++ l].
Proof.
  induction l as [| x r IH]; intros fuel piece Hf Hl.
  - rewrite app_nil_r. by destruct fuel.
  - destruct fuel as [| fuel]; [cbn in Hl; lia |].
    cbn [Seq.find] in Hf. cbn [Seq.split_fuel].
    destruct (Seq.starts_with sep (x :: r)); [discriminate |].
    rewrite IH; [by rewrite <- app_assoc | | cbn in Hl; lia].
    destruct (find_range sep r) as [E | E]; [done |].
    destruct (Z.ltb_spec (Seq.find sep r) 0); lia.
Qed.

(** X25. A multipart body in which the boundary of the content type does
    not occur has no part: the result is the empty mapping, not an
    error. *)
Theorem multipart_body_without_boundary_is_empty (content_type : string)
    (token boundary body : bytes) :
  Seq.search_group (latin1 "boundary=") (Z.eqb 59) [] (latin1 content_type)
  = Some token ->
  Utf8.encode (latin1 "--" ++ token) = Ok boundary ->
  Seq.find boundary body = -1 ->
  _parse_multipart content_type body = Ok (VDict []).
Proof.
  intros Ht Hb Hf. unfold _parse_multipart. rewrite Ht, Hb.
  cbn [mbind result_bind Py.bind]. unfold Seq.split.
  by rewrite split_fuel_absent.
Qed.

(** X26. Every value built by a response helper is response-shaped: a
    middleware that returns one ends the request there, the response is
    sent, and neither the later middleware nor the handler is called. *)
Theorem helper_response_ends_the_chain (v : value) (mw : Callable)
    (rest : list Callable) (h : Callable) (request request' : value)
    (st st' : State) :
  Helpers.built v ->
  _call mw request st = (Returned v, request', st') ->
  is_response v = true /\
  run_chain (mw :: rest) h request st
  = (Value tt, st', Call mw request :: map Wire (response_of v)).
Proof.
  intros Hv Hc.
  assert (Hr : is_response v = true) by (destruct Hv; reflexivity).
  split; [done |]. rewrite run_chain_eq.
  by rewrite (run_middleware_answer _ _ _ _ _ _ _ Hc Hr).
Qed.

End bodies_more.

Lemma error_response_body_is_ascii_witness :
  exists text,
    RiftHandler._send_error (Callable:=string) (State:=list string) 500
      (RiftHandler.error_body [0xE9; 0x1F600; 10]) []
    = (RiftHandler.Value tt, [],
       map RiftHandler.Wire
           [send_response 500; send_header "Content-Type" "application/json";
            end_headers; wfile_write text]) /\
    Forall printable text /\ Utf8.encode text = Ok text.
Proof.
  apply (error_response_body_is_ascii (Callable:=string) 500
           [0xE9; 0x1F600; 10] ([] : list string)).
  repeat constructor; lia.
Defined.

Lemma text_body_round_trip_witness :
  RiftHTTPServer._parse_body (lib:=Demo.lib) "text/plain"
    [0x48; 0xC3; 0xA9; 0xE2; 0x82; 0xAC]
  = Ok (VStr [0x48; 0xE9; 0x20AC]).
Proof.
  apply (text_body_round_trip (lib:=Demo.lib) "text/plain" [0x48; 0xE9; 0x20AC]);
    [reflexivity | reflexivity | reflexivity | discriminate | reflexivity].
Defined.

Lemma multipart_body_without_boundary_is_empty_witness :
  RiftHTTPServer._parse_multipart "multipart/form-data; boundary=X"
    (Utf8.encode_latin1 "name=a") = Ok (VDict []).
Proof.
  apply (multipart_body_without_boundary_is_empty
           "multipart/form-data; boundary=X" (latin1 "X") (latin1 "--X"));
    reflexivity.
Defined.

Lemma helper_response_ends_the_chain_witness :
  RiftHandler.is_response
    (Helpers.http_redirect (VStr (latin1 "/login")) (VInt 302)) = true.
Proof.
  pose (rt := {| _call := fun (f : string) (request : value) (st : list string) =>
                   (Returned (Helpers.http_redirect (VStr (latin1 "/login"))
                                                    (VInt 302)),
                    request, st ++ [f]);
                 _send_response := fun _ => ([send_response 302; end_headers], None);
                 _serve_static := fun _ _ => [] |}).
  destruct (helper_response_ends_the_chain (rt:=rt)
              (Helpers.http_redirect (VStr (latin1 "/login")) (VInt 302))
              "auth" ["log"] "show" Demo.request_17 Demo.request_17 [] ["auth"])
    as (H & _); [constructor | reflexivity |].
  exact H.
Defined.

(** ** The WebSocket server of websocket.py *)

Section websocket_server_more.
Import WebSocketConnection WebSocketServer.

(** X27. The two frame writers agree: on a working socket and a working
    open connection, [_send_message] of websocket.py and [send] of
    http.py fail on the same messages and otherwise write the same
    bytes. *)
Theorem send_message_frames_like_send (message : ustr) (s : socket)
    (c : WebSocketConnection.t) :
  broken s = false -> connected c = true -> wfile_broken c = false ->
  match _send_message message s, WebSocketConnection.send message c with
  | Done s', Ok (b, c') =>
      b = true /\ arriving s' = arriving s /\
      exists written,
        sent s' = sent s ++ written /\ wfile c' = wfile c ++ written
  | Fails _, Raise _ => True
  | _, _ => False
  end.
Proof.
  intros Hb Hc Hw. unfold _send_message, WebSocketConnection.send.
  rewrite Hb, Hc, Hw. cbn [negb].
  destruct (Utf8.encode message) as [data | e]; [| done].
  cbn [mbind result_bind Py.bind]. unfold frame_header, to_bytes, pack.
  destruct (Z.of_nat (length data) <=? 125).
  { cbn. split; [done |]. split; [done |]. by eexists. }
  destruct (Z.of_nat (length data) <=? 65535).
  { destruct (Z.of_nat (length data) <? 256 ^ Z.of_nat 2); [| done].
    cbn. split; [done |]. split; [done |]. by eexists. }
  destruct (Z.of_nat (length data) <? 256 ^ Z.of_nat 8); [| done].
  cbn. split; [done |]. split; [done |]. by eexists.
Qed.

Lemma send_message_frames_like_send_witness :
  match _send_message [0x68; 0x20AC] (Socket [] [] false),
        WebSocketConnection.send [0x68; 0x20AC] Demo.conn with
  | Done s', Ok (b, c') =>
      b = true /\ arriving s' = [] /\
      exists written,
        sent s' = [] ++ written /\ wfile c' = wfile Demo.conn ++ written
  | Fails _, Raise _ => True
  | _, _ => False
  end.
Proof.
  apply (send_message_frames_like_send [0x68; 0x20AC] (Socket [] [] false)
           Demo.conn); reflexivity.
Defined.

Lemma recv_app (a b : bytes) (runs : list bytes) o br :
  recv (length a) (Socket (push (a ++ b) runs) o br)
  = (a, Socket (push b runs) o br).
Proof.
  destruct a as [| x a]; [done |].
  assert (E : forall n, n = length (x :: a) ->
            recv n (Socket (push ((x :: a) ++ b) runs) o br)
            = (take n ((x :: a) ++ b),
               Socket (push (drop n ((x :: a) ++ b)) runs) o br)).
  { intros n ->. reflexivity. }
  rewrite E by done. by rewrite take_app_length, drop_app_length.
Qed.

Lemma recv_all (run : bytes) n (runs : list bytes) o br :
  run ≠ [] -> (length run <= n)%nat ->
  recv n (Socket (push run runs) o br) = (run, Socket runs o br).
Proof.
  intros Hr Hn. destruct run as [| x run]; [done |].
  destruct n as [| n]; [cbn in Hn; lia |].
  unfold recv. cbn [push arriving sent broken].
  by rewrite take_ge, drop_ge by done.
Qed.

Lemma recv_app' n (a b : bytes) (runs : list bytes) o br :
  n = length a ->
  recv n (Socket (push (a ++ b) runs) o br) = (a, Socket (push b runs) o br).
Proof. intros ->. apply recv_app. Qed.

(** [_receive_message] once the two header bytes and the extended
    length are read, all from the first run. *)
Lemma receive_message_after_header h0 h1 ext tail n runs o br :
  (Z.land h1 0x7F = 126 /\ length ext = 2%nat /\ from_bytes ext = n) \/
  (Z.land h1 0x7F = 127 /\ length ext = 8%nat /\ from_bytes ext = n) \/
  (Z.land h1 0x7F <= 125 /\ ext = [] /\ Z.land h1 0x7F = n) ->
  _receive_message (Socket ((h0 :: h1 :: ext ++ tail) :: runs) o br)
  = let '(mask, s3) :=
      if Z.land h1 0x80 =? 0 then ([], Socket (push tail runs) o br)
      else recv 4 (Socket (push tail runs) o br) in
    let '(data, s4) := recv (Z.to_nat n) s3 in
    match match mask with
          | [] => Ok data
          | _ :: _ => unmask (seq 0 (length data)) data mask
          end with
    | Raise _ => (None, s4)
    | Ok payload => (message_of (Z.land h0 0x0F) payload, s4)
    end.
Proof.
  intros Hcase. unfold _receive_message.
  change (recv 2 (Socket ((h0 :: h1 :: ext ++ tail) :: runs) o br))
    with ([h0; h1], Socket (push (ext ++ tail) runs) o br).
  cbv iota beta zeta.
  assert (Hparse :
    (if Z.land h1 0x7F =? 126
     then let '(e, s') := recv 2 (Socket (push (ext ++ tail) runs) o br)
          in (unpack 2 e, s')
     else if Z.land h1 0x7F =? 127
     then let '(e, s') := recv 8 (Socket (push (ext ++ tail) runs) o br)
          in (unpack 8 e, s')
     else (Some (Z.land h1 0x7F), Socket (push (ext ++ tail) runs) o br))
    = (Some n, Socket (push tail runs) o br)).
  { destruct Hcase as [(E & L & F) | [(E & L & F) | (E & -> & F)]].
    - rewrite E. cbn [Z.eqb Pos.eqb]. rewrite recv_app' by done.
      unfold unpack. by rewrite L, F.
    - rewrite E. cbn [Z.eqb Pos.eqb]. rewrite recv_app' by done.
      unfold unpack. by rewrite L, F.
    - destruct (Z.eqb_spec (Z.land h1 0x7F) 126); [lia |].
      destruct (Z.eqb_spec (Z.land h1 0x7F) 127); [lia |].
      by rewrite F. }
  rewrite Hparse. reflexivity.
Qed.

Lemma deliver_message opcode payload c :
  (deliver opcode payload c).1 = message_of opcode payload.
Proof.
  unfold deliver, message_of. destruct (opcode =? 1).
  - by destruct (Utf8.decode payload).
  - by destruct (opcode =? 8).
Qed.

(** X28. A complete frame at the head of what has arrived, masked under
    any 4-byte key or unmasked, is read by [_receive_message] as by
    [receive] of http.py: it returns the same message and consumes
    exactly the frame. *)
Theorem receive_message_whole_frame (h0 : Z) (key : option bytes)
    (data rest : bytes) (runs : list bytes) (o : bytes) (br : bool)
    (c : WebSocketConnection.t) :
  Z.of_nat (length data) < 2 ^ 64 ->
  (forall k, key = Some k -> length k = 4%nat) ->
  _receive_message (Socket ((frame h0 key data ++ rest) :: runs) o br)
  = (message_of (Z.land h0 0x0F) data, Socket (push rest runs) o br) /\
  message_of (Z.land h0 0x0F) data
  = (receive (set_rfile (frame h0 key data ++ rest) c)).1.
Proof.
  intros Hlen Hkey. split.
  2:{ rewrite receive_complete_frame by done. by rewrite deliver_message. }
  destruct (frame_cases h0 key data Hlen) as (b1 & ext & Hb & -> & Hcase).
  destruct (length7_bits b1 Hb) as (E1 & E2 & E3 & E4).
  destruct key as [k |].
  - change ((h0 :: Z.lor 0x80 b1 :: ext ++ k ++ mask_payload k data) ++ rest)
      with (h0 :: Z.lor 0x80 b1 :: (ext ++ k ++ mask_payload k data) ++ rest).
    rewrite <- !app_assoc.
    rewrite (receive_message_after_header _ _ _ _ (Z.of_nat (length data)))
      by (rewrite E1; intuition lia).
    rewrite E2. cbn [Z.eqb]. rewrite recv_app' by (by rewrite Hkey).
    rewrite Nat2Z.id.
    rewrite recv_app' by (by rewrite mask_payload_length).
    specialize (Hkey k eq_refl). destruct k as [| k0 k]; [done |].
    rewrite mask_payload_length.
    by rewrite unmask_mask_payload by done.
  - change ((h0 :: b1 :: ext ++ data) ++ rest)
      with (h0 :: b1 :: (ext ++ data) ++ rest).
    rewrite <- !app_assoc.
    rewrite (receive_message_after_header _ _ _ _ (Z.of_nat (length data)))
      by (rewrite E3; intuition lia).
    rewrite E4. cbn [Z.eqb]. rewrite Nat2Z.id. by rewrite recv_app' by done.
Qed.

Lemma receive_message_whole_frame_witness :
  _receive_message
    (Socket [frame 0x81 (Some Demo.key) [0x68; 0x69] ++ [0x88; 0x80]] [] false)
  = (Some [0x68; 0x69], Socket [[0x88; 0x80]] [] false).
Proof.
  destruct (receive_message_whole_frame 0x81 (Some Demo.key) [0x68; 0x69]
              [0x88; 0x80] [] [] false Demo.conn) as (H & _);
    [reflexivity | by intros k [= <-] |].
  exact H.
Defined.

Lemma take_imap {A B} (l : list A) : forall (f : nat -> A -> B) k,
  take k (imap f l) = imap f (take k l).
Proof.
  induction l as [| x l IH]; intros f k; [by destruct k |].
  destruct k as [| k]; [done |]. cbn. by rewrite IH.
Qed.

(** X29. [_receive_message] does not wait for the whole payload: when
    the first run of bytes ends inside the payload of a frame that
    declares at most 65535 bytes (the 7-bit and the 16-bit length form,
    sizes [recv] can always allocate), the part that has arrived is
    taken for the whole payload, and the rest of the frame stays in the
    socket, where the next call reads it as a frame header. *)
Theorem receive_message_split_frame (h0 : Z) (key : option bytes)
    (data : bytes) (j : nat) (runs : list bytes) (o : bytes) (br : bool) :
  Z.of_nat (length data) <= 65535 ->
  (forall k, key = Some k -> length k = 4%nat) ->
  let head :=
    (1 + length (length_field (Z.of_nat (length data)))
     + match key with Some _ => 4 | None => 0 end)%nat in
  (head < j < length (frame h0 key data))%nat ->
  _receive_message
    (Socket (take j (frame h0 key data) :: drop j (frame h0 key data) :: runs)
            o br)
  = (message_of (Z.land h0 0x0F) (take (j - head) data),
     Socket (drop j (frame h0 key data) :: runs) o br).
Proof.
  intros Hlen Hkey head Hj. subst head.
  destruct (length_field_cases (Z.of_nat (length data)))
    as (b1 & ext & Hf & Hb & Hcase); [apply short_length; lia |].
  unfold frame in *. rewrite Hf in *.
  destruct (length7_bits b1 Hb) as (E1 & E2 & E3 & E4).
  clear Hlen. cbn [length] in Hj.
  destruct key as [k |].
  - specialize (Hkey k eq_refl). cbn [length] in Hj.
    rewrite !length_app, mask_payload_length, Hkey in Hj.
    cbn [length].
    remember (j - (1 + S (length ext) + 4))%nat as k' eqn:Ek.
    assert (Htake :
      take j (h0 :: Z.lor 0x80 b1 :: ext ++ k ++ mask_payload k data)
      = h0 :: Z.lor 0x80 b1 :: ext ++ k ++ mask_payload k (take k' data)).
    { destruct j as [| [| j]]; [lia | lia |]. cbn [take].
      rewrite take_app_ge by lia. rewrite take_app_ge by lia.
      unfold mask_payload. rewrite take_imap.
      replace (j - length ext - length k)%nat with k' by lia. done. }
    rewrite Htake.
    rewrite (receive_message_after_header _ _ _ _ (Z.of_nat (length data)))
      by (rewrite E1; intuition lia).
    rewrite E2. cbn [Z.eqb]. rewrite recv_app' by done.
    rewrite Nat2Z.id.
    rewrite recv_all.
    2:{ intros E. apply (f_equal length) in E.
        rewrite mask_payload_length, length_take in E. cbn in E. lia. }
    2:{ rewrite mask_payload_length, length_take. lia. }
    destruct k as [| k0 k]; [done |].
    rewrite mask_payload_length. by rewrite unmask_mask_payload by done.
  - cbn [length] in Hj |- *. rewrite !length_app in Hj.
    remember (j - (1 + S (length ext) + 0))%nat as k' eqn:Ek.
    assert (Htake :
      take j (h0 :: b1 :: ext ++ data) = h0 :: b1 :: ext ++ take k' data).
    { destruct j as [| [| j]]; [lia | lia |]. cbn [take].
      rewrite take_app_ge by lia.
      replace (j - length ext)%nat with k' by lia. done. }
    rewrite Htake.
    rewrite (receive_message_after_header _ _ _ _ (Z.of_nat (length data)))
      by (rewrite E3; intuition lia).
    rewrite E4. cbn [Z.eqb]. rewrite Nat2Z.id.
    rewrite recv_all; [done | |].
    + intros E. apply (f_equal length) in E.
      rewrite length_take in E. cbn in E. lia.
    + rewrite length_take. lia.
Qed.

Lemma receive_message_split_frame_witness :
  _receive_message
    (Socket [[0x81; 0x03; 0x61; 0x62]; [0x63]] [] false)
  = (Some [0x61; 0x62], Socket [[0x63]] [] false).
Proof.
  apply (receive_message_split_frame 0x81 None [0x61; 0x62; 0x63] 4 []
           [] false); [cbn; lia | discriminate | vm_compute; lia].
Defined.

(** X30. [broadcast] keeps exactly the clients whose socket took the
    frame, each with the frame of the message appended to what it had
    been sent; a message that cannot be encoded removes every client from
    the table. *)
Theorem broadcast_keeps_clients_that_accepted (message : ustr)
    (clients : gmap string socket) :
  match Utf8.encode message with
  | Raise _ => broadcast message clients = ∅
  | Ok data =>
      Z.of_nat (length data) < 2 ^ 64 ->
      broadcast message clients
      = (fun s => Socket (arriving s) (sent s ++ server_text_frame data) false)
        <$> filter (fun kv => broken kv.2 = false) clients
  end.
Proof.
  unfold broadcast.
  destruct (Utf8.encode message) as [data | e] eqn:Em.
  - intros Hlen. apply map_eq. intros i.
    rewrite lookup_omap, lookup_fmap, map_lookup_filter.
    destruct (clients !! i) as [s |]; [| done]. cbn.
    unfold _send_message. rewrite Em.
    assert (Hh :
      (if Z.of_nat (length data) <=? 125
       then Some [0x81; Z.of_nat (length data)]
       else if Z.of_nat (length data) <=? 65535
       then option_map (app [0x81; 126]) (pack 2 (Z.of_nat (length data)))
       else option_map (app [0x81; 127]) (pack 8 (Z.of_nat (length data))))
      = Some (0x81 :: length_field (Z.of_nat (length data)))).
    { unfold length_field, pack.
      destruct (Z.leb_spec (Z.of_nat (length data)) 125); [done |].
      destruct (Z.leb_spec (Z.of_nat (length data)) 65535).
      - change (256 ^ Z.of_nat 2) with 65536.
        by destruct (Z.ltb_spec (Z.of_nat (length data)) 65536); [| lia].
      - change (256 ^ Z.of_nat 8) with (2 ^ 64).
        by destruct (Z.ltb_spec (Z.of_nat (length data)) (2 ^ 64)); [| lia]. }
    rewrite Hh. destruct (broken s) eqn:Eb.
    + rewrite option_guard_False; [done | cbn; congruence].
    + rewrite option_guard_True by done. reflexivity.
  - apply map_eq. intros i. rewrite lookup_omap, lookup_empty.
    destruct (clients !! i) as [s |]; [| done]. cbn.
    unfold _send_message. by rewrite Em.
Qed.

Lemma broadcast_keeps_clients_that_accepted_witness :
  broadcast [0x68; 0x69]
    (<["a" := Socket [] [] false]> (<["b" := Socket [] [1] true]> ∅))
  = <["a" := Socket [] [0x81; 2; 0x68; 0x69] false]> ∅ /\
  broadcast [0xD800]
    (<["a" := Socket [] [] false]> (<["b" := Socket [] [1] true]> ∅))
  = ∅.
Proof.
  split.
  - pose proof (broadcast_keeps_clients_that_accepted [0x68; 0x69]
        (<["a" := Socket [] [] false]> (<["b" := Socket [] [1] true]> ∅))) as H.
    cbn [Utf8.encode Utf8.encode_cp] in H. rewrite H by reflexivity.
    apply map_eq. intros i. by vm_compute.
  - exact (broadcast_keeps_clients_that_accepted [0xD800]
        (<["a" := Socket [] [] false]> (<["b" := Socket [] [1] true]> ∅))).
Defined.

End websocket_server_more.
